(** * Nuffield Health consultant scraper: a shallow embedding

    The development follows [nuffield_scraper.py]:
    - Python values as they come out of [resp.json()]: [pyval];
    - [json.dumps] and [json.loads] with their default settings, character
      by character: [json_dumps], [json_loads];
    - [FIELDS], [flatten_value] and the row comprehension: [flat_row];
    - [fetch_page] and [main] over an explicit world (the requests made,
      the sleeps, the output file): [fetch_page], [accumulate], [write_csv],
      [main];
    - after the claims of the specification, further properties of whole
      runs (requests, sleeps, failures, the rows of the file) and of the
      text of a flattened value.

    Prints to stdout and stderr are not modelled, nor are the limits of the
    interpreter (recursion depth, memory).  The text of a finite float is
    left to an interface, [FloatText].  The output file is kept as the rows
    handed to [csv.writer]. *)

From Stdlib Require Import ZArith NArith List String Ascii Bool Lia FinFun.
From Stdlib Require DecimalFacts DecimalPos DecimalZ.
Import ListNotations.

Set Implicit Arguments.

#[local] Open Scope N_scope.

(** ** Python strings

    A [str] is a sequence of Unicode code points.  The scraper only ever
    builds ASCII literals; everything else arrives from the network. *)

Definition pychar := N.
Definition pystr := list pychar.

Definition ord (a : ascii) : pychar := N_of_ascii a.

(** [py] turns a literal of this file into the Python [str]. *)
Definition py (s : string) : pystr := map ord (list_ascii_of_string s).

Fixpoint pystr_eqb (s t : pystr) : bool :=
  match s, t with
  | [], [] => true
  | a :: s', b :: t' => (a =? b) && pystr_eqb s' t'
  | _, _ => false
  end.

Lemma pystr_eqb_eq s t : pystr_eqb s t = true <-> s = t.
Proof.
  revert t. induction s as [|a s IH]; intros [|b t]; simpl;
    try (split; [discriminate | congruence]); [tauto|].
  rewrite andb_true_iff, N.eqb_eq, IH. split.
  - intros [-> ->]. reflexivity.
  - intros H. injection H as -> ->. now split.
Qed.

Lemma pystr_eqb_refl s : pystr_eqb s s = true.
Proof. now apply pystr_eqb_eq. Qed.

Lemma pystr_eqb_neq s t : pystr_eqb s t = false <-> s <> t.
Proof.
  rewrite <- pystr_eqb_eq. destruct (pystr_eqb s t); split; congruence.
Qed.

(** No string occurs twice. *)
Fixpoint distinct (l : list pystr) : bool :=
  match l with
  | [] => true
  | x :: t => negb (existsb (pystr_eqb x) t) && distinct t
  end.

Lemma existsb_pystr_In k l : existsb (pystr_eqb k) l = true <-> In k l.
Proof.
  rewrite existsb_exists. split.
  - intros [x [Hin Hx]]. apply pystr_eqb_eq in Hx. now subst.
  - intros Hin. exists k. split; [exact Hin|apply pystr_eqb_refl].
Qed.

Lemma distinct_NoDup l : distinct l = true <-> NoDup l.
Proof.
  induction l as [|x t IH]; cbn [distinct].
  - split; [constructor|reflexivity].
  - rewrite andb_true_iff, negb_true_iff, IH. split.
    + intros [Hx Ht]. constructor; [|exact Ht].
      rewrite <- existsb_pystr_In. congruence.
    + intros H. inversion H as [|? ? Hx Ht]; subst. split; [|exact Ht].
      destruct (existsb (pystr_eqb x) t) eqn:E; [|reflexivity].
      apply existsb_pystr_In in E. tauto.
Qed.

(** ** Python floats

    A float is NaN, an infinity or a finite double.  [json] itself tells
    these apart; only the text of a finite double is produced and read by
    the interpreter ([float.__repr__] and [float()]), which is kept as an
    interface. *)

Inductive pyfloat (double : Type) : Type :=
| FNaN
| FInf (negative : bool)
| FFinite (d : double).

Arguments FNaN {double}.
Arguments FInf {double} negative.
Arguments FFinite {double} d.

(** ** Python values, as [json.loads] builds them

    A [dict] keeps insertion order and its keys are [str]. *)

#[local] Unset Elimination Schemes.

Inductive pyval (double : Type) : Type :=
| PNone
| PBool (b : bool)
| PInt (z : Z)
| PFloat (f : pyfloat double)
| PStr (s : pystr)
| PList (l : list (pyval double))
| PDict (d : list (pystr * pyval double)).

Arguments PNone {double}.
Arguments PBool {double} b.
Arguments PInt {double} z.
Arguments PFloat {double} f.
Arguments PStr {double} s.
Arguments PList {double} l.
Arguments PDict {double} d.

#[local] Set Elimination Schemes.

(** Induction over values reaches the elements of lists and the values of
    dictionaries. *)
Section PyvalInd.
Variable double : Type.
Variable P : pyval double -> Prop.
Hypothesis HNone : P PNone.
Hypothesis HBool : forall b, P (PBool b).
Hypothesis HInt : forall z, P (PInt z).
Hypothesis HFloat : forall f, P (PFloat f).
Hypothesis HStr : forall s, P (PStr s).
Hypothesis HList : forall l, Forall P l -> P (PList l).
Hypothesis HDict :
  forall d, Forall (fun kv => P (snd kv)) d -> P (PDict d).

Fixpoint pyval_ind (v : pyval double) : P v :=
  match v with
  | PNone => HNone
  | PBool b => HBool b
  | PInt z => HInt z
  | PFloat f => HFloat f
  | PStr s => HStr s
  | PList l =>
      HList ((fix all (l : list (pyval double)) : Forall P l :=
                match l with
                | [] => Forall_nil _
                | x :: t => Forall_cons x (pyval_ind x) (all t)
                end) l)
  | PDict d =>
      HDict ((fix all (d : list (pystr * pyval double))
                : Forall (fun kv => P (snd kv)) d :=
                match d with
                | [] => Forall_nil _
                | kv :: t =>
                    Forall_cons (P := fun kv => P (snd kv)) kv
                      (pyval_ind (snd kv)) (all t)
                end) d)
  end.
End PyvalInd.

(** Exceptions the program can meet. *)
Inductive exn : Type :=
| KeyError
| TypeError
| AttributeError
| ValueError
| JSONDecodeError
| ConnectionError
| HTTPError (status : Z)
| OSError
| UnicodeEncodeError.

Inductive result (A : Type) : Type :=
| Ok (a : A)
| Raise (e : exn).

Arguments Ok {A} a.
Arguments Raise {A} e.

Definition rbind {A B} (r : result A) (k : A -> result B) : result B :=
  match r with
  | Ok a => k a
  | Raise e => Raise e
  end.


(** ** Dictionaries *)

Section Dict.
Variable V : Type.

Definition pydict := list (pystr * V).

(** [d.get(k)], as an option. *)
Fixpoint dict_find (d : pydict) (k : pystr) : option V :=
  match d with
  | [] => None
  | (k', v) :: d' => if pystr_eqb k k' then Some v else dict_find d' k
  end.

(** [d[k] = v]: an existing key keeps its position. *)
Fixpoint dict_set (d : pydict) (k : pystr) (v : V) : pydict :=
  match d with
  | [] => [(k, v)]
  | (k', v') :: d' =>
      if pystr_eqb k k' then (k', v) :: d' else (k', v') :: dict_set d' k v
  end.

(** [dict(pairs)]. *)
Definition dict_of_pairs (pairs : list (pystr * V)) : pydict :=
  fold_left (fun d kv => dict_set d (fst kv) (snd kv)) pairs [].

Definition dict_keys (d : pydict) : list pystr := map fst d.

Lemma dict_set_fresh d k v :
  ~ In k (dict_keys d) -> dict_set d k v = d ++ [(k, v)].
Proof.
  induction d as [|[k' v'] d IH]; simpl; intros Hn; [reflexivity|].
  destruct (pystr_eqb k k') eqn:E.
  - apply pystr_eqb_eq in E. subst. tauto.
  - rewrite IH by tauto. reflexivity.
Qed.

Lemma dict_of_pairs_nodup_gen acc pairs :
  NoDup (dict_keys acc ++ map fst pairs) ->
  fold_left (fun d kv => dict_set d (fst kv) (snd kv)) pairs acc
  = acc ++ pairs.
Proof.
  revert acc. induction pairs as [|[k v] ps IH]; simpl; intros acc Hnd.
  - now rewrite app_nil_r.
  - rewrite dict_set_fresh.
    + rewrite IH.
      * now rewrite <- app_assoc.
      * unfold dict_keys in *. rewrite map_app. simpl.
        rewrite <- app_assoc. exact Hnd.
    + apply NoDup_remove_2 in Hnd. intro Hin. apply Hnd.
      apply in_or_app. now left.
Qed.

Lemma dict_of_pairs_nodup pairs :
  NoDup (map fst pairs) -> dict_of_pairs pairs = pairs.
Proof. intros H. unfold dict_of_pairs. now rewrite dict_of_pairs_nodup_gen. Qed.

Lemma dict_find_in d k v : dict_find d k = Some v -> In k (dict_keys d).
Proof.
  induction d as [|[k' v'] d IH]; simpl; [discriminate|].
  destruct (pystr_eqb k k') eqn:E; intros H.
  - apply pystr_eqb_eq in E. now left.
  - right. now apply IH.
Qed.

Lemma dict_find_not_in d k : ~ In k (dict_keys d) -> dict_find d k = None.
Proof.
  intros Hn. destruct (dict_find d k) eqn:E; [|reflexivity].
  apply dict_find_in in E. tauto.
Qed.
End Dict.


(** [mapM f l]: run [f] over [l] from left to right, stopping at the first
    exception. *)
Section MapM.
Variables A B : Type.
Variable f : A -> result B.

Fixpoint mapM (l : list A) : result (list B) :=
  match l with
  | [] => Ok []
  | x :: t =>
      match f x with
      | Ok y => match mapM t with
                | Ok ys => Ok (y :: ys)
                | Raise e => Raise e
                end
      | Raise e => Raise e
      end
  end.
End MapM.

(** ** Text of numbers *)

Definition QUOTE : pychar := 34.
Definition BACKSLASH : pychar := 92.

Definition is_digit (c : pychar) : bool := (48 <=? c) && (c <=? 57).

Definition digit_char (n : N) : pychar := (48 + n).

Fixpoint uint_chars (d : Decimal.uint) : pystr :=
  match d with
  | Decimal.Nil => []
  | Decimal.D0 d => digit_char 0 :: uint_chars d
  | Decimal.D1 d => digit_char 1 :: uint_chars d
  | Decimal.D2 d => digit_char 2 :: uint_chars d
  | Decimal.D3 d => digit_char 3 :: uint_chars d
  | Decimal.D4 d => digit_char 4 :: uint_chars d
  | Decimal.D5 d => digit_char 5 :: uint_chars d
  | Decimal.D6 d => digit_char 6 :: uint_chars d
  | Decimal.D7 d => digit_char 7 :: uint_chars d
  | Decimal.D8 d => digit_char 8 :: uint_chars d
  | Decimal.D9 d => digit_char 9 :: uint_chars d
  end.

(** [int.__repr__]: decimal digits, a minus sign for negative numbers. *)
Definition int_repr (z : Z) : pystr :=
  match Z.to_int z with
  | Decimal.Pos d => uint_chars d
  | Decimal.Neg d => ord "-" :: uint_chars d
  end.

(** What the text of a JSON number looks like, after the three groups of
    [json.scanner.NUMBER_RE]: an integer part (an optional minus sign, then
    a single zero or digits that do not start with zero), an optional
    fraction (a dot and digits) and an optional exponent (e or E, an
    optional sign, digits). *)
Definition digits (s : pystr) : Prop := s <> [] /\ forallb is_digit s = true.

Definition int_part (s : pystr) : Prop :=
  exists sg ds, s = sg ++ ds /\ (sg = [] \/ sg = [ord "-"]) /\ digits ds
                /\ (ds = [ord "0"] \/ hd (ord "0") ds <> ord "0").

Definition frac_part (s : pystr) : Prop :=
  s = [] \/ exists ds, s = ord "." :: ds /\ digits ds.

Definition exp_part (s : pystr) : Prop :=
  s = [] \/
  exists e sg ds, s = e :: sg ++ ds /\ (e = ord "e" \/ e = ord "E")
                  /\ (sg = [] \/ sg = [ord "+"] \/ sg = [ord "-"]) /\ digits ds.

(** A float literal has a fraction or an exponent. *)
Definition float_literal (s : pystr) : Prop :=
  exists i fr ex, s = i ++ fr ++ ex /\ int_part i /\ frac_part fr /\ exp_part ex
                  /\ (fr <> [] \/ ex <> []).

(** The interpreter's conversions between finite doubles and text:
    [float.__repr__] writes the shortest literal that reads back as the same
    double, and [float()] reads any literal (overflowing to an infinity). *)
Class FloatText (double : Type) : Type := {
  float_repr : double -> pystr;
  float_of_text : pystr -> pyfloat double;
  float_repr_literal : forall d, float_literal (float_repr d);
  float_of_repr : forall d, float_of_text (float_repr d) = FFinite d
}.

(** ** [json.dumps] *)

(** ['{0:04x}'.format(n)], for [n < 0x10000]. *)
Definition hex_digit (n : N) : pychar :=
  if (n <? 10) then (48 + n) else (97 + (n - 10)).

Definition hex4 (n : N) : pystr :=
  [hex_digit (N.land (N.shiftr n 12) 15); hex_digit (N.land (N.shiftr n 8) 15);
   hex_digit (N.land (N.shiftr n 4) 15); hex_digit (N.land n 15)].

Definition u_escape (n : N) : pystr := BACKSLASH :: ord "u" :: hex4 n.

(** [json.encoder.py_encode_basestring_ascii]: the replacement of one
    character matched by [ESCAPE_ASCII] (the backslash, the double quote and
    whatever lies outside space..tilde); every other character stands for
    itself. *)
Definition escape_char (c : pychar) : pystr :=
  if (c =? BACKSLASH) then [BACKSLASH; BACKSLASH]
  else if (c =? QUOTE) then [BACKSLASH; QUOTE]
  else if (c =? 8) then [BACKSLASH; ord "b"]
  else if (c =? 12) then [BACKSLASH; ord "f"]
  else if (c =? 10) then [BACKSLASH; ord "n"]
  else if (c =? 13) then [BACKSLASH; ord "r"]
  else if (c =? 9) then [BACKSLASH; ord "t"]
  else if (32 <=? c) && (c <=? 126) then [c]
  else if (c <? 65536) then u_escape c
  else
    let n := (c - 65536) in
    u_escape (N.lor 55296 (N.land (N.shiftr n 10) 1023))
    ++ u_escape (N.lor 56320 (N.land n 1023)).

Definition encode_basestring_ascii (s : pystr) : pystr :=
  QUOTE :: flat_map escape_char s ++ [QUOTE].

(** [sep.join(items)]. *)
Fixpoint join (sep : pystr) (items : list pystr) : pystr :=
  match items with
  | [] => []
  | [x] => x
  | x :: rest => x ++ sep ++ join sep rest
  end.

Section Dumps.
Variable double : Type.
Context {FT : FloatText double}.

(** [json.encoder.floatstr]. *)
Definition floatstr (allow_nan : bool) (f : pyfloat double) : result pystr :=
  match f with
  | FFinite d => Ok (float_repr d)
  | FNaN => if allow_nan then Ok (py "NaN") else Raise ValueError
  | FInf false => if allow_nan then Ok (py "Infinity") else Raise ValueError
  | FInf true => if allow_nan then Ok (py "-Infinity") else Raise ValueError
  end.

(** The encoder, with [ensure_ascii=True], [indent=None] and the default
    separators [(', ', ': ')]. *)
Fixpoint encode (allow_nan : bool) (v : pyval double) : result pystr :=
  match v with
  | PNone => Ok (py "null")
  | PBool true => Ok (py "true")
  | PBool false => Ok (py "false")
  | PInt z => Ok (int_repr z)
  | PFloat f => floatstr allow_nan f
  | PStr s => Ok (encode_basestring_ascii s)
  | PList l =>
      match mapM (encode allow_nan) l with
      | Ok items => Ok (ord "[" :: join (py ", ") items ++ [ord "]"])
      | Raise e => Raise e
      end
  | PDict d =>
      match mapM (fun kv =>
                    match encode allow_nan (snd kv) with
                    | Ok s => Ok (encode_basestring_ascii (fst kv) ++ py ": " ++ s)
                    | Raise e => Raise e
                    end) d with
      | Ok items => Ok (ord "{" :: join (py ", ") items ++ [ord "}"])
      | Raise e => Raise e
      end
  end.

(** [json.dumps(obj)]: every keyword argument at its default, so
    [allow_nan=True]. *)
Definition json_dumps (v : pyval double) : result pystr := encode true v.

(** ** The record flattener *)

(** [flatten_value(v)]. *)
Definition flatten_value (v : pyval double) : result (pyval double) :=
  match v with
  | PList _ | PDict _ =>
      match json_dumps v with
      | Ok s => Ok (PStr s)
      | Raise e => Raise e
      end
  | PNone => Ok (PStr [])
  | _ => Ok v
  end.

End Dumps.

Definition FIELDS : list pystr :=
  [ py "id"; py "fullname"; py "firstname"; py "lastname"; py "title";
    py "url"; py "gender"; py "specialties"; py "hospitals"; py "locations";
    py "image"; py "bookable"; py "gmcNumber"; py "professionalQualifications";
    py "languages"; py "offersPaediatrics"; py "roboticAssistedSurgery";
    py "gpReferralRequired"; py "daysUntilNextAppointment"; py "availabilityRank";
    py "popularity"; py "updated_at" ].

(** ** [json.loads] *)

Definition is_ws (c : pychar) : bool :=
  (c =? 32) || (c =? 9) || (c =? 10) || (c =? 13).

(** [WHITESPACE.match(s, end).end()]. *)
Fixpoint skip_ws (s : pystr) : pystr :=
  match s with
  | c :: r => if is_ws c then skip_ws r else s
  | [] => []
  end.

(** [s[end:end + len(p)] == p], giving what follows. *)
Fixpoint strip_prefix (p s : pystr) : option pystr :=
  match p, s with
  | [], _ => Some s
  | a :: p', b :: s' => if (a =? b) then strip_prefix p' s' else None
  | _ :: _, [] => None
  end.

Definition hex_val (c : pychar) : option N :=
  if is_digit c then Some (c - 48)
  else if (97 <=? c) && (c <=? 102) then Some (c - 87)
  else if (65 <=? c) && (c <=? 70) then Some (c - 55)
  else None.

(** [_decode_uXXXX]: four hexadecimal digits. *)
Definition decode_uXXXX (s : pystr) : option (N * pystr) :=
  match s with
  | a :: b :: c :: d :: r =>
      match hex_val a, hex_val b, hex_val c, hex_val d with
      | Some a, Some b, Some c, Some d =>
          Some (N.lor (N.shiftl (N.lor (N.shiftl (N.lor (N.shiftl a 4) b) 4) c) 4) d, r)
      | _, _, _, _ => None
      end
  | _ => None
  end.

(** The table [BACKSLASH] of [json.decoder]. *)
Definition unescape (c : pychar) : option pychar :=
  if (c =? QUOTE) then Some QUOTE
  else if (c =? BACKSLASH) then Some BACKSLASH
  else if (c =? ord "/") then Some (ord "/")
  else if (c =? ord "b") then Some 8
  else if (c =? ord "f") then Some 12
  else if (c =? ord "n") then Some 10
  else if (c =? ord "r") then Some 13
  else if (c =? ord "t") then Some 9
  else None.

Definition is_high_surrogate (c : N) : bool := (55296 <=? c) && (c <=? 56319).
Definition is_low_surrogate (c : N) : bool := (56320 <=? c) && (c <=? 57343).
Definition is_surrogate (c : N) : bool := (55296 <=? c) && (c <=? 57343).

(** [scanstring(s, end, strict=True)], from the character after the opening
    quote: the decoded string and what follows the closing quote.  Each
    round consumes a character, so as many rounds as [s] has characters are always enough. *)
Fixpoint scanstring_fuel (fuel : nat) (s : pystr) : option (pystr * pystr) :=
  match fuel with
  | O => None
  | S fuel =>
      match s with
      | [] => None
      | c :: r =>
          if (c =? QUOTE) then Some ([], r)
          else if (c =? BACKSLASH) then
            match r with
            | [] => None
            | esc :: r1 =>
                if (esc =? ord "u") then
                  match decode_uXXXX r1 with
                  | None => None
                  | Some (uni, r2) =>
                      let merged :=
                        if is_high_surrogate uni then
                          match r2 with
                          | b :: u :: r3 =>
                              if (b =? BACKSLASH) && (u =? ord "u") then
                                match decode_uXXXX r3 with
                                | Some (uni2, r4) =>
                                    if is_low_surrogate uni2 then
                                      Some (Some (65536 + N.lor (N.shiftl (uni - 55296) 10)
                                                                (uni2 - 56320), r4))
                                    else Some None
                                | None => None
                                end
                              else Some None
                          | _ => Some None
                          end
                        else Some None in
                      match merged with
                      | None => None
                      | Some m =>
                          let (ch, r') := match m with
                                          | Some p => p
                                          | None => (uni, r2)
                                          end in
                          match scanstring_fuel fuel r' with
                          | Some (str, rest) => Some (ch :: str, rest)
                          | None => None
                          end
                      end
                  end
                else
                  match unescape esc with
                  | None => None
                  | Some ch =>
                      match scanstring_fuel fuel r1 with
                      | Some (str, rest) => Some (ch :: str, rest)
                      | None => None
                      end
                  end
            end
          else if (c <? 32) then None
          else
            match scanstring_fuel fuel r with
            | Some (str, rest) => Some (c :: str, rest)
            | None => None
            end
      end
  end.

Definition scanstring (s : pystr) : option (pystr * pystr) :=
  scanstring_fuel (List.length s) s.

(** The longest run of digits. *)
Fixpoint span_digits (s : pystr) : pystr * pystr :=
  match s with
  | c :: r =>
      if is_digit c then let (ds, rest) := span_digits r in (c :: ds, rest)
      else ([], s)
  | [] => ([], [])
  end.

(** The three groups of [NUMBER_RE] matched at the start of [s]. *)
Definition match_int (s : pystr) : option (pystr * pystr) :=
  let (sg, s1) := match s with
                  | c :: r => if (c =? ord "-") then ([c], r) else ([], s)
                  | [] => ([], [])
                  end in
  match s1 with
  | c :: r =>
      if (c =? ord "0") then Some (sg ++ [c], r)
      else if is_digit c then
        let (ds, rest) := span_digits r in Some (sg ++ c :: ds, rest)
      else None
  | [] => None
  end.

Definition match_frac (s : pystr) : pystr * pystr :=
  match s with
  | c :: r =>
      if (c =? ord ".") then
        match span_digits r with
        | ([], _) => ([], s)
        | (ds, rest) => (c :: ds, rest)
        end
      else ([], s)
  | [] => ([], [])
  end.

Definition match_exp (s : pystr) : pystr * pystr :=
  match s with
  | c :: r =>
      if (c =? ord "e") || (c =? ord "E") then
        let (sg, r1) := match r with
                        | x :: r' =>
                            if (x =? ord "+") || (x =? ord "-") then ([x], r')
                            else ([], r)
                        | [] => ([], [])
                        end in
        match span_digits r1 with
        | ([], _) => ([], s)
        | (ds, rest) => (c :: sg ++ ds, rest)
        end
      else ([], s)
  | [] => ([], [])
  end.

Definition match_number (s : pystr) : option (pystr * pystr * pystr * pystr) :=
  match match_int s with
  | None => None
  | Some (i, r) =>
      let (fr, r1) := match_frac r in
      let (ex, r2) := match_exp r1 in
      Some (i, fr, ex, r2)
  end.

Fixpoint uint_of_chars (s : pystr) : Decimal.uint :=
  match s with
  | [] => Decimal.Nil
  | c :: r =>
      let d := uint_of_chars r in
      match (c - 48) with
      | 0 => Decimal.D0 d
      | 1 => Decimal.D1 d
      | 2 => Decimal.D2 d
      | 3 => Decimal.D3 d
      | 4 => Decimal.D4 d
      | 5 => Decimal.D5 d
      | 6 => Decimal.D6 d
      | 7 => Decimal.D7 d
      | 8 => Decimal.D8 d
      | _ => Decimal.D9 d
      end
  end.

(** [int(text)] on the integer group of a number. *)
Definition int_of_text (s : pystr) : Z :=
  match s with
  | c :: r =>
      if (c =? ord "-") then Z.of_int (Decimal.Neg (uint_of_chars r))
      else Z.of_int (Decimal.Pos (uint_of_chars s))
  | [] => 0%Z
  end.

Section Loads.
Variable double : Type.
Context {FT : FloatText double}.

(** A scalar at the start of [s], in the order [py_make_scanner] tries
    them: the constants, then a number, then the non-finite floats. *)
Definition scan_atom (s : pystr) : option (pyval double * pystr) :=
  match strip_prefix (py "null") s with
  | Some r => Some (PNone, r)
  | None =>
  match strip_prefix (py "true") s with
  | Some r => Some (PBool true, r)
  | None =>
  match strip_prefix (py "false") s with
  | Some r => Some (PBool false, r)
  | None =>
  match match_number s with
  | Some (i, fr, ex, r) =>
      match fr, ex with
      | [], [] => Some (PInt (int_of_text i), r)
      | _, _ => Some (PFloat (float_of_text (i ++ fr ++ ex)), r)
      end
  | None =>
  match strip_prefix (py "NaN") s with
  | Some r => Some (PFloat FNaN, r)
  | None =>
  match strip_prefix (py "Infinity") s with
  | Some r => Some (PFloat (FInf false), r)
  | None =>
  match strip_prefix (py "-Infinity") s with
  | Some r => Some (PFloat (FInf true), r)
  | None => None
  end end end end end end end.

(** [scan_once] with [JSONArray] and [JSONObject].  [parse_elems] runs the
    loop of [JSONArray] from the first element, [parse_pairs] the loop of
    [JSONObject] from the character after a key's opening quote.  Every
    call goes down in [fuel]; [json_loads] gives enough of it. *)
Fixpoint scan_once (fuel : nat) (s : pystr) : option (pyval double * pystr) :=
  match fuel with
  | O => None
  | S fuel =>
      match s with
      | [] => None
      | c :: r =>
          if (c =? QUOTE) then
            match scanstring r with
            | Some (str, rest) => Some (PStr str, rest)
            | None => None
            end
          else if (c =? ord "{") then
            match skip_ws r with
            | c1 :: r1 =>
                if (c1 =? ord "}") then Some (PDict [], r1)
                else if (c1 =? QUOTE) then
                  match parse_pairs fuel r1 with
                  | Some (pairs, rest) => Some (PDict (dict_of_pairs pairs), rest)
                  | None => None
                  end
                else None
            | [] => None
            end
          else if (c =? ord "[") then
            match skip_ws r with
            | c1 :: r1 =>
                if (c1 =? ord "]") then Some (PList [], r1)
                else
                  match parse_elems fuel (c1 :: r1) with
                  | Some (vs, rest) => Some (PList vs, rest)
                  | None => None
                  end
            | [] => None
            end
          else scan_atom s
      end
  end

with parse_elems (fuel : nat) (s : pystr)
  : option (list (pyval double) * pystr) :=
  match fuel with
  | O => None
  | S fuel =>
      match scan_once fuel s with
      | None => None
      | Some (v, r) =>
          match skip_ws r with
          | c :: r1 =>
              if (c =? ord "]") then Some ([v], r1)
              else if (c =? ord ",") then
                match parse_elems fuel (skip_ws r1) with
                | Some (vs, rest) => Some (v :: vs, rest)
                | None => None
                end
              else None
          | [] => None
          end
      end
  end

with parse_pairs (fuel : nat) (s : pystr)
  : option (list (pystr * pyval double) * pystr) :=
  match fuel with
  | O => None
  | S fuel =>
      match scanstring s with
      | None => None
      | Some (key, r) =>
          match skip_ws r with
          | c :: r1 =>
              if (c =? ord ":") then
                match scan_once fuel (skip_ws r1) with
                | None => None
                | Some (v, r2) =>
                    match skip_ws r2 with
                    | c2 :: r3 =>
                        if (c2 =? ord "}") then Some ([(key, v)], r3)
                        else if (c2 =? ord ",") then
                          match skip_ws r3 with
                          | c3 :: r4 =>
                              if (c3 =? QUOTE) then
                                match parse_pairs fuel r4 with
                                | Some (ps, rest) => Some ((key, v) :: ps, rest)
                                | None => None
                                end
                              else None
                          | [] => None
                          end
                        else None
                    | [] => None
                    end
                end
              else None
          | [] => None
          end
      end
  end.

(** [json.loads(s)]: one value between optional whitespace, and nothing
    after it.  A value nested [n] deep has at least [2 * n] characters and
    costs two units of fuel a level. *)
Definition json_loads (s : pystr) : result (pyval double) :=
  match scan_once (2 * List.length s + 2) (skip_ws s) with
  | Some (v, rest) =>
      match skip_ws rest with
      | [] => Ok v
      | _ :: _ => Raise JSONDecodeError
      end
  | None => Raise JSONDecodeError
  end.

End Loads.

(** ** The scraper *)

#[local] Close Scope N_scope.
#[local] Open Scope Z_scope.

Definition SWIFTYPE_URL : pystr :=
  py "https://search-api.swiftype.com/api/v1/public/engines/search.json".
Definition ENGINE_KEY : pystr := py "sR_cCweEaptts3ExMPzv".
Definition PER_PAGE : Z := 100.
Definition output_file : pystr := py "nuffield_consultants.csv".

Section Scraper.
Variable double : Type.
Context {FT : FloatText double}.

(** [rec.get(field)] on a dictionary: [None] for a missing key. *)
Definition dict_get (d : pydict (pyval double)) (k : pystr) : pyval double :=
  match dict_find d k with
  | Some v => v
  | None => PNone
  end.

(** [rec.get(field)] on any value: only a dictionary has the method. *)
Definition py_get (rec : pyval double) (k : pystr) : result (pyval double) :=
  match rec with
  | PDict d => Ok (dict_get d k)
  | _ => Raise AttributeError
  end.

(** [v[k]] for a string [k]. *)
Definition subscript (v : pyval double) (k : pystr) : result (pyval double) :=
  match v with
  | PDict d =>
      match dict_find d k with
      | Some x => Ok x
      | None => Raise KeyError
      end
  | _ => Raise TypeError
  end.

(** [len(v)]. *)
Definition py_len (v : pyval double) : result Z :=
  match v with
  | PList l => Ok (Z.of_nat (List.length l))
  | PDict d => Ok (Z.of_nat (List.length d))
  | PStr s => Ok (Z.of_nat (List.length s))
  | _ => Raise TypeError
  end.

(** [iter(v)], run to its end: the elements of a list, the keys of a
    dictionary, the characters of a string. *)
Definition py_iter (v : pyval double) : result (list (pyval double)) :=
  match v with
  | PList l => Ok l
  | PDict d => Ok (map (fun k => PStr k) (dict_keys d))
  | PStr s => Ok (map (fun c => PStr [c]) s)
  | _ => Raise TypeError
  end.

(** [all_records.extend(records)]: the method is looked up first, then the
    argument is iterated; the list is touched only when both succeed. *)
Definition list_extend (all_records records : pyval double)
  : result (pyval double) :=
  match all_records with
  | PList l =>
      match py_iter records with
      | Ok items => Ok (PList (l ++ items))
      | Raise e => Raise e
      end
  | _ => Raise AttributeError
  end.

(** The integer a value stands for where [range] wants one ([bool] is a
    subclass of [int]); [num_pages + 1] on anything else ends in a
    [TypeError], at the addition or in [range]. *)
Definition as_int (v : pyval double) : result Z :=
  match v with
  | PInt z => Ok z
  | PBool b => Ok (if b then 1 else 0)
  | _ => Raise TypeError
  end.

(** [range(start, stop)]. *)
Definition py_range (start stop : Z) : list Z :=
  map (fun i => start + Z.of_nat i) (seq 0 (Z.to_nat (stop - start))).

(** [row = {field: flatten_value(rec.get(field)) for field in FIELDS}]. *)
Fixpoint row_comprehension (rec : pyval double) (fields : list pystr)
  (row : pydict (pyval double)) : result (pydict (pyval double)) :=
  match fields with
  | [] => Ok row
  | field :: rest =>
      match py_get rec field with
      | Ok v =>
          match flatten_value v with
          | Ok x => row_comprehension rec rest (dict_set row field x)
          | Raise e => Raise e
          end
      | Raise e => Raise e
      end
  end.

Definition flat_row (rec : pyval double) : result (pydict (pyval double)) :=
  row_comprehension rec FIELDS [].

(** *** The output file

    The file is kept as the rows handed to the underlying [csv.writer], one
    list of cells a row; how a cell is quoted and printed is left to
    [csv]. *)
Abbreviation csv_row := (list (pyval double)).
Abbreviation csv_file := (list (list (pyval double))).

(** [DictWriter._dict_to_list] with [extrasaction="ignore"] and the default
    [restval]. *)
Definition dict_to_list (row : pydict (pyval double)) : csv_row :=
  map (fun key => match dict_find row key with
                  | Some v => v
                  | None => PStr []
                  end) FIELDS.

(** [DictWriter.writeheader] writes the field names themselves. *)
Definition header_row : csv_row := map (fun key => PStr key) FIELDS.

(** *** The world *)

Record request : Type := {
  req_url : pystr;
  req_json : pyval double;
  req_headers : pydict pystr;
  req_timeout : Z
}.

(** What [requests.post] meets: no response at all (a connection error, a
    timeout), or a status line and a body. *)
Inductive http_outcome : Type :=
| NoResponse
| Response (status : Z) (body : pystr).

Record env : Type := {
  http : request -> http_outcome;
  can_open : bool
}.

(** [ESleep] carries milliseconds. *)
Inductive event : Type :=
| EPost (r : request)
| ESleep (ms : Z).

Record world : Type := {
  trace : list event;
  file : option csv_file
}.

(** Computations: the world is threaded through and survives an
    exception. *)
Definition M (A : Type) : Type := world -> result A * world.

Definition ret {A} (a : A) : M A := fun w => (Ok a, w).

Definition raise {A} (e : exn) : M A := fun w => (Raise e, w).

Definition bind {A B} (m : M A) (k : A -> M B) : M B :=
  fun w =>
    match m w with
    | (Ok a, w') => k a w'
    | (Raise e, w') => (Raise e, w')
    end.

Definition lift {A} (r : result A) : M A := fun w => (r, w).

(** [try: body except Exception as e: handler]. *)
Definition try_except {A} (body : M A) (handler : exn -> M A) : M A :=
  fun w =>
    match body w with
    | (Ok a, w') => (Ok a, w')
    | (Raise e, w') => handler e w'
    end.

Definition emit (e : event) : M unit :=
  fun w => (Ok tt, {| trace := trace w ++ [e]; file := file w |}).

Definition sleep (ms : Z) : M unit := emit (ESleep ms).

(** A [for] loop over [items] that carries the loop's variable [acc]. *)
Fixpoint for_each {A S} (items : list A) (body : A -> S -> M S) (acc : S)
  : M S :=
  match items with
  | [] => ret acc
  | x :: rest => bind (body x acc) (for_each rest body)
  end.

Notation "x <- m ;; k" := (bind m (fun x => k))
  (at level 61, m at next level, right associativity).
Notation "m ;; k" := (bind m (fun _ => k))
  (at level 61, right associativity).

Variable E : env.

Definition payload (page_num : Z) : pyval double :=
  PDict
    [ (py "engine_key", PStr ENGINE_KEY);
      (py "per_page", PInt PER_PAGE);
      (py "page", PInt page_num);
      (py "sort_direction", PDict [(py "page", PStr (py "availabilityRank"))]);
      (py "sort_field", PDict [(py "page", PStr (py "availabilityRank"))]);
      (py "q", PStr []);
      (py "filters",
       PDict [(py "page",
               PDict [(py "type",
                       PDict [(py "type", PStr (py "and"));
                              (py "values", PList [PStr (py "Consultant")])])])]) ].

Definition headers : pydict pystr :=
  [ (py "Content-Type", py "application/json");
    (py "User-Agent", py "Mozilla/5.0 (compatible; research-scraper/1.0)") ].

Definition fetch_request (page_num : Z) : request :=
  {| req_url := SWIFTYPE_URL;
     req_json := payload page_num;
     req_headers := headers;
     req_timeout := 30 |}.

(** What [fetch_page(page_num)] returns or raises once its request is
    answered: [raise_for_status] refuses the statuses 400..599, and
    [resp.json()] decodes the body. *)
Definition fetch_outcome (page_num : Z) : result (pyval double) :=
  match http E (fetch_request page_num) with
  | NoResponse => Raise ConnectionError
  | Response status body =>
      if (400 <=? status) && (status <? 600) then Raise (HTTPError status)
      else json_loads body
  end.

Definition fetch_page (page_num : Z) : M (pyval double) :=
  emit (EPost (fetch_request page_num)) ;;
  lift (fetch_outcome page_num).

(** [data[k1][k2]] and [data[k1][k2][k3]]. *)
Definition subscript2 (v : pyval double) (k1 k2 : pystr) : result (pyval double) :=
  rbind (subscript v k1) (fun x => subscript x k2).

Definition subscript3 (v : pyval double) (k1 k2 k3 : pystr)
  : result (pyval double) :=
  rbind (subscript2 v k1 k2) (fun x => subscript x k3).

(** The body of the loop over [range(2, num_pages + 1)].  Nothing after
    [extend] can raise inside the [try], so the list the handler sees is the
    one the iteration started with. *)
Definition accumulate_page (page_num : Z) (all_records : pyval double)
  : M (pyval double) :=
  sleep 400 ;;
  try_except
    (data <- fetch_page page_num ;;
     records <- lift (subscript2 data (py "records") (py "page")) ;;
     lift (list_extend all_records records))
    (fun _ => sleep 2000 ;; ret all_records).

(** The file is opened with [encoding="utf-8"], whose encoder refuses a
    surrogate.  Only a string cell can hold one: every other cell of a
    flattened row is written through [str()], in ASCII. *)
Definition cell_encodable (v : pyval double) : bool :=
  match v with
  | PStr s => forallb (fun c => negb (is_surrogate c)) s
  | _ => true
  end.

(** [writer.writerow(row)]: the row reaches the file whole or not at all. *)
Definition write_row (row : csv_row) : M unit :=
  fun w =>
    match file w with
    | Some rows =>
        if forallb cell_encodable row then
          (Ok tt, {| trace := trace w; file := Some (rows ++ [row]) |})
        else (Raise UnicodeEncodeError, w)
    | None => (Raise ValueError, w)
    end.

(** [open(output_file, "w", ...)]: the file is created or emptied. *)
Definition open_output : M unit :=
  fun w =>
    if can_open E then (Ok tt, {| trace := trace w; file := Some [] |})
    else (Raise OSError, w).

Definition write_csv (all_records : pyval double) : M unit :=
  open_output ;;
  write_row header_row ;;
  recs <- lift (py_iter all_records) ;;
  for_each recs
    (fun rec _ =>
       row <- lift (flat_row rec) ;;
       write_row (dict_to_list row)) tt.

(** [main()], lines 63 to 87: the first page, then the loop over the
    others. *)
Definition accumulate : M (pyval double) :=
  first_page <- fetch_page 1 ;;
  total <- lift (subscript3 first_page (py "info") (py "page")
                   (py "total_result_count")) ;;
  num_pages <- lift (subscript3 first_page (py "info") (py "page")
                       (py "num_pages")) ;;
  all_records <- lift (subscript2 first_page (py "records") (py "page")) ;;
  _ <- lift (py_len all_records) ;;
  last <- lift (as_int num_pages) ;;
  for_each (py_range 2 (last + 1)) accumulate_page all_records.

(** [main()]. *)
Definition main : M unit :=
  all_records <- accumulate ;;
  write_csv all_records.

(** A run starts with nothing done yet; [fs] is what the output path holds
    beforehand ([None]: no such file). *)
Definition start (fs : option csv_file) : world :=
  {| trace := []; file := fs |}.

Definition run (fs : option csv_file) : result unit * world := main (start fs).

(** The page numbers of the requests made, in order. *)
Definition request_page (r : request) : option Z :=
  match req_json r with
  | PDict d =>
      match dict_find d (py "page") with
      | Some (PInt n) => Some n
      | _ => None
      end
  | _ => None
  end.

Fixpoint fetched_pages (t : list event) : list Z :=
  match t with
  | [] => []
  | EPost r :: t' =>
      match request_page r with
      | Some n => n :: fetched_pages t'
      | None => fetched_pages t'
      end
  | ESleep _ :: t' => fetched_pages t'
  end.

End Scraper.

Abbreviation csv_row double := (list (pyval double)).
Abbreviation csv_file double := (list (list (pyval double))).

Arguments payload {double} page_num.
Arguments fetch_request {double} page_num.
Arguments EPost {double} r.
Arguments ESleep {double} ms.

(** * Properties *)

(** ** The flattener *)

Section FlattenFacts.
Variable double : Type.
Context {FT : FloatText double}.

Lemma mapM_total A B (f : A -> result B) (l : list A) :
  Forall (fun x => exists y, f x = Ok y) l -> exists ys, mapM f l = Ok ys.
Proof.
  induction 1 as [|x l [y Hy] _ [ys Hys]]; simpl.
  - now exists [].
  - rewrite Hy, Hys. now exists (y :: ys).
Qed.

Definition encode_item (allow_nan : bool) (kv : pystr * pyval double)
  : result pystr :=
  match encode allow_nan (snd kv) with
  | Ok s => Ok (encode_basestring_ascii (fst kv) ++ py ": " ++ s)
  | Raise e => Raise e
  end.

Lemma encode_list allow_nan (l : list (pyval double)) :
  encode allow_nan (PList l)
  = match mapM (encode allow_nan) l with
    | Ok items => Ok (ord "[" :: join (py ", ") items ++ [ord "]"])
    | Raise e => Raise e
    end.
Proof. reflexivity. Qed.

Lemma encode_dict allow_nan (d : list (pystr * pyval double)) :
  encode allow_nan (PDict d)
  = match mapM (encode_item allow_nan) d with
    | Ok items => Ok (ord "{" :: join (py ", ") items ++ [ord "}"])
    | Raise e => Raise e
    end.
Proof. reflexivity. Qed.

(** With [allow_nan=True] the encoder has no failing branch left. *)
Lemma encode_total (v : pyval double) : exists s, encode true v = Ok s.
Proof.
  induction v as [| [] | z | [| [] | d] | s | l IH | d IH] using pyval_ind;
    try (simpl; eexists; reflexivity).
  - rewrite encode_list.
    destruct (mapM_total (encode true) IH) as [items ->]. eexists; reflexivity.
  - rewrite encode_dict.
    destruct (mapM_total (encode_item true) (l := d)) as [items ->].
    + eapply Forall_impl; [|exact IH]. unfold encode_item.
      intros kv [s ->]. eexists; reflexivity.
    + eexists; reflexivity.
Qed.

Lemma json_dumps_total (v : pyval double) : exists s, json_dumps v = Ok s.
Proof. apply encode_total. Qed.

Lemma flatten_value_total (v : pyval double) : exists x, flatten_value v = Ok x.
Proof.
  destruct v; simpl; try (eexists; reflexivity).
  - destruct (json_dumps_total (PList l)) as [s ->]. eexists; reflexivity.
  - destruct (json_dumps_total (PDict d)) as [s ->]. eexists; reflexivity.
Qed.

(** The values [flatten_value] hands to [json.dumps]. *)
Definition is_container (v : pyval double) : bool :=
  match v with
  | PList _ | PDict _ => true
  | _ => false
  end.

(** What [flatten_value] returns is a scalar that is not [None]. *)
Definition is_flat (x : pyval double) : bool :=
  match x with
  | PNone | PList _ | PDict _ => false
  | _ => true
  end.

Lemma flatten_value_flat (v x : pyval double) :
  flatten_value v = Ok x -> is_flat x = true.
Proof.
  destruct v; simpl; try (intros [= <-]; reflexivity).
  - destruct (json_dumps (PList l)); intros [= <-]; reflexivity.
  - destruct (json_dumps (PDict d)); intros [= <-]; reflexivity.
Qed.

Lemma flatten_value_fixed (x : pyval double) :
  is_flat x = true -> flatten_value x = Ok x.
Proof. destruct x; simpl; congruence. Qed.

(** The total function behind [flatten_value]. *)
Definition flattened (v : pyval double) : pyval double :=
  match flatten_value v with
  | Ok x => x
  | Raise _ => PStr []
  end.

Lemma flatten_value_flattened (v : pyval double) :
  flatten_value v = Ok (flattened v).
Proof.
  unfold flattened. destruct (flatten_value_total v) as [x ->]. reflexivity.
Qed.

(** The comprehension over a list of distinct field names. *)
Lemma row_comprehension_dict d fields row :
  NoDup (dict_keys row ++ fields) ->
  row_comprehension (PDict d) fields row
  = Ok (row ++ map (fun f => (f, flattened (dict_get d f))) fields).
Proof.
  revert row. induction fields as [|f fs IH]; intros row Hnd; simpl.
  - now rewrite app_nil_r.
  - rewrite flatten_value_flattened.
    assert (Hf : ~ In f (dict_keys row)).
    { apply NoDup_remove_2 in Hnd. intro Hin. apply Hnd.
      apply in_or_app. now left. }
    rewrite dict_set_fresh by exact Hf. rewrite IH.
    + now rewrite <- app_assoc.
    + unfold dict_keys in *. rewrite map_app. simpl.
      rewrite <- app_assoc. exact Hnd.
Qed.

Lemma FIELDS_NoDup : NoDup FIELDS.
Proof. apply distinct_NoDup. vm_compute. reflexivity. Qed.

Lemma flat_row_dict d :
  flat_row (PDict d)
  = Ok (map (fun f => (f, flattened (dict_get d f))) FIELDS).
Proof.
  unfold flat_row. rewrite row_comprehension_dict; [reflexivity|].
  simpl dict_keys. apply FIELDS_NoDup.
Qed.

Lemma dict_find_map_fields (g : pystr -> pyval double) fields k :
  dict_find (map (fun f => (f, g f)) fields) k
  = if existsb (pystr_eqb k) fields then Some (g k) else None.
Proof.
  induction fields as [|f fs IH]; simpl; [reflexivity|].
  destruct (pystr_eqb k f) eqn:E; simpl.
  - apply pystr_eqb_eq in E. now subst.
  - exact IH.
Qed.

(** Removing a key: [del d[k]] when the key is there. *)
Fixpoint dict_del (d : pydict (pyval double)) (k : pystr)
  : pydict (pyval double) :=
  match d with
  | [] => []
  | (k', v) :: d' =>
      if pystr_eqb k k' then dict_del d' k else (k', v) :: dict_del d' k
  end.

Lemma dict_find_set_same (d : pydict (pyval double)) k v :
  dict_find (dict_set d k v) k = Some v.
Proof.
  induction d as [|[k' v'] d IH]; simpl.
  - now rewrite pystr_eqb_refl.
  - destruct (pystr_eqb k k') eqn:E; simpl; rewrite E; [reflexivity|exact IH].
Qed.

Lemma dict_find_set_other (d : pydict (pyval double)) k k' v :
  k' <> k -> dict_find (dict_set d k v) k' = dict_find d k'.
Proof.
  intros Hne. induction d as [|[k0 v0] d IH]; simpl.
  - apply pystr_eqb_neq in Hne. now rewrite Hne.
  - destruct (pystr_eqb k k0) eqn:E; simpl.
    + apply pystr_eqb_eq in E. subst k0.
      apply pystr_eqb_neq in Hne. now rewrite Hne.
    + now rewrite IH.
Qed.

Lemma dict_find_del_same (d : pydict (pyval double)) k :
  dict_find (dict_del d k) k = None.
Proof.
  induction d as [|[k' v'] d IH]; simpl; [reflexivity|].
  destruct (pystr_eqb k k') eqn:E; simpl; [exact IH|].
  now rewrite E.
Qed.

Lemma dict_find_del_other (d : pydict (pyval double)) k k' :
  k' <> k -> dict_find (dict_del d k) k' = dict_find d k'.
Proof.
  intros Hne. induction d as [|[k0 v0] d IH]; simpl; [reflexivity|].
  destruct (pystr_eqb k k0) eqn:E; simpl.
  - apply pystr_eqb_eq in E. subst k0.
    apply pystr_eqb_neq in Hne. now rewrite Hne.
  - now rewrite IH.
Qed.

End FlattenFacts.

(** ** The accumulator and the writer *)

Section ScraperFacts.
Variable double : Type.
Context {FT : FloatText double}.
Variable E : env double.

(** What one round of the loop does to [all_records] when nothing fails. *)
Definition page_step (page_num : Z) (all_records : pyval double)
  : result (pyval double) :=
  rbind (fetch_outcome E page_num) (fun data =>
  rbind (subscript2 data (py "records") (py "page")) (fun records =>
  list_extend all_records records)).

Definition after_page (all_records : pyval double) (page_num : Z)
  : pyval double :=
  match page_step page_num all_records with
  | Ok a => a
  | Raise _ => all_records
  end.

Definition page_events (all_records : pyval double) (page_num : Z)
  : list (event double) :=
  [ESleep 400; EPost (fetch_request page_num)]
  ++ match page_step page_num all_records with
     | Ok _ => []
     | Raise _ => [ESleep 2000]
     end.

Fixpoint loop_events (pages : list Z) (all_records : pyval double)
  : list (event double) :=
  match pages with
  | [] => []
  | p :: rest =>
      page_events all_records p ++ loop_events rest (after_page all_records p)
  end.

(** The records page [page_num] adds to the list: those of its response,
    none when the fetch or the response fails. *)
Definition page_records (page_num : Z) : list (pyval double) :=
  match rbind (fetch_outcome E page_num) (fun data =>
        rbind (subscript2 data (py "records") (py "page")) (@py_iter double)) with
  | Ok items => items
  | Raise _ => []
  end.

Lemma fetch_page_run page_num w :
  fetch_page E page_num w
  = (fetch_outcome E page_num,
     {| trace := trace w ++ [EPost (fetch_request page_num)]; file := file w |}).
Proof. reflexivity. Qed.

Lemma accumulate_page_run page_num all_records w :
  accumulate_page E page_num all_records w
  = (Ok (after_page all_records page_num),
     {| trace := trace w ++ page_events all_records page_num;
        file := file w |}).
Proof.
  unfold accumulate_page, after_page, page_events, page_step, bind, sleep,
    emit, try_except, lift, ret. simpl.
  destruct (fetch_outcome E page_num) as [data|e]; simpl.
  - destruct (subscript2 data (py "records") (py "page")) as [records|e]; simpl.
    + destruct (list_extend all_records records); simpl;
        rewrite <- ?app_assoc; reflexivity.
    + rewrite <- !app_assoc. reflexivity.
  - rewrite <- !app_assoc. reflexivity.
Qed.

Lemma loop_run pages : forall all_records w,
  for_each pages (accumulate_page E) all_records w
  = (Ok (fold_left after_page pages all_records),
     {| trace := trace w ++ loop_events pages all_records; file := file w |}).
Proof.
  induction pages as [|p rest IH]; intros all_records w; simpl.
  - unfold ret. rewrite app_nil_r. now destruct w.
  - unfold bind. rewrite accumulate_page_run, IH. simpl.
    now rewrite <- app_assoc.
Qed.

Lemma fetched_pages_app (t1 t2 : list (event double)) :
  fetched_pages (t1 ++ t2) = fetched_pages t1 ++ fetched_pages t2.
Proof.
  induction t1 as [|[r|ms] t1 IH]; simpl; [reflexivity| |exact IH].
  destruct (request_page r); simpl; now rewrite IH.
Qed.

Lemma request_page_fetch page_num :
  request_page (fetch_request (double := double) page_num) = Some page_num.
Proof. reflexivity. Qed.

Lemma fetched_pages_page_events all_records p :
  fetched_pages (page_events all_records p) = [p].
Proof.
  unfold page_events. rewrite fetched_pages_app.
  destruct (page_step p all_records); reflexivity.
Qed.

Lemma fetched_pages_loop pages : forall all_records,
  fetched_pages (loop_events pages all_records) = pages.
Proof.
  induction pages as [|p rest IH]; intros all_records; [reflexivity|].
  cbn [loop_events].
  now rewrite fetched_pages_app, fetched_pages_page_events, IH.
Qed.

(** On a list the loop appends the records of each page in turn. *)
Lemma after_page_list l p :
  after_page (PList l) p = PList (l ++ page_records p).
Proof.
  unfold after_page, page_step, page_records.
  destruct (fetch_outcome E p) as [data|e]; simpl;
    [|now rewrite app_nil_r].
  destruct (subscript2 data (py "records") (py "page")) as [records|e]; simpl;
    [|now rewrite app_nil_r].
  destruct (py_iter records); simpl; [reflexivity|now rewrite app_nil_r].
Qed.

Lemma fold_after_page_list pages : forall l,
  fold_left after_page pages (PList l)
  = PList (l ++ List.concat (map page_records pages)).
Proof.
  induction pages as [|p rest IH]; intros l; simpl.
  - now rewrite app_nil_r.
  - rewrite after_page_list, IH. now rewrite <- app_assoc.
Qed.


Lemma page_records_fetched p data items :
  fetch_outcome E p = Ok data ->
  subscript2 data (py "records") (py "page") = Ok (PList items) ->
  page_records p = items.
Proof.
  unfold page_records. intros H1 H2. rewrite H1. cbn [rbind]. now rewrite H2.
Qed.

(** *** [range] *)

Lemma py_range_empty lo hi : hi <= lo -> py_range lo hi = [].
Proof.
  intros H. unfold py_range. replace (Z.to_nat (hi - lo)) with 0%nat by lia.
  reflexivity.
Qed.

Lemma py_range_cons lo hi : lo < hi -> py_range lo hi = lo :: py_range (lo + 1) hi.
Proof.
  intros H. unfold py_range.
  replace (Z.to_nat (hi - lo)) with (S (Z.to_nat (hi - (lo + 1)))) by lia.
  cbn [seq map]. f_equal; [lia|].
  rewrite <- seq_shift, map_map. apply map_ext. intros i. lia.
Qed.


Lemma py_range_NoDup lo hi : NoDup (py_range lo hi).
Proof.
  unfold py_range. apply Injective_map_NoDup; [|apply seq_NoDup].
  intros i j H. lia.
Qed.

Lemma py_range_length lo hi : List.length (py_range lo hi) = Z.to_nat (hi - lo).
Proof. unfold py_range. now rewrite length_map, length_seq. Qed.

(** *** The first page and the loop *)

(** A response shaped as the program reads it: the two counters under
    [info.page] and a list under [records.page]. *)
Definition search_response (data total : pyval double) (num_pages : Z)
  (records : list (pyval double)) : Prop :=
  subscript3 data (py "info") (py "page") (py "total_result_count") = Ok total
  /\ subscript3 data (py "info") (py "page") (py "num_pages") = Ok (PInt num_pages)
  /\ subscript2 data (py "records") (py "page") = Ok (PList records).

Lemma accumulate_first_failed e w :
  fetch_outcome E 1 = Raise e ->
  accumulate E w
  = (Raise e, {| trace := trace w ++ [EPost (fetch_request 1)]; file := file w |}).
Proof.
  intros H. unfold accumulate, bind. rewrite fetch_page_run, H. reflexivity.
Qed.

Lemma accumulate_run first_page total n records w :
  fetch_outcome E 1 = Ok first_page ->
  search_response first_page total n records ->
  accumulate E w
  = (Ok (PList (records ++ List.concat (map page_records (py_range 2 (n + 1))))),
     {| trace := trace w ++ EPost (fetch_request 1)
                   :: loop_events (py_range 2 (n + 1)) (PList records);
        file := file w |}).
Proof.
  intros Hf (Ht & Hn & Hr). unfold accumulate, bind at 1.
  rewrite fetch_page_run, Hf.
  unfold bind, lift. rewrite Ht, Hn, Hr. cbn [py_len as_int].
  rewrite loop_run, fold_after_page_list. cbn [trace file].
  now rewrite <- app_assoc.
Qed.

(** *** The writer *)

(** The cells written for a record. *)
Definition csv_of_record (rec : pyval double) : csv_row double :=
  match flat_row rec with
  | Ok row => dict_to_list row
  | Raise _ => []
  end.

Definition is_dict (v : pyval double) : bool :=
  match v with
  | PDict _ => true
  | _ => false
  end.

Definition write_record (rec : pyval double) (_ : unit) : M double unit :=
  bind (lift (flat_row rec)) (fun row => write_row (dict_to_list row)).

Lemma for_each_cons A S (x : A) rest (body : A -> S -> M double S) acc w :
  for_each (x :: rest) body acc w
  = match body x acc w with
    | (Ok a, w') => for_each rest body a w'
    | (Raise e, w') => (Raise e, w')
    end.
Proof. reflexivity. Qed.

Lemma write_record_run rec rows t :
  write_record rec tt {| trace := t; file := Some rows |}
  = match flat_row rec with
    | Ok row =>
        if forallb (@cell_encodable double) (dict_to_list row) then
          (Ok tt, {| trace := t; file := Some (rows ++ [dict_to_list row]) |})
        else (Raise UnicodeEncodeError, {| trace := t; file := Some rows |})
    | Raise e => (Raise e, {| trace := t; file := Some rows |})
    end.
Proof.
  unfold write_record, bind, lift, write_row.
  destruct (flat_row rec) as [row|e]; [|reflexivity]. cbn [file trace].
  destruct (forallb (@cell_encodable double) (dict_to_list row)); reflexivity.
Qed.

(** A record the writer takes: a mapping whose cells can be encoded. *)
Definition writable (rec : pyval double) : bool :=
  is_dict rec && forallb (@cell_encodable double) (csv_of_record rec).

Lemma write_rows_run recs : forall rows t,
  forallb writable recs = true ->
  for_each recs write_record tt {| trace := t; file := Some rows |}
  = (Ok tt, {| trace := t; file := Some (rows ++ map csv_of_record recs) |}).
Proof.
  induction recs as [|rec recs IH]; intros rows t Hd.
  - cbn. now rewrite app_nil_r.
  - cbn [forallb] in Hd. apply andb_true_iff in Hd as [Hrec Hrecs].
    unfold writable in Hrec. apply andb_true_iff in Hrec as [Hdict Henc].
    destruct rec; try discriminate.
    unfold csv_of_record in Henc. rewrite (flat_row_dict d) in Henc.
    rewrite for_each_cons, write_record_run, (flat_row_dict d), Henc.
    rewrite IH by exact Hrecs.
    cbn [map]. unfold csv_of_record at 2. rewrite (flat_row_dict d).
    now rewrite <- app_assoc.
Qed.

(** Whatever the records are, rows are only ever appended, one a record at
    most. *)
Lemma write_rows_any recs : forall rows t,
  exists r more,
    for_each recs write_record tt {| trace := t; file := Some rows |}
    = (r, {| trace := t; file := Some (rows ++ more) |})
    /\ (List.length more <= List.length recs)%nat.
Proof.
  induction recs as [|rec recs IH]; intros rows t.
  - exists (Ok tt), []. cbn. rewrite app_nil_r. split; [reflexivity|lia].
  - rewrite for_each_cons, write_record_run.
    destruct (flat_row rec) as [row|e].
    + destruct (forallb (@cell_encodable double) (dict_to_list row)).
      * destruct (IH (rows ++ [dict_to_list row]) t)
          as (r & more & Hrun & Hlen).
        exists r, (dict_to_list row :: more). cbv beta iota. rewrite Hrun.
        split; [now rewrite <- app_assoc|cbn [List.length]; lia].
      * exists (Raise UnicodeEncodeError), []. rewrite app_nil_r.
        split; [reflexivity|cbn [List.length]; lia].
    + exists (Raise e), []. rewrite app_nil_r. split; [reflexivity|].
      cbn [List.length]. lia.
Qed.

Lemma write_csv_open all_records w :
  can_open E = true ->
  write_csv E all_records w
  = match py_iter all_records with
    | Ok recs =>
        for_each recs write_record tt
          {| trace := trace w; file := Some [header_row double] |}
    | Raise e =>
        (Raise e, {| trace := trace w; file := Some [header_row double] |})
    end.
Proof.
  intros Hopen. unfold write_csv, bind, open_output, write_row, lift.
  rewrite Hopen. cbn [file trace app].
  change (forallb (@cell_encodable double) (header_row double)) with true.
  cbv iota. destruct (py_iter all_records); reflexivity.
Qed.

Lemma write_csv_run recs w :
  can_open E = true ->
  forallb writable recs = true ->
  write_csv E (PList recs) w
  = (Ok tt, {| trace := trace w;
               file := Some (header_row double :: map csv_of_record recs) |}).
Proof.
  intros Hopen Hd. rewrite write_csv_open by exact Hopen. cbn [py_iter].
  now rewrite write_rows_run by exact Hd.
Qed.

Lemma write_csv_closed all_records w :
  can_open E = false ->
  write_csv E all_records w = (Raise OSError, w).
Proof.
  intros Hopen. unfold write_csv, bind, open_output. now rewrite Hopen.
Qed.

(** *** Whole runs *)

Lemma write_record_trace rec (w : world double) :
  trace (snd (write_record rec tt w)) = trace w.
Proof.
  unfold write_record, bind, lift, write_row.
  destruct (flat_row rec) as [row|e]; [|reflexivity].
  destruct (file w); [|reflexivity].
  destruct (forallb (@cell_encodable double) (dict_to_list row)); reflexivity.
Qed.

Lemma write_rows_trace recs : forall w : world double,
  trace (snd (for_each recs write_record tt w)) = trace w.
Proof.
  induction recs as [|rec recs IH]; intros w; [reflexivity|].
  rewrite for_each_cons. pose proof (write_record_trace rec w) as Ht.
  destruct (write_record rec tt w) as [[[]|e] w']; cbn [snd] in *.
  - now rewrite IH.
  - exact Ht.
Qed.

Lemma write_csv_trace all_records w :
  trace (snd (write_csv E all_records w)) = trace w.
Proof.
  destruct (can_open E) eqn:Hopen.
  - rewrite write_csv_open by exact Hopen.
    destruct (py_iter all_records) as [recs|e]; [|reflexivity].
    now rewrite write_rows_trace.
  - now rewrite write_csv_closed.
Qed.

(** The accumulator leaves the file alone. *)
Lemma accumulate_page_file p acc w :
  file (snd (accumulate_page E p acc w)) = file w.
Proof. now rewrite accumulate_page_run. Qed.

Lemma accumulate_file w :
  file (snd (accumulate E w)) = file w.
Proof.
  unfold accumulate, bind at 1. rewrite fetch_page_run.
  destruct (fetch_outcome E 1) as [first_page|e]; [|reflexivity].
  unfold bind, lift.
  repeat match goal with
         | |- context [match ?r with Ok _ => _ | Raise _ => _ end] =>
             destruct r; [|reflexivity]
         | |- context [let (_, _) := (?r, _) in _] =>
             destruct r; [|reflexivity]
         end.
  now rewrite loop_run.
Qed.

(** The writer either cannot open the file, or leaves the header and one
    row for each record it got through. *)
Lemma write_csv_file all_records w :
  (can_open E = false /\ file (snd (write_csv E all_records w)) = file w)
  \/ (can_open E = true /\
      exists more, file (snd (write_csv E all_records w))
                   = Some (header_row double :: more)
                   /\ forall recs, all_records = PList recs ->
                                   (List.length more <= List.length recs)%nat).
Proof.
  destruct (can_open E) eqn:Hopen; [right|left].
  - split; [reflexivity|]. rewrite write_csv_open by exact Hopen.
    destruct (py_iter all_records) as [recs|e] eqn:Hiter.
    + destruct (write_rows_any recs [header_row double] (trace w))
        as (r & more & Hrun & Hlen).
      rewrite Hrun. exists more.
      split; [reflexivity|]. intros recs' ->. cbn in Hiter. congruence.
    + exists []. split; [reflexivity|]. intros recs ->. discriminate.
  - split; [reflexivity|]. now rewrite write_csv_closed.
Qed.

Lemma run_eq fs :
  run E fs
  = match accumulate E (start fs) with
    | (Ok all_records, w) => write_csv E all_records w
    | (Raise e, w) => (Raise e, w)
    end.
Proof. reflexivity. Qed.

Lemma run_trace fs :
  trace (snd (run E fs)) = trace (snd (accumulate E (start fs))).
Proof.
  rewrite run_eq. destruct (accumulate E (start fs)) as [[all_records|e] w];
    [|reflexivity].
  now rewrite write_csv_trace.
Qed.

End ScraperFacts.

(** ** Reading back what [json.dumps] wrote *)

Section TextFacts.
#[local] Open Scope N_scope.

(** *** Escapes *)

Lemma lor_shiftl_add x y n :
  y < 2 ^ n -> N.lor (N.shiftl x n) y = x * 2 ^ n + y.
Proof.
  intros Hy. rewrite N.shiftl_mul_pow2.
  assert (Hdisj : N.land (x * 2 ^ n) y = 0).
  { apply N.bits_inj_0. intros m. rewrite N.land_spec.
    destruct (N.lt_ge_cases m n) as [Hm|Hm].
    - now rewrite N.mul_pow2_bits_low.
    - rewrite <- (N.mod_small y (2 ^ n)) by exact Hy.
      rewrite N.mod_pow2_bits_high by exact Hm. apply andb_false_r. }
  now rewrite <- N.lxor_lor, <- N.add_nocarry_lxor.
Qed.

Lemma land_15 x : N.land x 15 = x mod 16.
Proof. change 15 with (N.ones 4). now rewrite N.land_ones. Qed.

Lemma land_1023 x : N.land x 1023 = x mod 1024.
Proof. change 1023 with (N.ones 10). now rewrite N.land_ones. Qed.

Lemma hex_val_digit d : d < 16 -> hex_val (hex_digit d) = Some d.
Proof.
  intros Hd.
  assert (H : d = 0 \/ d = 1 \/ d = 2 \/ d = 3 \/ d = 4 \/ d = 5 \/ d = 6
              \/ d = 7 \/ d = 8 \/ d = 9 \/ d = 10 \/ d = 11 \/ d = 12
              \/ d = 13 \/ d = 14 \/ d = 15) by lia.
  repeat (destruct H as [->|H]; [reflexivity|]). now subst.
Qed.

Lemma decode_hex4 n tail :
  n < 65536 -> decode_uXXXX (hex4 n ++ tail) = Some (n, tail).
Proof.
  intros Hn. unfold hex4, decode_uXXXX. cbn [app].
  rewrite !land_15, !N.shiftr_div_pow2.
  change (2 ^ 12) with 4096. change (2 ^ 8) with 256. change (2 ^ 4) with 16.
  rewrite !hex_val_digit by (apply N.mod_lt; discriminate).
  rewrite !lor_shiftl_add by (change (2 ^ 4) with 16; apply N.mod_lt; discriminate).
  change (2 ^ 4) with 16. do 2 f_equal.
  zify. Z.to_euclidean_division_equations. lia.
Qed.

(** The two halves of a character beyond the basic plane. *)
Definition high_half (c : N) : N :=
  N.lor 55296 (N.land (N.shiftr (c - 65536) 10) 1023).
Definition low_half (c : N) : N := N.lor 56320 (N.land (c - 65536) 1023).

Lemma high_half_eq c :
  65536 <= c < 1114112 -> high_half c = 55296 + (c - 65536) / 1024.
Proof.
  intros Hc. unfold high_half.
  rewrite land_1023, N.shiftr_div_pow2. change (2 ^ 10) with 1024.
  assert (Hq : (c - 65536) / 1024 < 1024)
    by (apply N.Div0.div_lt_upper_bound; lia).
  rewrite N.mod_small by exact Hq.
  change 55296 with (N.shiftl 54 10).
  rewrite lor_shiftl_add; change (2 ^ 10) with 1024.
  - reflexivity.
  - exact Hq.
Qed.

Lemma low_half_eq c : low_half c = 56320 + (c - 65536) mod 1024.
Proof.
  unfold low_half. rewrite land_1023. change 56320 with (N.shiftl 55 10).
  rewrite lor_shiftl_add; change (2 ^ 10) with 1024.
  - reflexivity.
  - apply N.mod_lt. discriminate.
Qed.

Lemma halves_join c :
  65536 <= c < 1114112 ->
  65536 + N.lor (N.shiftl (high_half c - 55296) 10) (low_half c - 56320) = c.
Proof.
  intros Hc. rewrite high_half_eq, low_half_eq by exact Hc.
  pose proof (N.div_mod (c - 65536) 1024) as Hdm.
  pose proof (N.mod_lt (c - 65536) 1024) as Hr.
  set (q := (c - 65536) / 1024) in *. set (r := (c - 65536) mod 1024) in *.
  replace (55296 + q - 55296) with q by lia.
  replace (56320 + r - 56320) with r by lia.
  rewrite lor_shiftl_add by (change (2 ^ 10) with 1024; lia).
  change (2 ^ 10) with 1024. lia.
Qed.

Lemma high_half_range c :
  65536 <= c < 1114112 -> 55296 <= high_half c <= 56319.
Proof.
  intros Hc. rewrite high_half_eq by exact Hc.
  assert (Hq : (c - 65536) / 1024 < 1024)
    by (apply N.Div0.div_lt_upper_bound; lia).
  set (q := (c - 65536) / 1024) in *. lia.
Qed.

Lemma low_half_range c : 56320 <= low_half c <= 57343.
Proof.
  rewrite low_half_eq. pose proof (N.mod_lt (c - 65536) 1024) as Hr.
  set (r := (c - 65536) mod 1024) in *. lia.
Qed.

(** *** Strings *)

(** Strings as [json.loads] builds them from a text that holds no surrogate
    of its own: code points, where a high surrogate is never followed by a
    low one (an escaped pair is read as one character). *)
Fixpoint is_json_str (s : pystr) : bool :=
  match s with
  | [] => true
  | c :: r =>
      (c <? 1114112)
      && negb (is_high_surrogate c
               && match r with
                  | c' :: _ => is_low_surrogate c'
                  | [] => false
                  end)
      && is_json_str r
  end.

Definition push (c : pychar) (res : option (pystr * pystr))
  : option (pystr * pystr) :=
  match res with
  | Some (str, rest) => Some (c :: str, rest)
  | None => None
  end.

(** What follows the escape of a lone high surrogate is not the escape of a
    low one. *)
Definition follow_ok (r : pystr) : Prop :=
  match r with
  | b :: u :: r3 =>
      (b =? BACKSLASH) && (u =? ord "u") = true ->
      exists uni2 r4,
        decode_uXXXX r3 = Some (uni2, r4) /\ is_low_surrogate uni2 = false
  | _ => True
  end.

Lemma scan_plain c r fuel :
  32 <= c -> c <> QUOTE -> c <> BACKSLASH ->
  scanstring_fuel (S fuel) (c :: r) = push c (scanstring_fuel fuel r).
Proof.
  intros H32 Hq Hb. cbn [scanstring_fuel].
  apply N.eqb_neq in Hq, Hb. rewrite Hq, Hb.
  destruct (N.ltb_spec c 32); [lia|]. reflexivity.
Qed.

Lemma scan_simple esc ch r fuel :
  esc <> ord "u" -> unescape esc = Some ch ->
  scanstring_fuel (S fuel) (BACKSLASH :: esc :: r)
  = push ch (scanstring_fuel fuel r).
Proof.
  intros Hu He. cbn [scanstring_fuel].
  change (BACKSLASH =? QUOTE) with false.
  change (BACKSLASH =? BACKSLASH) with true. cbv iota.
  apply N.eqb_neq in Hu. rewrite Hu, He. reflexivity.
Qed.

Lemma scan_u n r fuel :
  n < 65536 -> (is_high_surrogate n = true -> follow_ok r) ->
  scanstring_fuel (S fuel) (u_escape n ++ r)
  = push n (scanstring_fuel fuel r).
Proof.
  intros Hn Hfollow. unfold u_escape. cbn [app scanstring_fuel].
  change (BACKSLASH =? QUOTE) with false.
  change (BACKSLASH =? BACKSLASH) with true.
  change (ord "u" =? ord "u") with true. cbv iota.
  rewrite decode_hex4 by exact Hn.
  destruct (is_high_surrogate n) eqn:Hh; [|reflexivity].
  specialize (Hfollow eq_refl).
  destruct r as [|b [|u r3]]; try reflexivity.
  cbn [follow_ok] in Hfollow.
  destruct ((b =? BACKSLASH) && (u =? ord "u")); [|reflexivity].
  destruct (Hfollow eq_refl) as (uni2 & r4 & -> & ->). reflexivity.
Qed.

Lemma scan_pair c r fuel :
  65536 <= c < 1114112 ->
  scanstring_fuel (S fuel) (u_escape (high_half c) ++ u_escape (low_half c) ++ r)
  = push c (scanstring_fuel fuel r).
Proof.
  intros Hc. pose proof (high_half_range Hc) as Hh.
  pose proof (low_half_range c) as Hl.
  unfold u_escape at 1. cbn [app scanstring_fuel].
  change (BACKSLASH =? QUOTE) with false.
  change (BACKSLASH =? BACKSLASH) with true.
  change (ord "u" =? ord "u") with true. cbv iota.
  rewrite decode_hex4 by lia.
  replace (is_high_surrogate (high_half c)) with true
    by (unfold is_high_surrogate; symmetry; apply andb_true_iff;
        split; apply N.leb_le; lia).
  unfold u_escape. cbn [app].
  change (BACKSLASH =? BACKSLASH) with true.
  change (ord "u" =? ord "u") with true. cbn [andb].
  rewrite decode_hex4 by lia.
  replace (is_low_surrogate (low_half c)) with true
    by (unfold is_low_surrogate; symmetry; apply andb_true_iff;
        split; apply N.leb_le; lia).
  now rewrite halves_join.
Qed.

Lemma escape_char_cases c :
  (exists esc, escape_char c = [BACKSLASH; esc] /\ esc <> ord "u"
               /\ unescape esc = Some c)
  \/ (escape_char c = [c] /\ 32 <= c /\ c <> QUOTE /\ c <> BACKSLASH)
  \/ (escape_char c = u_escape c /\ c < 65536)
  \/ (escape_char c = u_escape (high_half c) ++ u_escape (low_half c)
      /\ 65536 <= c).
Proof.
  unfold escape_char.
  destruct (N.eqb_spec c BACKSLASH) as [->|Hb].
  { left. exists BACKSLASH. repeat split. discriminate. }
  destruct (N.eqb_spec c QUOTE) as [->|Hq].
  { left. exists QUOTE. repeat split. discriminate. }
  destruct (N.eqb_spec c 8) as [->|H8].
  { left. exists (ord "b"). repeat split. discriminate. }
  destruct (N.eqb_spec c 12) as [->|H12].
  { left. exists (ord "f"). repeat split. discriminate. }
  destruct (N.eqb_spec c 10) as [->|H10].
  { left. exists (ord "n"). repeat split. discriminate. }
  destruct (N.eqb_spec c 13) as [->|H13].
  { left. exists (ord "r"). repeat split. discriminate. }
  destruct (N.eqb_spec c 9) as [->|H9].
  { left. exists (ord "t"). repeat split. discriminate. }
  destruct ((32 <=? c) && (c <=? 126)) eqn:Hp.
  { right. left. apply andb_true_iff in Hp as [Hlo _].
    apply N.leb_le in Hlo. now repeat split. }
  destruct (N.ltb_spec c 65536) as [Hlt|Hge].
  - right. right. left. now split.
  - right. right. right. now split.
Qed.

Lemma scan_escape_char c r fuel :
  c < 1114112 -> (is_high_surrogate c = true -> follow_ok r) ->
  scanstring_fuel (S fuel) (escape_char c ++ r)
  = push c (scanstring_fuel fuel r).
Proof.
  intros Hc Hfollow.
  destruct (escape_char_cases c)
    as [(esc & -> & Hu & He) | [(-> & H32 & Hq & Hb) | [(-> & Hlt) | (-> & Hge)]]].
  - now apply scan_simple.
  - now apply scan_plain.
  - now apply scan_u.
  - rewrite <- app_assoc. apply scan_pair. lia.
Qed.

Lemma follow_ok_escape c r :
  c < 1114112 -> is_low_surrogate c = false -> follow_ok (escape_char c ++ r).
Proof.
  intros Hc Hlow.
  destruct (escape_char_cases c)
    as [(esc & -> & Hu & He) | [(-> & H32 & Hq & Hb) | [(-> & Hlt) | (-> & Hge)]]].
  - cbn [app follow_ok]. apply N.eqb_neq in Hu. rewrite Hu, andb_false_r.
    discriminate.
  - destruct r as [|u r]; cbn [app follow_ok]; [exact I|].
    apply N.eqb_neq in Hb. rewrite Hb. discriminate.
  - unfold u_escape. cbn [app follow_ok]. intros _. exists c, r.
    split; [now apply decode_hex4|exact Hlow].
  - rewrite <- app_assoc. unfold u_escape at 1. cbn [app follow_ok]. intros _.
    pose proof (high_half_range (conj Hge Hc)) as Hh.
    exists (high_half c), (u_escape (low_half c) ++ r). split.
    + apply decode_hex4. lia.
    + unfold is_low_surrogate. apply andb_false_iff. left.
      apply N.leb_gt. lia.
Qed.

Lemma follow_ok_quote r : follow_ok (QUOTE :: r).
Proof. destruct r; cbn [follow_ok]; [exact I|discriminate]. Qed.

Lemma scanstring_fuel_escaped s : forall rest fuel,
  is_json_str s = true -> (List.length s < fuel)%nat ->
  scanstring_fuel fuel (flat_map escape_char s ++ QUOTE :: rest)
  = Some (s, rest).
Proof.
  induction s as [|c s IH]; intros rest fuel Hs Hfuel.
  - destruct fuel as [|fuel]; [cbn in Hfuel; lia|]. reflexivity.
  - destruct fuel as [|fuel]; [cbn in Hfuel; lia|].
    cbn [is_json_str] in Hs.
    apply andb_true_iff in Hs as [Hs Hrest].
    apply andb_true_iff in Hs as [Hc Hpair].
    apply N.ltb_lt in Hc. apply negb_true_iff in Hpair.
    cbn [flat_map]. rewrite <- app_assoc.
    rewrite scan_escape_char; [|exact Hc|].
    + rewrite IH; [reflexivity|exact Hrest|cbn in Hfuel; lia].
    + intros Hh. rewrite Hh in Hpair. cbn [andb] in Hpair.
      destruct s as [|c' s']; [apply follow_ok_quote|].
      cbn [flat_map]. rewrite <- app_assoc.
      cbn [is_json_str] in Hrest.
      apply andb_true_iff in Hrest as [Hrest _].
      apply andb_true_iff in Hrest as [Hc' _]. apply N.ltb_lt in Hc'.
      now apply follow_ok_escape.
Qed.

Lemma escape_char_length c : (1 <= List.length (escape_char c))%nat.
Proof.
  destruct (escape_char_cases c)
    as [(esc & -> & _) | [(-> & _) | [(-> & _) | (-> & _)]]];
    cbn; lia.
Qed.

Lemma flat_map_escape_length s :
  (List.length s <= List.length (flat_map escape_char s))%nat.
Proof.
  induction s as [|c s IH]; [cbn; lia|].
  cbn [flat_map]. rewrite length_app. pose proof (escape_char_length c).
  cbn [List.length]. lia.
Qed.

(** The body of a string literal and its closing quote read back as the
    string. *)
Lemma scanstring_escaped s rest :
  is_json_str s = true ->
  scanstring (flat_map escape_char s ++ QUOTE :: rest) = Some (s, rest).
Proof.
  intros Hs. unfold scanstring. apply scanstring_fuel_escaped; [exact Hs|].
  rewrite length_app. pose proof (flat_map_escape_length s).
  cbn [List.length]. lia.
Qed.

(** *** Numbers *)

Definition no_digit_head (s : pystr) : bool :=
  match s with
  | c :: _ => negb (is_digit c)
  | [] => true
  end.

(** What [json.dumps] puts after a value: nothing, a comma or a closing
    bracket. *)
Definition delimited (s : pystr) : bool :=
  match s with
  | c :: _ => (c =? ord ",") || (c =? ord "]") || (c =? ord "}")
  | [] => true
  end.

Lemma delimited_cases s :
  delimited s = true ->
  s = [] \/ exists c r, s = c :: r /\ (c = ord "," \/ c = ord "]" \/ c = ord "}").
Proof.
  destruct s as [|c r]; [now left|]. cbn [delimited]. intros H. right.
  exists c, r. split; [reflexivity|].
  apply orb_true_iff in H as [H|H]; [apply orb_true_iff in H as [H|H]|];
    apply N.eqb_eq in H; tauto.
Qed.

Lemma delimited_no_digit s : delimited s = true -> no_digit_head s = true.
Proof.
  intros H. destruct (delimited_cases s H) as [-> | (c & r & -> & [-> | [-> | ->]])];
    reflexivity.
Qed.

Lemma span_digits_app ds rest :
  forallb is_digit ds = true -> no_digit_head rest = true ->
  span_digits (ds ++ rest) = (ds, rest).
Proof.
  intros Hds Hrest. induction ds as [|c ds IH]; cbn [app].
  - destruct rest as [|c r]; [reflexivity|]. cbn [span_digits].
    cbn [no_digit_head] in Hrest. apply negb_true_iff in Hrest.
    now rewrite Hrest.
  - cbn [forallb] in Hds. apply andb_true_iff in Hds as [Hc Hds].
    cbn [span_digits]. rewrite Hc, IH by exact Hds. reflexivity.
Qed.

Lemma uint_chars_digits d : forallb is_digit (uint_chars d) = true.
Proof. induction d; cbn [uint_chars forallb]; try rewrite IHd; reflexivity. Qed.

Lemma uint_of_chars_chars d : uint_of_chars (uint_chars d) = d.
Proof. induction d; cbn [uint_chars uint_of_chars]; try rewrite IHd; reflexivity. Qed.

Lemma uint_chars_nonnil d : d <> Decimal.Nil -> uint_chars d <> [].
Proof. destruct d; cbn; congruence. Qed.

(** The digits of a positive number do not start with a zero. *)
Lemma to_uint_head p :
  exists c r, uint_chars (Pos.to_uint p) = c :: r
              /\ is_digit c = true /\ c <> ord "0"
              /\ forallb is_digit r = true.
Proof.
  pose proof (uint_chars_digits (Pos.to_uint p)) as Hd.
  assert (Hn : Decimal.nzhead (Pos.to_uint p) = Pos.to_uint p).
  { pose proof (DecimalPos.Unsigned.to_of (Pos.to_uint p)) as H.
    rewrite DecimalPos.Unsigned.of_to in H. cbn [N.to_uint] in H.
    pose proof (DecimalPos.Unsigned.to_uint_nonzero p) as Hz.
    unfold Decimal.unorm in H.
    destruct (Decimal.nzhead (Pos.to_uint p)); congruence. }
  destruct (Pos.to_uint p) as [|u|u|u|u|u|u|u|u|u|u] eqn:E;
    try (cbn [uint_chars] in *; eexists _, _; split; [reflexivity|];
         cbn [forallb] in Hd; apply andb_true_iff in Hd as [Hc Hr];
         split; [exact Hc|];
         split; [intro Hx; vm_compute in Hx; discriminate|exact Hr]).
  - now apply DecimalPos.Unsigned.to_uint_nonnil in E.
  - now apply DecimalFacts.nzhead_nonzero in Hn.
Qed.

Lemma int_part_repr z : int_part (int_repr z).
Proof.
  unfold int_part.
  destruct z as [|p|p];
    [exists [], [ord "0"]; repeat split; auto; discriminate| |];
    destruct (to_uint_head p) as (c & r & Hcr & Hc & H0 & Hr);
    [exists [] | exists [ord "-"]]; exists (c :: r);
    unfold int_repr; cbn [Z.to_int app]; rewrite Hcr;
    (split; [reflexivity|]); (split; [tauto|]);
    (split; [|right; exact H0]);
    (split; [discriminate|]); cbn [forallb]; now rewrite Hc, Hr.
Qed.

Lemma is_digit_not_minus c : is_digit c = true -> (c =? ord "-") = false.
Proof.
  unfold is_digit. intros H. apply andb_true_iff in H as [H _].
  apply N.leb_le in H. apply N.eqb_neq. change (ord "-") with 45. lia.
Qed.

(** [int(text)] reads [int.__repr__] back. *)
Lemma int_of_text_repr z : int_of_text (int_repr z) = z.
Proof.
  rewrite <- (DecimalZ.of_to z) at 2. unfold int_repr.
  destruct z as [|p|p]; [reflexivity| |]; cbn [Z.to_int];
    destruct (to_uint_head p) as (c & r & Hcr & Hc & H0 & Hr).
  - unfold int_of_text. rewrite Hcr, (is_digit_not_minus _ Hc).
    now rewrite <- Hcr, uint_of_chars_chars.
  - unfold int_of_text. change (ord "-" =? ord "-") with true. cbv iota.
    now rewrite uint_of_chars_chars.
Qed.

Lemma match_digits sg ds rest :
  digits ds -> (ds = [ord "0"] \/ hd (ord "0") ds <> ord "0") ->
  no_digit_head rest = true ->
  match ds ++ rest with
  | c :: r =>
      if (c =? ord "0") then Some (sg ++ [c], r)
      else if is_digit c then
        let (ds', rest') := span_digits r in Some (sg ++ c :: ds', rest')
      else None
  | [] => None
  end = Some (sg ++ ds, rest).
Proof.
  intros [Hne Hds] Hzero Hrest.
  destruct ds as [|c r]; [congruence|]. cbn [app].
  destruct Hzero as [[= -> ->]|Hc]; [reflexivity|].
  cbn [hd] in Hc. apply N.eqb_neq in Hc. rewrite Hc.
  cbn [forallb] in Hds. apply andb_true_iff in Hds as [Hd Hr].
  rewrite Hd, span_digits_app by assumption. reflexivity.
Qed.

Lemma match_int_part i rest :
  int_part i -> no_digit_head rest = true ->
  match_int (i ++ rest) = Some (i, rest).
Proof.
  intros (sg & ds & -> & Hsg & Hds & Hzero) Hrest. unfold match_int.
  destruct Hsg as [->| ->].
  - cbn [app]. destruct ds as [|c r]; [destruct Hds; congruence|].
    assert (Hm : (c =? ord "-") = false).
    { apply is_digit_not_minus. destruct Hds as [_ Hds].
      cbn [forallb] in Hds. now apply andb_true_iff in Hds as [Hd _]. }
    cbn [app]. rewrite Hm.
    exact (@match_digits [] (c :: r) rest Hds Hzero Hrest).
  - cbn [app]. change (ord "-" =? ord "-") with true. cbv iota.
    exact (@match_digits [ord "-"] ds rest Hds Hzero Hrest).
Qed.

Lemma match_frac_skip rest :
  match rest with c :: _ => c <> ord "." | [] => True end ->
  match_frac rest = ([], rest).
Proof.
  destruct rest as [|c r]; [reflexivity|]. intros Hc. cbn [match_frac].
  apply N.eqb_neq in Hc. now rewrite Hc.
Qed.

Lemma match_frac_part fr rest :
  frac_part fr -> fr <> [] -> no_digit_head rest = true ->
  match_frac (fr ++ rest) = (fr, rest).
Proof.
  intros [->|(ds & -> & Hne & Hds)] Hfr Hrest; [congruence|].
  cbn [app match_frac]. change (ord "." =? ord ".") with true. cbv iota.
  rewrite span_digits_app by assumption.
  destruct ds; [congruence|reflexivity].
Qed.

Lemma match_exp_skip rest :
  match rest with c :: _ => c <> ord "e" /\ c <> ord "E" | [] => True end ->
  match_exp rest = ([], rest).
Proof.
  destruct rest as [|c r]; [reflexivity|]. intros [He HE]. cbn [match_exp].
  apply N.eqb_neq in He, HE. now rewrite He, HE.
Qed.

Lemma match_exp_part ex rest :
  exp_part ex -> ex <> [] -> no_digit_head rest = true ->
  match_exp (ex ++ rest) = (ex, rest).
Proof.
  intros [->|(e & sg & ds & -> & He & Hsg & Hne & Hds)] Hex Hrest;
    [congruence|].
  cbn [app match_exp].
  assert (Htest : (e =? ord "e") || (e =? ord "E") = true)
    by (destruct He as [->| ->]; reflexivity).
  rewrite Htest.
  destruct Hsg as [->|[->| ->]]; cbn [app].
  - destruct ds as [|c r]; [congruence|]. cbn [app].
    assert (Hc : is_digit c = true)
      by (cbn [forallb] in Hds; now apply andb_true_iff in Hds as [Hc _]).
    replace ((c =? ord "+") || (c =? ord "-")) with false.
    + cbv iota beta.
      change (span_digits (c :: r ++ rest))
        with (span_digits ((c :: r) ++ rest)).
      rewrite span_digits_app by assumption. reflexivity.
    + symmetry. apply orb_false_iff. split; [|now apply is_digit_not_minus].
      unfold is_digit in Hc. apply andb_true_iff in Hc as [Hc _].
      apply N.leb_le in Hc. apply N.eqb_neq. change (ord "+") with 43. lia.
  - change ((ord "+" =? ord "+") || (ord "+" =? ord "-")) with true. cbv iota.
    rewrite span_digits_app by assumption.
    destruct ds; [congruence|reflexivity].
  - change ((ord "-" =? ord "+") || (ord "-" =? ord "-")) with true. cbv iota.
    rewrite span_digits_app by assumption.
    destruct ds; [congruence|reflexivity].
Qed.

Lemma delimited_head s :
  delimited s = true ->
  match s with
  | c :: _ => c <> ord "." /\ c <> ord "e" /\ c <> ord "E"
  | [] => True
  end.
Proof.
  intros H.
  destruct (delimited_cases s H) as [-> | (c & r & -> & [-> | [-> | ->]])];
    [exact I| | |]; repeat split; discriminate.
Qed.

(** The number at the start of a text: an integer literal before a
    delimiter, or a float literal before one. *)
Lemma match_number_int i rest :
  int_part i -> delimited rest = true ->
  match_number (i ++ rest) = Some (i, [], [], rest).
Proof.
  intros Hi Hrest. unfold match_number.
  rewrite match_int_part by (try apply delimited_no_digit; assumption).
  pose proof (delimited_head rest Hrest) as Hh.
  rewrite match_frac_skip, match_exp_skip;
    [reflexivity| |]; destruct rest; tauto.
Qed.

Lemma frac_part_head fr :
  frac_part fr -> fr <> [] -> exists r, fr = ord "." :: r.
Proof. intros [->|(ds & -> & _)] H; [congruence|now exists ds]. Qed.

Lemma exp_part_head ex :
  exp_part ex -> ex <> [] ->
  exists e r, ex = e :: r /\ (e = ord "e" \/ e = ord "E").
Proof.
  intros [->|(e & sg & ds & -> & He & _)] H; [congruence|].
  now exists e, (sg ++ ds).
Qed.

Lemma match_number_float s rest :
  float_literal s -> delimited rest = true ->
  exists i fr ex,
    s = i ++ fr ++ ex /\ (fr <> [] \/ ex <> [])
    /\ match_number (s ++ rest) = Some (i, fr, ex, rest).
Proof.
  intros (i & fr & ex & -> & Hi & Hfr & Hex & Hne) Hrest.
  exists i, fr, ex. split; [reflexivity|]. split; [exact Hne|].
  pose proof (delimited_head rest Hrest) as Hh.
  pose proof (delimited_no_digit rest Hrest) as Hnd.
  unfold match_number. rewrite <- !app_assoc.
  assert (Hex_rest : no_digit_head (ex ++ rest) = true).
  { destruct ex as [|e r] eqn:E; [exact Hnd|].
    assert (Hcons : e :: r <> []) by discriminate.
    destruct (exp_part_head Hex Hcons) as (e' & r' & [= <- <-] & [-> | ->]);
      reflexivity. }
  rewrite match_int_part; [|exact Hi|].
  - destruct fr as [|f0 fr0] eqn:Efr.
    + cbn [app]. destruct Hne as [Hne|Hne]; [congruence|].
      destruct (exp_part_head Hex Hne) as (e & r & -> & He).
      rewrite match_frac_skip
        by (cbn [app]; destruct He as [-> | ->]; discriminate).
      rewrite match_exp_part; [reflexivity|exact Hex|discriminate|exact Hnd].
    + rewrite match_frac_part; [|exact Hfr|discriminate|exact Hex_rest].
      destruct ex as [|e r] eqn:Eex.
      * cbn [app]. rewrite match_exp_skip; [reflexivity|].
        destruct rest; tauto.
      * rewrite match_exp_part; [reflexivity|exact Hex|discriminate|exact Hnd].
  - destruct fr as [|f0 fr0] eqn:Efr.
    + cbn [app]. exact Hex_rest.
    + assert (Hcons : f0 :: fr0 <> []) by discriminate.
      destruct (frac_part_head Hfr Hcons) as (r & [= -> ->]). reflexivity.
Qed.

End TextFacts.

Section LoadsFacts.
Variable double : Type.
Context {FT : FloatText double}.
#[local] Open Scope N_scope.

(** Values as [json.loads] builds them from a text that holds no surrogate
    of its own: their strings are as [is_json_str] has them, and the keys
    of a dictionary are distinct. *)
Fixpoint is_json_value (v : pyval double) : bool :=
  match v with
  | PStr s => is_json_str s
  | PList l => forallb is_json_value l
  | PDict d =>
      forallb (fun kv => is_json_str (fst kv) && is_json_value (snd kv)) d
      && distinct (map fst d)
  | _ => true
  end.

(** *** One step of each scanner *)

Lemma scan_once_string fuel r :
  scan_once (S fuel) (QUOTE :: r)
  = match scanstring r with
    | Some (str, rest) => Some (PStr str, rest)
    | None => None
    end.
Proof. reflexivity. Qed.

Lemma scan_once_array fuel r :
  scan_once (S fuel) (ord "[" :: r)
  = match skip_ws r with
    | c1 :: r1 =>
        if (c1 =? ord "]") then Some (PList [], r1)
        else
          match parse_elems fuel (c1 :: r1) with
          | Some (vs, rest) => Some (PList vs, rest)
          | None => None
          end
    | [] => None
    end.
Proof. reflexivity. Qed.

Lemma scan_once_object fuel r :
  scan_once (S fuel) (ord "{" :: r)
  = match skip_ws r with
    | c1 :: r1 =>
        if (c1 =? ord "}") then Some (PDict [], r1)
        else if (c1 =? QUOTE) then
          match parse_pairs fuel r1 with
          | Some (pairs, rest) => Some (PDict (dict_of_pairs pairs), rest)
          | None => None
          end
        else None
    | [] => None
    end.
Proof. reflexivity. Qed.

Lemma scan_once_atom fuel c r :
  c <> QUOTE -> c <> ord "{" -> c <> ord "[" ->
  scan_once (S fuel) (c :: r) = scan_atom (c :: r).
Proof.
  intros Hq Ho Ha. cbn [scan_once].
  apply N.eqb_neq in Hq, Ho, Ha. now rewrite Hq, Ho, Ha.
Qed.

Lemma parse_elems_step fuel s :
  parse_elems (S fuel) s
  = match scan_once fuel s with
    | None => None
    | Some (v, r) =>
        match skip_ws r with
        | c :: r1 =>
            if (c =? ord "]") then Some ([v], r1)
            else if (c =? ord ",") then
              match parse_elems fuel (skip_ws r1) with
              | Some (vs, rest) => Some (v :: vs, rest)
              | None => None
              end
            else None
        | [] => None
        end
    end.
Proof. reflexivity. Qed.

Lemma parse_pairs_step fuel s :
  parse_pairs (S fuel) s
  = match scanstring s with
    | None => None
    | Some (key, r) =>
        match skip_ws r with
        | c :: r1 =>
            if (c =? ord ":") then
              match scan_once fuel (skip_ws r1) with
              | None => None
              | Some (v, r2) =>
                  match skip_ws r2 with
                  | c2 :: r3 =>
                      if (c2 =? ord "}") then Some ([(key, v)], r3)
                      else if (c2 =? ord ",") then
                        match skip_ws r3 with
                        | c3 :: r4 =>
                            if (c3 =? QUOTE) then
                              match parse_pairs fuel r4 with
                              | Some (ps, rest) => Some ((key, v) :: ps, rest)
                              | None => None
                              end
                            else None
                        | [] => None
                        end
                      else None
                  | [] => None
                  end
              end
            else None
        | [] => None
        end
    end.
Proof. reflexivity. Qed.

(** *** Scalars *)

Definition numeric_head (s : pystr) : bool :=
  match s with
  | c :: _ => (c =? ord "-") || is_digit c
  | [] => false
  end.

Lemma int_part_head i rest : int_part i -> numeric_head (i ++ rest) = true.
Proof.
  intros (sg & ds & -> & [->| ->] & [Hne Hds] & _); [|reflexivity].
  destruct ds as [|c r]; [congruence|]. cbn [app numeric_head].
  cbn [forallb] in Hds. apply andb_true_iff in Hds as [Hc _].
  rewrite Hc. apply orb_true_r.
Qed.

Lemma strip_prefix_head a p c r :
  (a =? c) = false -> strip_prefix (a :: p) (c :: r) = None.
Proof. intros H. cbn [strip_prefix]. now rewrite H. Qed.

Lemma scan_atom_number s i fr ex r :
  numeric_head s = true ->
  match_number s = Some (i, fr, ex, r) ->
  scan_atom s
  = match fr, ex with
    | [], [] => Some (PInt (int_of_text i), r)
    | _, _ => Some (PFloat (float_of_text (i ++ fr ++ ex)), r)
    end.
Proof.
  destruct s as [|c s]; [discriminate|]. cbn [numeric_head]. intros Hc Hm.
  assert (Hn : forall a, a <> ord "-" -> is_digit a = false -> (a =? c) = false).
  { intros a Ha Hd. apply N.eqb_neq. intros ->.
    apply orb_true_iff in Hc as [Hc|Hc]; [apply N.eqb_eq in Hc|]; congruence. }
  unfold scan_atom.
  replace (strip_prefix (py "null") (c :: s)) with (@None pystr)
    by (symmetry; apply (strip_prefix_head (ord "n") (py "ull"));
        apply Hn; [discriminate|reflexivity]).
  replace (strip_prefix (py "true") (c :: s)) with (@None pystr)
    by (symmetry; apply (strip_prefix_head (ord "t") (py "rue"));
        apply Hn; [discriminate|reflexivity]).
  replace (strip_prefix (py "false") (c :: s)) with (@None pystr)
    by (symmetry; apply (strip_prefix_head (ord "f") (py "alse"));
        apply Hn; [discriminate|reflexivity]).
  now rewrite Hm.
Qed.

Lemma scan_atom_int z rest :
  delimited rest = true -> scan_atom (int_repr z ++ rest) = Some (PInt z, rest).
Proof.
  intros Hrest. pose proof (int_part_repr z) as Hi.
  assert (Hh : numeric_head (int_repr z ++ rest) = true)
    by (apply int_part_head; exact Hi).
  assert (Hm : match_number (int_repr z ++ rest)
               = Some (int_repr z, [], [], rest))
    by (apply match_number_int; assumption).
  erewrite scan_atom_number; [|exact Hh|exact Hm].
  now rewrite int_of_text_repr.
Qed.

Lemma scan_atom_float d rest :
  delimited rest = true ->
  scan_atom (float_repr d ++ rest) = Some (PFloat (FFinite d), rest).
Proof.
  intros Hrest.
  assert (Hlit : exists i fr ex,
             float_repr d = i ++ fr ++ ex /\ (fr <> [] \/ ex <> [])
             /\ match_number (float_repr d ++ rest) = Some (i, fr, ex, rest))
    by (apply match_number_float; [apply float_repr_literal|exact Hrest]).
  destruct Hlit as (i & fr & ex & Hs & Hne & Hm).
  assert (Hh : numeric_head (float_repr d ++ rest) = true).
  { destruct (float_repr_literal d) as (i' & fr' & ex' & -> & Hi' & _).
    rewrite <- app_assoc. now apply int_part_head. }
  erewrite scan_atom_number; [|exact Hh|exact Hm].
  rewrite <- Hs, float_of_repr.
  destruct fr, ex; try reflexivity. destruct Hne; congruence.
Qed.

(** *** The first character of an encoded value *)

Definition starts_value (s : pystr) : bool :=
  match s with
  | c :: _ => negb (is_ws c) && negb (c =? ord "]")
  | [] => false
  end.

Lemma numeric_head_starts s : numeric_head s = true -> starts_value s = true.
Proof.
  destruct s as [|c r]; [discriminate|]. cbn [numeric_head starts_value].
  intros H. apply orb_true_iff in H as [H|H].
  - apply N.eqb_eq in H. now subst.
  - unfold is_digit in H. apply andb_true_iff in H as [Hlo Hhi].
    apply N.leb_le in Hlo, Hhi. apply andb_true_iff. split; apply negb_true_iff.
    + unfold is_ws. repeat (apply orb_false_iff; split); apply N.eqb_neq; lia.
    + apply N.eqb_neq. change (ord "]") with 93. lia.
Qed.

Lemma skip_ws_starts s : starts_value s = true -> skip_ws s = s.
Proof.
  destruct s as [|c r]; [discriminate|]. cbn [starts_value skip_ws].
  intros H. apply andb_true_iff in H as [H _]. apply negb_true_iff in H.
  now rewrite H.
Qed.

Lemma skip_ws_space s : starts_value s = true -> skip_ws (ord " " :: s) = s.
Proof. intros H. cbn [skip_ws]. now apply skip_ws_starts. Qed.

Lemma encode_starts (v : pyval double) s rest :
  encode true v = Ok s -> starts_value (s ++ rest) = true.
Proof.
  destruct v as [| [] | z | [| [] | d] | str | l | d];
    try (cbn [encode floatstr]; intros [= <-]; reflexivity).
  - cbn [encode]. intros [= <-].
    apply numeric_head_starts, int_part_head, int_part_repr.
  - cbn [encode floatstr]. intros [= <-]. apply numeric_head_starts.
    destruct (float_repr_literal d) as (i & fr & ex & -> & Hi & _).
    rewrite <- app_assoc. now apply int_part_head.
  - rewrite encode_list. destruct (mapM (encode true) l); [|discriminate].
    intros [= <-]. reflexivity.
  - rewrite encode_dict. destruct (mapM (encode_item true) d); [|discriminate].
    intros [= <-]. reflexivity.
Qed.

Lemma mapM_cons_inv A B (f : A -> result B) x l items :
  mapM f (x :: l) = Ok items ->
  exists y ys, f x = Ok y /\ mapM f l = Ok ys /\ items = y :: ys.
Proof.
  cbn [mapM]. destruct (f x) as [y|]; [|discriminate].
  destruct (mapM f l) as [ys|]; [|discriminate].
  intros [= <-]. now exists y, ys.
Qed.

Lemma join_cons2 sep (x y : pystr) rest :
  join sep (x :: y :: rest) = x ++ sep ++ join sep (y :: rest).
Proof. reflexivity. Qed.

(** *** Values *)

(** An encoded value, followed by what [json.dumps] puts after a value, is
    read back as the value and leaves what follows. *)
Definition reads_back (v : pyval double) : Prop :=
  forall s, encode true v = Ok s ->
  forall rest fuel, delimited rest = true -> (List.length s < fuel)%nat ->
  scan_once fuel (s ++ rest) = Some (v, rest).

Lemma parse_elems_items l :
  Forall (fun x => is_json_value x = true -> reads_back x) l ->
  forallb is_json_value l = true -> l <> [] ->
  forall items, mapM (encode true) l = Ok items ->
  forall rest fuel,
    (List.length (join (py ", ") items) + 1 < fuel)%nat ->
    parse_elems fuel (join (py ", ") items ++ ord "]" :: rest) = Some (l, rest).
Proof.
  induction l as [|v l IH]; intros Hall Hjson Hne items Hitems rest fuel Hfuel;
    [congruence|].
  apply Forall_cons_iff in Hall as [Hv Hall].
  cbn [forallb] in Hjson. apply andb_true_iff in Hjson as [Hjv Hjl].
  apply mapM_cons_inv in Hitems as (s & items' & Hs & Hitems' & ->).
  destruct fuel as [|fuel]; [lia|]. rewrite parse_elems_step.
  destruct l as [|v' l'].
  - cbn [mapM] in Hitems'. injection Hitems' as <-. cbn [join] in *.
    rewrite (Hv Hjv s Hs (ord "]" :: rest) fuel eq_refl) by lia.
    reflexivity.
  - pose proof Hitems' as Hitems2.
    apply mapM_cons_inv in Hitems2 as (s' & items'' & Hs' & _ & ->).
    rewrite join_cons2 in *. rewrite <- !app_assoc.
    rewrite !length_app in Hfuel.
    change (List.length (py ", ")) with 2%nat in Hfuel.
    rewrite (Hv Hjv s Hs
               (py ", " ++ join (py ", ") (s' :: items'') ++ ord "]" :: rest)
               fuel eq_refl) by lia.
    change (py ", " ++ join (py ", ") (s' :: items'') ++ ord "]" :: rest)
      with (ord "," :: ord " "
              :: (join (py ", ") (s' :: items'') ++ ord "]" :: rest)).
    rewrite (skip_ws_starts (ord "," :: _) eq_refl). cbv iota.
    change (ord "," =? ord "]") with false. change (ord "," =? ord ",") with true.
    cbv iota.
    assert (Hstart : starts_value
                       (join (py ", ") (s' :: items'') ++ ord "]" :: rest) = true).
    { destruct items'' as [|s'' items3]; [cbn [join]|rewrite join_cons2, <- app_assoc];
        exact (encode_starts _ _ Hs'). }
    rewrite skip_ws_space by exact Hstart.
    rewrite IH; [reflexivity|exact Hall|exact Hjl|discriminate|exact Hitems'|].
    lia.
Qed.

Lemma encode_item_inv k (v : pyval double) item :
  encode_item true (k, v) = Ok item ->
  exists sv, encode true v = Ok sv
             /\ item = encode_basestring_ascii k ++ py ": " ++ sv.
Proof.
  unfold encode_item. cbn [fst snd].
  destruct (encode true v) as [sv|]; [|discriminate].
  intros [= <-]. now exists sv.
Qed.

Lemma encode_item_layout k sv rest :
  (encode_basestring_ascii k ++ py ": " ++ sv) ++ rest
  = QUOTE :: flat_map escape_char k
      ++ QUOTE :: ord ":" :: ord " " :: sv ++ rest.
Proof.
  unfold encode_basestring_ascii. cbn [app]. rewrite <- !app_assoc.
  reflexivity.
Qed.

Lemma parse_pairs_items d :
  Forall (fun kv : pystr * pyval double =>
            is_json_value (snd kv) = true -> reads_back (snd kv)) d ->
  forallb (fun kv => is_json_str (fst kv) && is_json_value (snd kv)) d = true ->
  d <> [] ->
  forall items, mapM (encode_item true) d = Ok items ->
  forall rest fuel,
    (List.length (join (py ", ") items) + 1 < fuel)%nat ->
    exists body,
      join (py ", ") items ++ ord "}" :: rest = QUOTE :: body
      /\ parse_pairs fuel body = Some (d, rest).
Proof.
  induction d as [|[k v] d IH]; intros Hall Hjson Hne items Hitems rest fuel Hfuel;
    [congruence|].
  apply Forall_cons_iff in Hall as [Hv Hall]. cbn [snd] in Hv.
  cbn [forallb fst snd] in Hjson. apply andb_true_iff in Hjson as [Hkv Hjd].
  apply andb_true_iff in Hkv as [Hk Hjv].
  apply mapM_cons_inv in Hitems as (item & items' & Hitem & Hitems' & ->).
  apply encode_item_inv in Hitem as (sv & Hsv & ->).
  destruct fuel as [|fuel]; [lia|].
  assert (Hone : forall tail,
             delimited tail = true -> starts_value tail = true ->
             (List.length sv < fuel)%nat ->
             parse_pairs (S fuel)
               (flat_map escape_char k
                  ++ QUOTE :: ord ":" :: ord " " :: sv ++ tail)
             = match tail with
               | c2 :: r3 =>
                   if (c2 =? ord "}") then Some ([(k, v)], r3)
                   else if (c2 =? ord ",") then
                     match skip_ws r3 with
                     | c3 :: r4 =>
                         if (c3 =? QUOTE) then
                           match parse_pairs fuel r4 with
                           | Some (ps, rest) => Some ((k, v) :: ps, rest)
                           | None => None
                           end
                         else None
                     | [] => None
                     end
                   else None
               | [] => None
               end).
  { intros tail Hdel Hstart Hlen. rewrite parse_pairs_step.
    rewrite scanstring_escaped by exact Hk.
    rewrite (skip_ws_starts (ord ":" :: _) eq_refl). cbv iota.
    change (ord ":" =? ord ":") with true. cbv iota.
    rewrite skip_ws_space by exact (encode_starts _ _ Hsv).
    rewrite (Hv Hjv sv Hsv tail fuel Hdel Hlen).
    now rewrite (skip_ws_starts tail Hstart). }
  destruct d as [|[k' v'] d'].
  - cbn [mapM] in Hitems'. injection Hitems' as <-. cbn [join] in *.
    rewrite encode_item_layout. eexists. split; [reflexivity|].
    rewrite Hone; [reflexivity|reflexivity|reflexivity|].
    rewrite !length_app in Hfuel. lia.
  - pose proof Hitems' as Hitems2.
    apply mapM_cons_inv in Hitems2 as (item' & items'' & _ & _ & ->).
    rewrite join_cons2 in *. rewrite !length_app in Hfuel.
    change (List.length (py ", ")) with 2%nat in Hfuel.
    destruct (IH Hall Hjd ltac:(discriminate) _ Hitems' rest fuel ltac:(lia))
      as (body & Hbody & Hparse).
    rewrite <- (app_assoc (encode_basestring_ascii k ++ py ": " ++ sv)).
    rewrite <- (app_assoc (py ", ")).
    rewrite encode_item_layout. eexists. split; [reflexivity|].
    rewrite Hone; [|reflexivity|reflexivity|lia].
    change (py ", " ++ join (py ", ") (item' :: items'') ++ ord "}" :: rest)
      with (ord "," :: ord " "
              :: (join (py ", ") (item' :: items'') ++ ord "}" :: rest)).
    cbv iota. change (ord "," =? ord "}") with false.
    change (ord "," =? ord ",") with true. cbv iota.
    rewrite Hbody. rewrite skip_ws_space by reflexivity. cbv iota.
    change (QUOTE =? QUOTE) with true. cbv iota. now rewrite Hparse.
Qed.

Lemma mapM_nil_inv A B (f : A -> result B) items :
  mapM f [] = Ok items -> items = [].
Proof. cbn. now intros [= <-]. Qed.

Theorem scan_once_encode (v : pyval double) :
  is_json_value v = true -> reads_back v.
Proof.
  induction v as [| b | z | f | str | l IH | d IH] using pyval_ind;
    intros Hjson s Hs rest fuel Hrest Hfuel;
    (destruct fuel as [|fuel]; [lia|]).
  - cbn [encode] in Hs. injection Hs as <-. reflexivity.
  - destruct b; cbn [encode] in Hs; injection Hs as <-; reflexivity.
  - cbn [encode] in Hs. injection Hs as <-.
    pose proof (int_part_head rest (int_part_repr z)) as Hh.
    destruct (int_repr z ++ rest) as [|c r] eqn:E; [discriminate|].
    rewrite scan_once_atom.
    + rewrite <- E. now apply scan_atom_int.
    + intros ->. discriminate.
    + intros ->. discriminate.
    + intros ->. discriminate.
  - destruct f as [| [] | x]; cbn [encode floatstr] in Hs; injection Hs as <-;
      try reflexivity.
    assert (Hh : numeric_head (float_repr x ++ rest) = true).
    { destruct (float_repr_literal x) as (i & fr & ex & -> & Hi & _).
      rewrite <- app_assoc. now apply int_part_head. }
    destruct (float_repr x ++ rest) as [|c r] eqn:E; [discriminate|].
    rewrite scan_once_atom.
    + rewrite <- E. now apply scan_atom_float.
    + intros ->. discriminate.
    + intros ->. discriminate.
    + intros ->. discriminate.
  - cbn [encode] in Hs. injection Hs as <-. cbn [is_json_value] in Hjson.
    unfold encode_basestring_ascii. cbn [app]. rewrite <- app_assoc.
    rewrite scan_once_string. cbn [app].
    now rewrite scanstring_escaped.
  - rewrite encode_list in Hs.
    destruct (mapM (encode true) l) as [items|] eqn:Hitems; [|discriminate].
    injection Hs as <-. cbn [is_json_value] in Hjson.
    cbn [List.length] in Hfuel. rewrite length_app in Hfuel.
    cbn [List.length] in Hfuel.
    rewrite <- app_comm_cons, <- app_assoc.
    change (join (py ", ") items ++ [93] ++ rest)
      with (join (py ", ") items ++ ord "]" :: rest).
    rewrite scan_once_array.
    destruct l as [|v l].
    + apply mapM_nil_inv in Hitems. subst items. reflexivity.
    + assert (Hstart : starts_value
                         (join (py ", ") items ++ ord "]" :: rest) = true).
      { apply mapM_cons_inv in Hitems as (s1 & items' & Hs1 & _ & ->).
        destruct items' as [|s2 items2];
          [cbn [join]|rewrite join_cons2, <- app_assoc];
          exact (encode_starts _ _ Hs1). }
      rewrite (skip_ws_starts _ Hstart).
      destruct (join (py ", ") items ++ ord "]" :: rest) as [|c1 r1] eqn:E;
        [discriminate|].
      cbn [starts_value] in Hstart. apply andb_true_iff in Hstart as [_ Hc1].
      apply negb_true_iff in Hc1. rewrite Hc1, <- E.
      rewrite (parse_elems_items IH Hjson); trivial.
      * discriminate.
      * lia.
  - rewrite encode_dict in Hs.
    destruct (mapM (encode_item true) d) as [items|] eqn:Hitems; [|discriminate].
    injection Hs as <-. cbn [is_json_value] in Hjson.
    apply andb_true_iff in Hjson as [Hjson Hkeys].
    cbn [List.length] in Hfuel. rewrite length_app in Hfuel.
    cbn [List.length] in Hfuel.
    rewrite <- app_comm_cons, <- app_assoc.
    change (join (py ", ") items ++ [125] ++ rest)
      with (join (py ", ") items ++ ord "}" :: rest).
    rewrite scan_once_object.
    destruct d as [|kv d].
    + apply mapM_nil_inv in Hitems. subst items. reflexivity.
    + destruct (parse_pairs_items IH Hjson ltac:(discriminate) Hitems rest
                  (fuel := fuel) ltac:(lia)) as (body & -> & Hparse).
      rewrite (skip_ws_starts (QUOTE :: body) eq_refl).
      change (QUOTE =? ord "}") with false. change (QUOTE =? QUOTE) with true.
      cbv iota. rewrite Hparse, dict_of_pairs_nodup; [reflexivity|].
      now apply distinct_NoDup.
Qed.

(** [json.loads] undoes [json.dumps] on the values [json.loads] builds. *)
Theorem json_loads_dumps (v : pyval double) s :
  is_json_value v = true -> json_dumps v = Ok s -> json_loads s = Ok v.
Proof.
  intros Hjson Hs. unfold json_loads.
  pose proof (encode_starts v [] Hs) as Hstart. rewrite app_nil_r in Hstart.
  rewrite (skip_ws_starts s Hstart).
  rewrite <- (app_nil_r s) at 2.
  pose proof (scan_once_encode v Hjson) as Hback. unfold reads_back in Hback.
  rewrite (Hback s Hs [] (2 * List.length s + 2)%nat eq_refl) by lia.
  reflexivity.
Qed.

(** *** What [json.loads] builds

    The text [resp.json()] decodes is made of code points and holds no
    surrogate: the response body went through a Unicode decoder. *)

Definition text_char (c : pychar) : bool :=
  (c <? 1114112) && negb (is_surrogate c).

Definition text_ok (s : pystr) : bool := forallb text_char s.

(** The text starts with the escape of a low surrogate. *)
Definition low_escape (r : pystr) : Prop :=
  exists r3 uni2 r4,
    r = BACKSLASH :: ord "u" :: r3
    /\ decode_uXXXX r3 = Some (uni2, r4)
    /\ is_low_surrogate uni2 = true.

Lemma hex_val_bound c d : hex_val c = Some d -> d < 16.
Proof.
  unfold hex_val, is_digit.
  destruct ((48 <=? c) && (c <=? 57)) eqn:H1.
  { apply andb_true_iff in H1 as [Ha Hb]. apply N.leb_le in Ha, Hb.
    intros [= <-]. lia. }
  destruct ((97 <=? c) && (c <=? 102)) eqn:H2.
  { apply andb_true_iff in H2 as [Ha Hb]. apply N.leb_le in Ha, Hb.
    intros [= <-]. lia. }
  destruct ((65 <=? c) && (c <=? 70)) eqn:H3; [|discriminate].
  apply andb_true_iff in H3 as [Ha Hb]. apply N.leb_le in Ha, Hb.
  intros [= <-]. lia.
Qed.

Lemma decode_uXXXX_inv s n r :
  decode_uXXXX s = Some (n, r) ->
  n < 65536 /\ exists a b c d, s = a :: b :: c :: d :: r.
Proof.
  unfold decode_uXXXX. destruct s as [|a [|b [|c [|d r']]]]; try discriminate.
  destruct (hex_val a) as [va|] eqn:Ha; [|discriminate].
  destruct (hex_val b) as [vb|] eqn:Hb; [|discriminate].
  destruct (hex_val c) as [vc|] eqn:Hc; [|discriminate].
  destruct (hex_val d) as [vd|] eqn:Hd; [|discriminate].
  apply hex_val_bound in Ha, Hb, Hc, Hd. intros [= <- <-].
  split; [|now exists a, b, c, d].
  rewrite !lor_shiftl_add by (change (2 ^ 4) with 16; assumption).
  change (2 ^ 4) with 16. nia.
Qed.

Lemma unescape_ascii esc ch : unescape esc = Some ch -> ch < 128.
Proof.
  unfold unescape.
  repeat match goal with
         | |- context [if ?b then _ else _] => destruct b
         end; intros [= <-]; reflexivity.
Qed.

(** One round of [scanstring], read backwards. *)
Lemma scanstring_fuel_inv fuel c r str rest :
  scanstring_fuel (S fuel) (c :: r) = Some (str, rest) ->
  (c = QUOTE /\ str = [] /\ rest = r)
  \/ (exists esc r1 ch str',
        c = BACKSLASH /\ r = esc :: r1 /\ unescape esc = Some ch
        /\ scanstring_fuel fuel r1 = Some (str', rest) /\ str = ch :: str')
  \/ (exists r1 uni r2 str',
        c = BACKSLASH /\ r = ord "u" :: r1 /\ decode_uXXXX r1 = Some (uni, r2)
        /\ (is_high_surrogate uni = true -> ~ low_escape r2)
        /\ scanstring_fuel fuel r2 = Some (str', rest) /\ str = uni :: str')
  \/ (exists r1 uni r3 uni2 r4 str',
        c = BACKSLASH /\ r = ord "u" :: r1
        /\ decode_uXXXX r1 = Some (uni, BACKSLASH :: ord "u" :: r3)
        /\ is_high_surrogate uni = true
        /\ decode_uXXXX r3 = Some (uni2, r4) /\ is_low_surrogate uni2 = true
        /\ scanstring_fuel fuel r4 = Some (str', rest)
        /\ str = 65536 + N.lor (N.shiftl (uni - 55296) 10) (uni2 - 56320) :: str')
  \/ (c <> QUOTE /\ c <> BACKSLASH /\ 32 <= c
      /\ exists str', scanstring_fuel fuel r = Some (str', rest)
                      /\ str = c :: str').
Proof.
  cbn [scanstring_fuel].
  destruct (N.eqb_spec c QUOTE) as [->|Hq].
  { intros [= <- <-]. now left. }
  destruct (N.eqb_spec c BACKSLASH) as [->|Hb].
  - destruct r as [|esc r1]; [discriminate|].
    destruct (N.eqb_spec esc (ord "u")) as [->|Hu].
    + destruct (decode_uXXXX r1) as [[uni r2]|] eqn:Hd; [|discriminate].
      destruct (is_high_surrogate uni) eqn:Hh.
      * destruct r2 as [|b [|u r3]].
        -- destruct (scanstring_fuel fuel []) as [[str' rest']|] eqn:Hs;
             [|discriminate].
           intros [= <- <-]. right. right. left.
           exists r1, uni, [], str'. repeat split; trivial.
           intros _ (? & ? & ? & Habs & _). discriminate.
        -- destruct (scanstring_fuel fuel [b]) as [[str' rest']|] eqn:Hs;
             [|discriminate].
           intros [= <- <-]. right. right. left.
           exists r1, uni, [b], str'. repeat split; trivial.
           intros _ (? & ? & ? & Habs & _). discriminate.
        -- destruct ((b =? BACKSLASH) && (u =? ord "u")) eqn:Hbu.
           ++ apply andb_true_iff in Hbu as [Hb' Hu'].
              apply N.eqb_eq in Hb', Hu'. subst b u.
              destruct (decode_uXXXX r3) as [[uni2 r4]|] eqn:Hd2;
                [|discriminate].
              destruct (is_low_surrogate uni2) eqn:Hl.
              ** destruct (scanstring_fuel fuel r4) as [[str' rest']|] eqn:Hs;
                   [|discriminate].
                 intros [= <- <-]. right. right. right. left.
                 exists r1, uni, r3, uni2, r4, str'. repeat split; trivial.
              ** destruct (scanstring_fuel fuel (BACKSLASH :: ord "u" :: r3))
                   as [[str' rest']|] eqn:Hs; [|discriminate].
                 intros [= <- <-]. right. right. left.
                 exists r1, uni, (BACKSLASH :: ord "u" :: r3), str'.
                 repeat split; trivial.
                 intros _ (r3' & uni2' & r4' & [= <-] & Hd2' & Hl').
                 congruence.
           ++ destruct (scanstring_fuel fuel (b :: u :: r3))
                as [[str' rest']|] eqn:Hs; [|discriminate].
              intros [= <- <-]. right. right. left.
              exists r1, uni, (b :: u :: r3), str'. repeat split; trivial.
              intros _ (r3' & uni2' & r4' & [= -> -> <-] & _).
              vm_compute in Hbu. discriminate.
      * destruct (scanstring_fuel fuel r2) as [[str' rest']|] eqn:Hs;
          [|discriminate].
        intros [= <- <-]. right. right. left.
        exists r1, uni, r2, str'. repeat split; trivial. congruence.
    + destruct (unescape esc) as [ch|] eqn:He; [|discriminate].
      destruct (scanstring_fuel fuel r1) as [[str' rest']|] eqn:Hs;
        [|discriminate].
      intros [= <- <-]. right. left. now exists esc, r1, ch, str'.
  - destruct (N.ltb_spec c 32) as [Hlt|Hge]; [discriminate|].
    destruct (scanstring_fuel fuel r) as [[str' rest']|] eqn:Hs;
      [|discriminate].
    intros [= <- <-]. right. right. right. right.
    repeat split; trivial. now exists str'.
Qed.

Lemma text_ok_cons c r :
  text_ok (c :: r) = true <-> text_char c = true /\ text_ok r = true.
Proof. unfold text_ok. cbn [forallb]. apply andb_true_iff. Qed.

Lemma text_char_inv c :
  text_char c = true ->
  c < 1114112 /\ is_high_surrogate c = false /\ is_low_surrogate c = false.
Proof.
  unfold text_char, is_surrogate, is_high_surrogate, is_low_surrogate.
  intros H. apply andb_true_iff in H as [Hlt Hs].
  apply N.ltb_lt in Hlt. apply negb_true_iff, andb_false_iff in Hs.
  split; [exact Hlt|].
  split; apply andb_false_iff;
    destruct Hs as [Hs|Hs]; apply N.leb_gt in Hs;
    try (left; apply N.leb_gt; lia); right; apply N.leb_gt; lia.
Qed.

Lemma surrogate_ranges c :
  (is_high_surrogate c = true -> 55296 <= c <= 56319)
  /\ (is_low_surrogate c = true -> 56320 <= c <= 57343).
Proof.
  unfold is_high_surrogate, is_low_surrogate.
  split; intros H; apply andb_true_iff in H as [Ha Hb];
    apply N.leb_le in Ha, Hb; lia.
Qed.

Lemma not_surrogate_below c :
  c < 55296 -> is_high_surrogate c = false /\ is_low_surrogate c = false.
Proof.
  intros Hc. unfold is_high_surrogate, is_low_surrogate.
  split; apply andb_false_iff; left; apply N.leb_gt; lia.
Qed.

Lemma not_surrogate_above c :
  57343 < c -> is_high_surrogate c = false /\ is_low_surrogate c = false.
Proof.
  intros Hc. unfold is_high_surrogate, is_low_surrogate.
  split; apply andb_false_iff; right; apply N.leb_gt; lia.
Qed.

Lemma merged_range uni uni2 :
  is_high_surrogate uni = true -> is_low_surrogate uni2 = true ->
  65536 <= 65536 + N.lor (N.shiftl (uni - 55296) 10) (uni2 - 56320) < 1114112.
Proof.
  intros Hh Hl. apply surrogate_ranges in Hh. apply surrogate_ranges in Hl.
  rewrite lor_shiftl_add by (change (2 ^ 10) with 1024; lia).
  change (2 ^ 10) with 1024. nia.
Qed.

Lemma is_json_str_cons c str :
  c < 1114112 ->
  (is_high_surrogate c = true ->
   forall c' t, str = c' :: t -> is_low_surrogate c' = false) ->
  is_json_str str = true ->
  is_json_str (c :: str) = true.
Proof.
  intros Hc Hpair Hstr. cbn [is_json_str]. rewrite Hstr, andb_true_r.
  apply andb_true_iff. split; [now apply N.ltb_lt|].
  apply negb_true_iff. destruct (is_high_surrogate c); [|reflexivity].
  destruct str as [|c' t]; [reflexivity|]. exact (Hpair eq_refl c' t eq_refl).
Qed.

(** What [scanstring] returns is a string as [is_json_str] has them; it
    leaves a text of the same kind, and its first character is a low
    surrogate only when the text starts with the escape of one. *)
Lemma scanstring_fuel_sound fuel : forall s str rest,
  text_ok s = true -> scanstring_fuel fuel s = Some (str, rest) ->
  is_json_str str = true /\ text_ok rest = true
  /\ (forall c str', str = c :: str' -> is_low_surrogate c = true ->
                     low_escape s).
Proof.
  induction fuel as [|fuel IH]; intros s str rest Hs Hscan; [discriminate|].
  destruct s as [|c r]; [discriminate|].
  apply text_ok_cons in Hs as [Hc Hr].
  destruct (text_char_inv c Hc) as (Hclt & Hch & Hcl).
  apply scanstring_fuel_inv in Hscan
    as [(-> & -> & ->)
       |[(esc & r1 & ch & str' & -> & -> & He & Hrec & ->)
        |[(r1 & uni & r2 & str' & -> & -> & Hd & Hnolow & Hrec & ->)
         |[(r1 & uni & r3 & uni2 & r4 & str' & -> & -> & Hd & Hh & Hd2 & Hl
            & Hrec & ->)
          |(Hq & Hb & H32 & str' & Hrec & ->)]]]].
  - split; [reflexivity|]. split; [exact Hr|]. intros ? ? [=].
  - apply text_ok_cons in Hr as [_ Hr1].
    destruct (IH r1 str' rest Hr1 Hrec) as (Hstr & Hrest & _).
    apply unescape_ascii in He.
    destruct (@not_surrogate_below ch) as [Hnh Hnl]; [lia|].
    split; [|split; [exact Hrest|]].
    + apply is_json_str_cons; [lia| |exact Hstr]. congruence.
    + intros c0 str0 [= <- <-]. congruence.
  - apply text_ok_cons in Hr as [_ Hr1].
    destruct (decode_uXXXX_inv r1 Hd) as (Huni & a & b & c & d & ->).
    assert (Hr2 : text_ok r2 = true).
    { repeat (apply text_ok_cons in Hr1 as [_ Hr1]). exact Hr1. }
    destruct (IH r2 str' rest Hr2 Hrec) as (Hstr & Hrest & Hhead).
    split; [|split; [exact Hrest|]].
    + apply is_json_str_cons; [lia| |exact Hstr].
      intros Hh c' t -> . destruct (is_low_surrogate c') eqn:Hl; [|reflexivity].
      exfalso. exact (Hnolow Hh (Hhead c' t eq_refl Hl)).
    + intros c0 str0 [= <- <-] Hl. now exists (a :: b :: c :: d :: r2), uni, r2.
  - apply text_ok_cons in Hr as [_ Hr1].
    destruct (decode_uXXXX_inv r1 Hd) as (_ & a & b & c & d & ->).
    destruct (decode_uXXXX_inv r3 Hd2) as (_ & a' & b' & c' & d' & ->).
    assert (Hr4 : text_ok r4 = true).
    { repeat (apply text_ok_cons in Hr1 as [_ Hr1]). exact Hr1. }
    destruct (IH r4 str' rest Hr4 Hrec) as (Hstr & Hrest & _).
    pose proof (merged_range uni uni2 Hh Hl) as Hm.
    destruct (@not_surrogate_above
                (65536 + N.lor (N.shiftl (uni - 55296) 10) (uni2 - 56320)))
      as [Hnh Hnl]; [lia|].
    split; [|split; [exact Hrest|]].
    + apply is_json_str_cons; [lia| |exact Hstr]. congruence.
    + intros c0 str0 Heq Hl0.
      assert (Hc0 : c0 = 65536 + N.lor (N.shiftl (uni - 55296) 10)
                                   (uni2 - 56320)) by congruence.
      congruence.
  - destruct (IH r str' rest Hr Hrec) as (Hstr & Hrest & _).
    split; [|split; [exact Hrest|]].
    + apply is_json_str_cons; [exact Hclt| |exact Hstr]. congruence.
    + intros c0 str0 [= <- <-]. congruence.
Qed.

Lemma scanstring_sound s str rest :
  text_ok s = true -> scanstring s = Some (str, rest) ->
  is_json_str str = true /\ text_ok rest = true.
Proof.
  intros Hs Hscan.
  destruct (scanstring_fuel_sound (List.length s) s Hs Hscan)
    as (H1 & H2 & _).
  now split.
Qed.

Lemma skip_ws_ok s : text_ok s = true -> text_ok (skip_ws s) = true.
Proof.
  induction s as [|c r IH]; [trivial|]. intros Hs. cbn [skip_ws].
  destruct (is_ws c); [|exact Hs]. apply IH. now apply text_ok_cons in Hs.
Qed.

Lemma strip_prefix_ok p : forall s r,
  strip_prefix p s = Some r -> text_ok s = true -> text_ok r = true.
Proof.
  induction p as [|a p IH]; intros s r; cbn [strip_prefix].
  - now intros [= <-].
  - destruct s as [|b s']; [discriminate|].
    destruct (a =? b); [|discriminate].
    intros Hp Hs. apply (IH s' r Hp). now apply text_ok_cons in Hs.
Qed.

Lemma span_digits_ok s :
  text_ok s = true -> text_ok (snd (span_digits s)) = true.
Proof.
  induction s as [|c r IH]; [trivial|]. intros Hs. cbn [span_digits].
  destruct (is_digit c); [|exact Hs].
  destruct (span_digits r) as [ds rest]. cbn [snd] in *. apply IH.
  now apply text_ok_cons in Hs.
Qed.

Lemma match_int_ok s i r :
  match_int s = Some (i, r) -> text_ok s = true -> text_ok r = true.
Proof.
  unfold match_int. intros Hm Hs.
  assert (Hdigits : forall sg s1,
             text_ok s1 = true ->
             match s1 with
             | c :: r0 =>
                 if c =? ord "0" then Some (sg ++ [c], r0)
                 else if is_digit c then
                   let (ds, rest) := span_digits r0 in Some (sg ++ c :: ds, rest)
                 else None
             | [] => None
             end = Some (i, r) -> text_ok r = true).
  { intros sg [|c r0] Hs1; [discriminate|].
    apply text_ok_cons in Hs1 as [_ Hr0].
    destruct (c =? ord "0"); [now intros [= _ <-]|].
    destruct (is_digit c); [|discriminate].
    pose proof (span_digits_ok r0 Hr0) as Hsp.
    destruct (span_digits r0) as [ds rest]. now intros [= _ <-]. }
  destruct s as [|c r0]; [discriminate|].
  destruct (c =? ord "-").
  - apply (Hdigits [c] r0); [|exact Hm]. now apply text_ok_cons in Hs.
  - exact (Hdigits [] (c :: r0) Hs Hm).
Qed.

Lemma match_frac_ok s : text_ok s = true -> text_ok (snd (match_frac s)) = true.
Proof.
  destruct s as [|c r]; [trivial|]. intros Hs. cbn [match_frac].
  destruct (c =? ord "."); [|exact Hs].
  pose proof Hs as Hr. apply text_ok_cons in Hr as [_ Hr].
  pose proof (span_digits_ok r Hr) as Hsp.
  destruct (span_digits r) as [[|d ds] rest]; [exact Hs|exact Hsp].
Qed.

Lemma match_exp_ok s : text_ok s = true -> text_ok (snd (match_exp s)) = true.
Proof.
  destruct s as [|c r]; [trivial|]. intros Hs. cbn [match_exp].
  destruct ((c =? ord "e") || (c =? ord "E")); [|exact Hs].
  pose proof Hs as Hr. apply text_ok_cons in Hr as [_ Hr].
  assert (Hr1 : text_ok
                  (snd match r with
                       | x :: r' =>
                           if (x =? ord "+") || (x =? ord "-") then ([x], r')
                           else ([], r)
                       | [] => ([], [])
                       end) = true).
  { destruct r as [|x r']; [reflexivity|].
    destruct ((x =? ord "+") || (x =? ord "-")); [|exact Hr].
    now apply text_ok_cons in Hr. }
  destruct (match r with
            | x :: r' =>
                if (x =? ord "+") || (x =? ord "-") then ([x], r') else ([], r)
            | [] => ([], [])
            end) as [sg r1].
  cbn [snd] in Hr1. pose proof (span_digits_ok r1 Hr1) as Hsp.
  destruct (span_digits r1) as [[|d ds] rest]; [exact Hs|exact Hsp].
Qed.

Lemma match_number_ok s i fr ex r :
  match_number s = Some (i, fr, ex, r) -> text_ok s = true -> text_ok r = true.
Proof.
  unfold match_number. intros Hm Hs.
  destruct (match_int s) as [[i0 r0]|] eqn:Hi; [|discriminate].
  pose proof (match_int_ok s Hi Hs) as Hr0.
  pose proof (match_frac_ok r0 Hr0) as Hf.
  destruct (match_frac r0) as [fr0 r1]. cbn [snd] in Hf.
  pose proof (match_exp_ok r1 Hf) as He.
  destruct (match_exp r1) as [ex0 r2]. cbn [snd] in He.
  now injection Hm as _ _ _ <-.
Qed.

Lemma scan_atom_sound s (v : pyval double) rest :
  text_ok s = true -> scan_atom s = Some (v, rest) ->
  is_json_value v = true /\ text_ok rest = true.
Proof.
  intros Hs. unfold scan_atom.
  destruct (strip_prefix (py "null") s) as [r|] eqn:H1.
  { intros [= <- <-]. split; [reflexivity|exact (strip_prefix_ok _ _ H1 Hs)]. }
  destruct (strip_prefix (py "true") s) as [r|] eqn:H2.
  { intros [= <- <-]. split; [reflexivity|exact (strip_prefix_ok _ _ H2 Hs)]. }
  destruct (strip_prefix (py "false") s) as [r|] eqn:H3.
  { intros [= <- <-]. split; [reflexivity|exact (strip_prefix_ok _ _ H3 Hs)]. }
  destruct (match_number s) as [[[[i fr] ex] r]|] eqn:H4.
  { pose proof (match_number_ok s H4 Hs) as Hr.
    destruct fr, ex; intros [= <- <-]; now split. }
  destruct (strip_prefix (py "NaN") s) as [r|] eqn:H5.
  { intros [= <- <-]. split; [reflexivity|exact (strip_prefix_ok _ _ H5 Hs)]. }
  destruct (strip_prefix (py "Infinity") s) as [r|] eqn:H6.
  { intros [= <- <-]. split; [reflexivity|exact (strip_prefix_ok _ _ H6 Hs)]. }
  destruct (strip_prefix (py "-Infinity") s) as [r|] eqn:H7; [|discriminate].
  intros [= <- <-]. split; [reflexivity|exact (strip_prefix_ok _ _ H7 Hs)].
Qed.

(** [dict(pairs)] keeps what holds of every pair, and its keys are
    distinct. *)
Lemma dict_set_forallb V (P : pystr * V -> bool) d k v :
  forallb P d = true -> P (k, v) = true -> forallb P (dict_set d k v) = true.
Proof.
  intros Hd Hkv. induction d as [|[k' v'] d IH]; cbn [dict_set forallb].
  - now rewrite Hkv.
  - cbn [forallb] in Hd. apply andb_true_iff in Hd as [Hk' Hd].
    destruct (pystr_eqb k k') eqn:E; cbn [forallb].
    + apply pystr_eqb_eq in E. subst k'. now rewrite Hkv, Hd.
    + now rewrite Hk', IH.
Qed.

Lemma dict_set_keys V (d : pydict V) k v :
  dict_keys (dict_set d k v)
  = if existsb (pystr_eqb k) (dict_keys d) then dict_keys d
    else dict_keys d ++ [k].
Proof.
  unfold dict_keys. induction d as [|[k' v'] d IH]; [reflexivity|].
  cbn [dict_set map fst existsb].
  destruct (pystr_eqb k k') eqn:E; cbn [orb map fst]; [reflexivity|].
  rewrite IH. now destruct (existsb (pystr_eqb k) (map fst d)).
Qed.

Lemma dict_set_distinct V (d : pydict V) k v :
  distinct (dict_keys d) = true -> distinct (dict_keys (dict_set d k v)) = true.
Proof.
  intros Hd. rewrite dict_set_keys.
  destruct (existsb (pystr_eqb k) (dict_keys d)) eqn:E; [exact Hd|].
  apply distinct_NoDup. apply distinct_NoDup in Hd.
  apply NoDup_app; [exact Hd|repeat constructor; intros []|].
  intros x Hx [<-|[]]. apply existsb_pystr_In in Hx. congruence.
Qed.

Lemma dict_of_pairs_sound V (P : pystr * V -> bool) pairs :
  forallb P pairs = true ->
  forallb P (dict_of_pairs pairs) = true
  /\ distinct (dict_keys (dict_of_pairs pairs)) = true.
Proof.
  unfold dict_of_pairs.
  assert (H : forall acc,
             forallb P acc = true -> distinct (dict_keys acc) = true ->
             forallb P pairs = true ->
             forallb P (fold_left (fun d kv => dict_set d (fst kv) (snd kv))
                          pairs acc) = true
             /\ distinct (dict_keys
                            (fold_left (fun d kv => dict_set d (fst kv) (snd kv))
                               pairs acc)) = true).
  { induction pairs as [|[k v] ps IH]; intros acc Hacc Hkeys Hps;
      [now split|].
    cbn [forallb] in Hps. apply andb_true_iff in Hps as [Hkv Hps].
    cbn [fold_left fst snd]. apply IH; [|now apply dict_set_distinct|exact Hps].
    now apply dict_set_forallb. }
  intros Hp. now apply H.
Qed.

Definition json_pair (kv : pystr * pyval double) : bool :=
  is_json_str (fst kv) && is_json_value (snd kv).

(** Whatever the scanners return on a text without surrogates is a value
    as [is_json_value] has them. *)
Lemma scan_sound fuel :
  (forall s v rest,
      text_ok s = true -> scan_once fuel s = Some (v, rest) ->
      is_json_value v = true /\ text_ok rest = true)
  /\ (forall s vs rest,
        text_ok s = true -> parse_elems fuel s = Some (vs, rest) ->
        forallb is_json_value vs = true /\ text_ok rest = true)
  /\ (forall s ps rest,
        text_ok s = true -> parse_pairs fuel s = Some (ps, rest) ->
        forallb json_pair ps = true /\ text_ok rest = true).
Proof.
  induction fuel as [|fuel (IHv & IHe & IHp)];
    [repeat split; discriminate|].
  split; [|split].
  - intros s v rest Hs. destruct s as [|c r]; [discriminate|].
    pose proof Hs as Hr. apply text_ok_cons in Hr as [_ Hr].
    destruct (N.eqb_spec c QUOTE) as [->|Hq].
    { rewrite scan_once_string.
      destruct (scanstring r) as [[str rest']|] eqn:Hstr; [|discriminate].
      intros [= <- <-]. exact (scanstring_sound r Hr Hstr). }
    destruct (N.eqb_spec c (ord "{")) as [->|Ho].
    { rewrite scan_once_object. pose proof (skip_ws_ok r Hr) as Hw.
      destruct (skip_ws r) as [|c1 r1]; [discriminate|].
      apply text_ok_cons in Hw as [_ Hr1].
      destruct (c1 =? ord "}"); [intros [= <- <-]; now split|].
      destruct (c1 =? QUOTE); [|discriminate].
      destruct (parse_pairs fuel r1) as [[ps rest']|] eqn:Hps; [|discriminate].
      intros [= <- <-]. destruct (IHp r1 ps rest' Hr1 Hps) as [Hpairs Hrest].
      split; [|exact Hrest]. cbn [is_json_value].
      destruct (dict_of_pairs_sound json_pair ps Hpairs) as [H1 H2].
      apply andb_true_iff. split; [exact H1|exact H2]. }
    destruct (N.eqb_spec c (ord "[")) as [->|Ha].
    { rewrite scan_once_array. pose proof (skip_ws_ok r Hr) as Hw.
      destruct (skip_ws r) as [|c1 r1]; [discriminate|].
      destruct (c1 =? ord "]").
      { intros [= <- <-]. split; [reflexivity|].
        now apply text_ok_cons in Hw. }
      destruct (parse_elems fuel (c1 :: r1)) as [[vs rest']|] eqn:Hvs;
        [|discriminate].
      intros [= <- <-]. exact (IHe (c1 :: r1) vs rest' Hw Hvs). }
    rewrite scan_once_atom by assumption. now apply scan_atom_sound.
  - intros s vs rest Hs. rewrite parse_elems_step.
    destruct (scan_once fuel s) as [[v r]|] eqn:Hv; [|discriminate].
    destruct (IHv s v r Hs Hv) as [Hjv Hr].
    pose proof (skip_ws_ok r Hr) as Hw.
    destruct (skip_ws r) as [|c r1]; [discriminate|].
    apply text_ok_cons in Hw as [_ Hr1].
    destruct (c =? ord "]").
    { intros [= <- <-]. cbn [forallb]. now rewrite Hjv. }
    destruct (c =? ord ","); [|discriminate].
    destruct (parse_elems fuel (skip_ws r1)) as [[vs' rest']|] eqn:Hvs;
      [|discriminate].
    intros [= <- <-].
    destruct (IHe (skip_ws r1) vs' rest' (skip_ws_ok r1 Hr1) Hvs)
      as [Hjvs Hrest].
    cbn [forallb]. now rewrite Hjv, Hjvs.
  - intros s ps rest Hs. rewrite parse_pairs_step.
    destruct (scanstring s) as [[key r]|] eqn:Hkey; [|discriminate].
    destruct (scanstring_sound s Hs Hkey) as [Hjk Hr].
    pose proof (skip_ws_ok r Hr) as Hw.
    destruct (skip_ws r) as [|c r1]; [discriminate|].
    apply text_ok_cons in Hw as [_ Hr1].
    destruct (c =? ord ":"); [|discriminate].
    destruct (scan_once fuel (skip_ws r1)) as [[v r2]|] eqn:Hv; [|discriminate].
    destruct (IHv (skip_ws r1) v r2 (skip_ws_ok r1 Hr1) Hv) as [Hjv Hr2].
    pose proof (skip_ws_ok r2 Hr2) as Hw2.
    destruct (skip_ws r2) as [|c2 r3]; [discriminate|].
    apply text_ok_cons in Hw2 as [_ Hr3].
    assert (Hpair : json_pair (key, v) = true)
      by (unfold json_pair; cbn [fst snd]; now rewrite Hjk, Hjv).
    destruct (c2 =? ord "}").
    { intros [= <- <-]. cbn [forallb]. now rewrite Hpair. }
    destruct (c2 =? ord ","); [|discriminate].
    pose proof (skip_ws_ok r3 Hr3) as Hw3.
    destruct (skip_ws r3) as [|c3 r4]; [discriminate|].
    apply text_ok_cons in Hw3 as [_ Hr4].
    destruct (c3 =? QUOTE); [|discriminate].
    destruct (parse_pairs fuel r4) as [[ps' rest']|] eqn:Hps; [|discriminate].
    intros [= <- <-]. destruct (IHp r4 ps' rest' Hr4 Hps) as [Hjps Hrest].
    cbn [forallb]. now rewrite Hpair, Hjps.
Qed.

(** [json.loads] on a text without surrogates builds values as
    [is_json_value] has them. *)
Theorem json_loads_sound s (v : pyval double) :
  text_ok s = true -> json_loads s = Ok v -> is_json_value v = true.
Proof.
  intros Hs. unfold json_loads.
  destruct (scan_once (2 * List.length s + 2) (skip_ws s)) as [[v' rest]|] eqn:Hv;
    [|discriminate].
  destruct (skip_ws rest); [|discriminate]. intros [= <-].
  destruct (scan_sound (2 * List.length s + 2)) as (IHv & _ & _).
  exact (proj1 (IHv (skip_ws s) v' rest (skip_ws_ok s Hs) Hv)).
Qed.

End LoadsFacts.

(** ** A model of the float interface

    The doubles that are whole numbers, written with one zero decimal.  It
    shows that [FloatText] can be met and lets the examples below run. *)

Definition whole_repr (z : Z) : pystr := int_repr z ++ py ".0".

Definition whole_of_text (s : pystr) : pyfloat Z :=
  match match_int s with
  | Some (i, _) => FFinite (int_of_text i)
  | None => FNaN
  end.

Lemma whole_repr_literal z : float_literal (whole_repr z).
Proof.
  exists (int_repr z), (py ".0"), []. split; [reflexivity|].
  split; [apply int_part_repr|]. split; [|split; [now left|left; discriminate]].
  right. exists [ord "0"]. repeat split. discriminate.
Qed.

Lemma whole_of_repr z : whole_of_text (whole_repr z) = FFinite z.
Proof.
  unfold whole_of_text, whole_repr.
  rewrite match_int_part; [|apply int_part_repr|reflexivity].
  now rewrite int_of_text_repr.
Qed.

#[export] Instance whole_floats : FloatText Z :=
  {| float_repr := whole_repr;
     float_of_text := whole_of_text;
     float_repr_literal := whole_repr_literal;
     float_of_repr := whole_of_repr |}.

(** ** Example runs *)

(** The text a server sends for a value. *)
Definition body_of (v : pyval Z) : pystr :=
  match json_dumps v with
  | Ok s => s
  | Raise _ => []
  end.

Definition response_of (total num_pages : Z) (records : list (pyval Z))
  : pyval Z :=
  PDict
    [ (py "info",
       PDict [(py "page",
               PDict [(py "total_result_count", PInt total);
                      (py "num_pages", PInt num_pages)])]);
      (py "records", PDict [(py "page", PList records)]) ].

Definition consultant (id : Z) (name : string) : pyval Z :=
  PDict [ (py "id", PInt id);
          (py "fullname", PStr (py name));
          (py "specialties", PList [PStr (py "Cardiology"); PStr (py "Surgery")]);
          (py "bookable", PBool true);
          (py "gmcNumber", PNone);
          (py "score", PFloat (FFinite 2)) ].

(** Three pages, the second of which answers with a server error. *)
Definition server_three_pages : env Z :=
  {| http := fun r =>
       match request_page r with
       | Some 1 => Response 200 (body_of (response_of 3 3 [consultant 1 "Ann"]))
       | Some 2 => Response 500 []
       | Some 3 =>
           Response 200
             (body_of (response_of 3 3 [consultant 2 "Bob"; consultant 3 "Cy"]))
       | _ => NoResponse
       end;
     can_open := true |}.

(** An empty result: no record, no page. *)
Definition server_no_results : env Z :=
  {| http := fun _ => Response 200 (body_of (response_of 0 0 []));
     can_open := true |}.

(** A server whose count disagrees with what it returns. *)
Definition server_miscounting : env Z :=
  {| http := fun _ => Response 200 (body_of (response_of 0 1 [consultant 1 "Ann"]));
     can_open := true |}.

(** A server that cannot be reached. *)
Definition server_down : env Z :=
  {| http := fun _ => NoResponse; can_open := true |}.

(** ** The values a run meets *)

Section FetchedValues.
Variable double : Type.
Context {FT : FloatText double}.
Variable E : env double.

(** The HTTP layer hands [resp.json()] a decoded text: code points, none
    of them a surrogate. *)
Definition decoded_bodies : Prop :=
  forall req status body, http E req = Response status body ->
                          text_ok body = true.

Lemma fetch_outcome_json p data :
  decoded_bodies -> fetch_outcome E p = Ok data -> is_json_value data = true.
Proof.
  intros Hbodies. unfold fetch_outcome.
  destruct (http E (fetch_request p)) as [|status body] eqn:Hhttp;
    [discriminate|].
  destruct ((400 <=? status) && (status <? 600)); [discriminate|].
  apply json_loads_sound. exact (Hbodies _ _ _ Hhttp).
Qed.

Lemma is_json_value_find (d : pydict (pyval double)) k v :
  is_json_value (PDict d) = true -> dict_find d k = Some v ->
  is_json_str k = true /\ is_json_value v = true.
Proof.
  cbn [is_json_value]. intros H. apply andb_true_iff in H as [H _].
  induction d as [|[k' v'] d IH]; [discriminate|].
  cbn [forallb fst snd dict_find] in *.
  apply andb_true_iff in H as [Hkv Hd]. apply andb_true_iff in Hkv as [Hk' Hv'].
  destruct (pystr_eqb k k') eqn:Ek.
  - apply pystr_eqb_eq in Ek. subst k'. intros [= <-]. now split.
  - now apply IH.
Qed.

Lemma is_json_value_get (d : pydict (pyval double)) k :
  is_json_value (PDict d) = true -> is_json_value (dict_get d k) = true.
Proof.
  intros H. unfold dict_get. destruct (dict_find d k) as [v|] eqn:Hf;
    [|reflexivity].
  exact (proj2 (is_json_value_find d k H Hf)).
Qed.

Lemma subscript_json (v x : pyval double) k :
  is_json_value v = true -> subscript v k = Ok x -> is_json_value x = true.
Proof.
  intros Hv. destruct v; try discriminate. cbn [subscript].
  destruct (dict_find d k) as [y|] eqn:Hf; [|discriminate].
  intros [= <-]. exact (proj2 (is_json_value_find d k Hv Hf)).
Qed.

Lemma is_json_str_chars s :
  is_json_str s = true -> Forall (fun c => c < 1114112)%N s.
Proof.
  induction s as [|c r IH]; [constructor|]. cbn [is_json_str]. intros H.
  apply andb_true_iff in H as [H Hr]. apply andb_true_iff in H as [Hc _].
  constructor; [now apply N.ltb_lt|now apply IH].
Qed.

Lemma py_iter_json (v : pyval double) items :
  is_json_value v = true -> py_iter v = Ok items ->
  forallb (@is_json_value double) items = true.
Proof.
  intros Hv. destruct v; try discriminate; cbn [py_iter]; intros [= <-].
  - rewrite forallb_forall. intros x Hx. apply in_map_iff in Hx as (c & <- & Hc).
    cbn [is_json_value is_json_str]. cbn [is_json_value] in Hv.
    apply is_json_str_chars in Hv. rewrite Forall_forall in Hv.
    apply Hv in Hc. apply N.ltb_lt in Hc. rewrite Hc.
    now rewrite andb_false_r.
  - exact Hv.
  - rewrite forallb_forall. intros x Hx.
    apply in_map_iff in Hx as (k & <- & Hk). unfold dict_keys in Hk.
    apply in_map_iff in Hk as ([k' v'] & <- & Hkv). cbn [fst is_json_value].
    cbn [is_json_value] in Hv. apply andb_true_iff in Hv as [Hv _].
    rewrite forallb_forall in Hv. apply Hv in Hkv. cbn [fst snd] in Hkv.
    now apply andb_true_iff in Hkv as [Hk' _].
Qed.

(** Every record a page contributes is a value as [json.loads] builds
    them. *)
Lemma page_records_json p :
  decoded_bodies -> forallb (@is_json_value double) (page_records E p) = true.
Proof.
  intros Hbodies. unfold page_records.
  destruct (fetch_outcome E p) as [data|e] eqn:Hfetch; [|reflexivity].
  cbn [rbind]. unfold subscript2.
  destruct (subscript data (py "records")) as [recs|e] eqn:H1; [|reflexivity].
  cbn [rbind].
  destruct (subscript recs (py "page")) as [page|e] eqn:H2; [|reflexivity].
  cbn [rbind].
  destruct (py_iter page) as [items|e] eqn:H3; [|reflexivity].
  apply (py_iter_json page); [|exact H3].
  apply (subscript_json recs (py "page")); [|exact H2].
  apply (subscript_json data (py "records")); [|exact H1].
  now apply (fetch_outcome_json p).
Qed.

(** The round trip of C6 on the values the program really flattens: any
    list or mapping found in a field of a record of any page. *)
Theorem fetched_fields_read_back p d field :
  decoded_bodies -> In (PDict d) (page_records E p) ->
  is_container (dict_get d field) = true ->
  exists s, flatten_value (dict_get d field) = Ok (PStr s)
            /\ json_loads s = Ok (dict_get d field).
Proof.
  intros Hbodies Hin Hc.
  pose proof (page_records_json p Hbodies) as Hrecs.
  rewrite forallb_forall in Hrecs. apply Hrecs in Hin.
  pose proof (is_json_value_get d field Hin) as Hjson.
  destruct (json_dumps_total (dict_get d field)) as [s Hs]. exists s.
  split; [|now apply json_loads_dumps].
  destruct (dict_get d field); try discriminate; cbn [flatten_value];
    now rewrite Hs.
Qed.

End FetchedValues.

(** * The claims *)

Section Claims.
Variable double : Type.
Context {FT : FloatText double}.

Lemma first_and_loop_pages n : 1 :: py_range 2 (n + 1) = py_range 1 (Z.max 1 n + 1).
Proof.
  destruct (Z.le_gt_cases 1 n) as [Hn|Hn].
  - rewrite Z.max_r by exact Hn. rewrite (@py_range_cons 1 (n + 1)) by lia.
    reflexivity.
  - rewrite Z.max_l by lia. rewrite py_range_empty by lia. reflexivity.
Qed.

Lemma run_fetched_pages (E : env double) fs first_page total n records :
  fetch_outcome E 1 = Ok first_page ->
  search_response first_page total n records ->
  fetched_pages (trace (snd (run E fs))) = py_range 1 (Z.max 1 n + 1).
Proof.
  intros Hfetch Hvalid. rewrite run_trace.
  rewrite (accumulate_run E (start fs) Hfetch Hvalid).
  cbn [snd trace start app fetched_pages]. rewrite request_page_fetch.
  rewrite fetched_pages_loop. apply first_and_loop_pages.
Qed.

(** C1 (amended): for every valid first-page response the loop runs up to
    the reported [num_pages], and the pages requested are 1, 2, ...,
    max(1, num_pages), each once and in increasing order: exactly
    [num_pages] requests when [num_pages >= 1], and the request of page 1
    alone when the response reports no page. *)
Theorem C1_pages_fetched (E : env double) fs first_page total n records :
  fetch_outcome E 1 = Ok first_page ->
  search_response first_page total n records ->
  fetched_pages (trace (snd (run E fs))) = py_range 1 (Z.max 1 n + 1)
  /\ NoDup (fetched_pages (trace (snd (run E fs))))
  /\ (1 <= n ->
      fetched_pages (trace (snd (run E fs))) = py_range 1 (n + 1)
      /\ Z.of_nat (List.length (fetched_pages (trace (snd (run E fs))))) = n)
  /\ (n < 1 -> fetched_pages (trace (snd (run E fs))) = [1]).
Proof.
  intros Hfetch Hvalid.
  rewrite (run_fetched_pages E fs Hfetch Hvalid).
  split; [reflexivity|]. split; [apply py_range_NoDup|]. split.
  - intros Hn. rewrite Z.max_r by exact Hn. split; [reflexivity|].
    rewrite py_range_length. lia.
  - intros Hn. rewrite Z.max_l by lia. reflexivity.
Qed.

(** C4: when the fetch of page 1 raises, the run ends with that error
    after the one request, and the output file is what it was before the
    run: nothing is created, nothing is written. *)
Theorem C4_first_page_failure (E : env double) fs e :
  fetch_outcome E 1 = Raise e ->
  run E fs = (Raise e, {| trace := [EPost (fetch_request 1)]; file := fs |}).
Proof.
  intros Hfetch. rewrite run_eq.
  now rewrite (accumulate_first_failed E (start fs) Hfetch).
Qed.


Lemma collected_as_pages (E : env double) first_page total n records :
  fetch_outcome E 1 = Ok first_page ->
  search_response first_page total n records ->
  records ++ List.concat (map (page_records E) (py_range 2 (n + 1)))
  = List.concat (map (page_records E) (py_range 1 (Z.max 1 n + 1))).
Proof.
  intros Hfetch (_ & _ & Hrec). rewrite <- first_and_loop_pages.
  cbn [map List.concat].
  now rewrite (page_records_fetched E 1 Hfetch Hrec).
Qed.

(** The number of records the pages of a run hold, failed pages counting
    for none. *)
Definition records_served (E : env double) (n : Z) : nat :=
  list_sum (map (fun p => List.length (page_records E p))
              (py_range 1 (Z.max 1 n + 1))).

(** C8 (amended): after a valid first page, the records collected are
    those of the pages fetched, each page once, so their number is the
    number of records these pages hold, whatever [total_result_count]
    says: the program never compares the two.  The rows written after the
    header are at most as many as the records collected, and none is
    written when the file cannot be opened.  The number collected stays
    within the reported total whenever the pages served do. *)
Theorem C8_records_within_total (E : env double) fs first_page total n records :
  fetch_outcome E 1 = Ok first_page ->
  search_response first_page (PInt total) n records ->
  exists all_records,
    fst (accumulate E (start fs)) = Ok (PList all_records)
    /\ List.length all_records = records_served E n
    /\ (can_open E = true ->
        exists more,
          file (snd (run E fs)) = Some (header_row double :: more)
          /\ (List.length more <= List.length all_records)%nat)
    /\ (can_open E = false -> file (snd (run E fs)) = fs)
    /\ (Z.of_nat (records_served E n) <= total ->
        Z.of_nat (List.length all_records) <= total).
Proof.
  intros Hfetch Hvalid.
  exists (List.concat (map (page_records E) (py_range 1 (Z.max 1 n + 1)))).
  assert (Hlen : List.length
                   (List.concat (map (page_records E)
                                   (py_range 1 (Z.max 1 n + 1))))
                 = records_served E n).
  { unfold records_served. now rewrite length_concat, map_map. }
  pose proof (accumulate_run E (start fs) Hfetch Hvalid) as Hacc.
  rewrite (collected_as_pages E Hfetch Hvalid) in Hacc.
  split; [now rewrite Hacc|]. split; [exact Hlen|].
  split; [|split; [|lia]].
  - intros Hopen. rewrite run_eq, Hacc.
    destruct (write_csv_file E
                (PList (List.concat (map (page_records E)
                                       (py_range 1 (Z.max 1 n + 1)))))
                {| trace := trace (start fs) ++ EPost (fetch_request 1)
                              :: loop_events E (py_range 2 (n + 1)) (PList records);
                   file := file (start fs) |})
      as [[Hclosed _]|[_ (more & Hfile & Hmore)]]; [congruence|].
    exists more. split; [exact Hfile|]. exact (Hmore _ eq_refl).
  - intros Hopen. rewrite run_eq, Hacc.
    now rewrite write_csv_closed by exact Hopen.
Qed.

(** C5 (amended): the header row holds 22 fixed column names (the claim's
    own list, which has 22 entries and not 21), in this order; a run
    either leaves the file as it was or leaves a file that starts with this
    row. *)
Theorem C5_header_row (E : env double) fs :
  header_row double
  = map (fun name => PStr name)
      [ py "id"; py "fullname"; py "firstname"; py "lastname"; py "title";
        py "url"; py "gender"; py "specialties"; py "hospitals";
        py "locations"; py "image"; py "bookable"; py "gmcNumber";
        py "professionalQualifications"; py "languages";
        py "offersPaediatrics"; py "roboticAssistedSurgery";
        py "gpReferralRequired"; py "daysUntilNextAppointment";
        py "availabilityRank"; py "popularity"; py "updated_at" ]
  /\ List.length (header_row double) = 22%nat
  /\ (file (snd (run E fs)) = fs
      \/ exists more, file (snd (run E fs)) = Some (header_row double :: more)).
Proof.
  split; [reflexivity|]. split; [reflexivity|].
  rewrite run_eq. pose proof (accumulate_file E (start fs)) as Hfile.
  destruct (accumulate E (start fs)) as [[all_records|e] w]; cbn [snd] in *.
  - destruct (write_csv_file E all_records w)
      as [[_ Hsame]|[_ (more & Hmore & _)]].
    + left. now rewrite Hsame.
    + right. now exists more.
  - now left.
Qed.

(** C2: whatever keys a raw record has, its row has exactly the keys of
    [FIELDS], in that order: a key outside the list is not in the row, and a
    field the record lacks is there with the empty string. *)
Theorem C2_row_keys (d : pydict (pyval double)) :
  exists row,
    flat_row (PDict d) = Ok row
    /\ dict_keys row = FIELDS
    /\ (forall k, ~ In k FIELDS -> dict_find row k = None)
    /\ (forall f, In f FIELDS -> dict_find d f = None ->
                  dict_find row f = Some (PStr [])).
Proof.
  exists (map (fun f => (f, flattened (dict_get d f))) FIELDS).
  split; [apply flat_row_dict|]. split.
  - unfold dict_keys. rewrite map_map. cbn [fst]. apply map_id.
  - split.
    + intros k Hk. apply dict_find_not_in. unfold dict_keys.
      rewrite map_map. cbn [fst]. now rewrite map_id.
    + intros f Hf Hmissing. rewrite dict_find_map_fields.
      apply existsb_pystr_In in Hf. rewrite Hf.
      unfold dict_get. now rewrite Hmissing.
Qed.

(** C7: the flattener is total: [flatten_value] returns a value for every
    value, [rec.get(field)] and the flattening of what it gives succeed for
    every mapping and every field name, and so does the whole row.  It is a
    function of its argument alone: no world goes in or comes out. *)
Theorem C7_flattener_total :
  (forall v : pyval double, exists x, flatten_value v = Ok x)
  /\ (forall (d : pydict (pyval double)) (field : pystr),
        exists v x, py_get (PDict d) field = Ok v /\ flatten_value v = Ok x)
  /\ (forall d : pydict (pyval double), exists row, flat_row (PDict d) = Ok row).
Proof.
  split; [apply flatten_value_total|]. split.
  - intros d field. destruct (flatten_value_total (dict_get d field)) as [x Hx].
    now exists (dict_get d field), x.
  - intros d. eexists. apply flat_row_dict.
Qed.

(** C9: [flatten_value(None)] is the empty string, and a record where a
    field is null gives the same row as the record without that field. *)
Theorem C9_null_as_missing :
  flatten_value (@PNone double) = Ok (PStr [])
  /\ forall (d : pydict (pyval double)) (field : pystr),
       flat_row (PDict (dict_set d field PNone))
       = flat_row (PDict (dict_del d field)).
Proof.
  split; [reflexivity|]. intros d field. rewrite !flat_row_dict. f_equal.
  apply map_ext. intros f. f_equal. f_equal. unfold dict_get.
  destruct (pystr_eqb f field) eqn:Hf.
  - apply pystr_eqb_eq in Hf. subst f.
    now rewrite dict_find_set_same, dict_find_del_same.
  - apply pystr_eqb_neq in Hf.
    now rewrite dict_find_set_other, dict_find_del_other.
Qed.

(** C10: [flatten_value] is idempotent: flattening what it returned
    returns the same again. *)
Theorem C10_flatten_idempotent (v : pyval double) :
  rbind (flatten_value v) (@flatten_value double FT) = flatten_value v.
Proof.
  destruct (flatten_value v) as [x|e] eqn:Hx; [|reflexivity]. cbn [rbind].
  apply flatten_value_fixed. exact (flatten_value_flat v Hx).
Qed.

(** C6: for a list or a mapping, as [resp.json()] builds them, the text the
    flattener produces decodes to the value itself. *)
Theorem C6_flattened_text_reads_back (v : pyval double) :
  is_container v = true -> is_json_value v = true ->
  exists s, flatten_value v = Ok (PStr s) /\ json_loads s = Ok v.
Proof.
  intros Hc Hjson. destruct (json_dumps_total v) as [s Hs]. exists s.
  split; [|now apply json_loads_dumps].
  destruct v; try discriminate; cbn [flatten_value]; now rewrite Hs.
Qed.

End Claims.

(** ** The claims on the example runs *)

(** C1 on the three-page server: pages 1, 2 and 3 are requested. *)
Lemma C1_pages_fetched_witness :
  fetch_outcome server_three_pages 1 = Ok (response_of 3 3 [consultant 1 "Ann"])
  /\ search_response (response_of 3 3 [consultant 1 "Ann"]) (PInt 3) 3
       [consultant 1 "Ann"]
  /\ fetched_pages (trace (snd (run server_three_pages None))) = [1; 2; 3].
Proof.
  assert (Hf : fetch_outcome server_three_pages 1
               = Ok (response_of 3 3 [consultant 1 "Ann"]))
    by (vm_compute; reflexivity).
  assert (Hv : search_response (response_of 3 3 [consultant 1 "Ann"]) (PInt 3) 3
                 [consultant 1 "Ann"])
    by (repeat split; reflexivity).
  split; [exact Hf|]. split; [exact Hv|].
  exact (proj1 (C1_pages_fetched server_three_pages None Hf Hv)).
Defined.

(** The claim C1 as stated fails on an empty result: the response reports
    no page, and page 1 has been requested all the same. *)
Lemma C1_counterexample :
  fetch_outcome server_no_results 1 = Ok (response_of 0 0 [])
  /\ search_response (response_of 0 0 []) (PInt 0) 0 []
  /\ fetched_pages (trace (snd (run server_no_results None))) = [1]
  /\ Z.of_nat (List.length
                 (fetched_pages (trace (snd (run server_no_results None))))) <> 0.
Proof.
  split; [vm_compute; reflexivity|].
  split; [repeat split; reflexivity|].
  split; [vm_compute; reflexivity|].
  vm_compute. discriminate.
Qed.


(** C4 on a server that cannot be reached: no file appears. *)
Lemma C4_first_page_failure_witness :
  fetch_outcome server_down 1 = Raise ConnectionError
  /\ fst (run server_down None) = Raise ConnectionError
  /\ file (snd (run server_down None)) = None.
Proof.
  assert (Hf : fetch_outcome server_down 1 = Raise ConnectionError)
    by reflexivity.
  split; [exact Hf|].
  rewrite (C4_first_page_failure server_down None Hf).
  split; reflexivity.
Defined.

(** C5 as stated fails: the header a run writes has 22 names, not 21. *)
Lemma C5_counterexample :
  exists more,
    file (snd (run server_three_pages None)) = Some (header_row Z :: more)
    /\ List.length (header_row Z) = 22%nat
    /\ List.length (header_row Z) <> 21%nat.
Proof.
  eexists. split; [vm_compute; reflexivity|].
  split; [reflexivity|discriminate].
Qed.

(** C6 on a record with nested values, non-ASCII text and a float. *)
Lemma C6_flattened_text_reads_back_witness :
  exists s,
    flatten_value
      (PList [consultant 1 "Ann"; PStr [233; 128512; 34; 92; 10]%N;
              PFloat FNaN; PInt (-7); PList []; PDict []])
    = Ok (PStr s)
    /\ json_loads s
       = Ok (PList [consultant 1 "Ann"; PStr [233; 128512; 34; 92; 10]%N;
                    PFloat FNaN; PInt (-7); PList []; PDict []]).
Proof.
  apply C6_flattened_text_reads_back; vm_compute; reflexivity.
Defined.

(** C8 on the three-page server, whose second page fails: three records
    collected, as many as the pages that went through hold, at most three
    rows, three reported. *)
Lemma C8_records_within_total_witness :
  exists all_records,
    fst (accumulate server_three_pages (start None)) = Ok (PList all_records)
    /\ List.length all_records = 3%nat
    /\ (exists more,
          file (snd (run server_three_pages None)) = Some (header_row Z :: more)
          /\ (List.length more <= List.length all_records)%nat)
    /\ Z.of_nat (List.length all_records) <= 3.
Proof.
  assert (Hf : fetch_outcome server_three_pages 1
               = Ok (response_of 3 3 [consultant 1 "Ann"]))
    by (vm_compute; reflexivity).
  assert (Hv : search_response (response_of 3 3 [consultant 1 "Ann"]) (PInt 3) 3
                 [consultant 1 "Ann"])
    by (split; [reflexivity|]; split; reflexivity).
  assert (Hserved : records_served server_three_pages 3 = 3%nat)
    by (vm_compute; reflexivity).
  assert (Hopen : can_open server_three_pages = true) by reflexivity.
  destruct (C8_records_within_total server_three_pages None Hf Hv)
    as (all_records & Hacc & Hlen & Hrows & _ & Htotal).
  exists all_records. split; [exact Hacc|].
  split; [now rewrite Hlen|]. split; [exact (Hrows Hopen)|].
  apply Htotal. rewrite Hserved. vm_compute. discriminate.
Defined.

(** C8 as stated fails when the server reports fewer records than it
    returns: one record is collected and written, none was reported. *)
Lemma C8_counterexample :
  fetch_outcome server_miscounting 1 = Ok (response_of 0 1 [consultant 1 "Ann"])
  /\ search_response (response_of 0 1 [consultant 1 "Ann"]) (PInt 0) 1
       [consultant 1 "Ann"]
  /\ fst (accumulate server_miscounting (start None))
     = Ok (PList [consultant 1 "Ann"])
  /\ ~ (Z.of_nat (List.length [consultant 1 "Ann"]) <= 0)
  /\ file (snd (run server_miscounting None))
     = Some [header_row Z; csv_of_record (consultant 1 "Ann")].
Proof.
  split; [vm_compute; reflexivity|].
  split; [repeat split; reflexivity|].
  split; [vm_compute; reflexivity|].
  split; [vm_compute; intros H; apply H; reflexivity|].
  vm_compute. reflexivity.
Qed.

(** * Further properties of the program *)

(** ** The shape of a run, whatever the server answers *)

Section RunShape.
Variable double : Type.
Context {FT : FloatText double}.
Variable E : env double.

(** What [main] reads off the first page before the loop (lines 67 to 75):
    the two counters, the list of records, its length for the progress
    line, and [num_pages] as the bound of [range]. *)
Definition first_page_reads (first_page : pyval double)
  : result (pyval double * Z) :=
  rbind (subscript3 first_page (py "info") (py "page")
           (py "total_result_count")) (fun _ =>
  rbind (subscript3 first_page (py "info") (py "page") (py "num_pages"))
    (fun num_pages =>
  rbind (subscript2 first_page (py "records") (py "page")) (fun all_records =>
  rbind (py_len all_records) (fun _ =>
  rbind (as_int num_pages) (fun last => Ok (all_records, last)))))).

(** The accumulator on any server: it stops at the first page when the
    fetch or one of these reads raises, and runs the whole loop
    otherwise. *)
Lemma accumulate_any w :
  accumulate E w
  = match rbind (fetch_outcome E 1) first_page_reads with
    | Ok (all_records, last) =>
        (Ok (fold_left (after_page E) (py_range 2 (last + 1)) all_records),
         {| trace := trace w ++ EPost (fetch_request 1)
                       :: loop_events E (py_range 2 (last + 1)) all_records;
            file := file w |})
    | Raise e =>
        (Raise e,
         {| trace := trace w ++ [EPost (fetch_request 1)]; file := file w |})
    end.
Proof.
  unfold accumulate, bind at 1. rewrite fetch_page_run.
  destruct (fetch_outcome E 1) as [first_page|e]; [|reflexivity].
  cbn [rbind]. unfold first_page_reads, bind, lift.
  destruct (subscript3 first_page (py "info") (py "page")
              (py "total_result_count")) as [total|e]; [|reflexivity].
  cbn [rbind].
  destruct (subscript3 first_page (py "info") (py "page") (py "num_pages"))
    as [num_pages|e]; [|reflexivity].
  cbn [rbind].
  destruct (subscript2 first_page (py "records") (py "page"))
    as [all_records|e]; [|reflexivity].
  cbn [rbind]. destruct (py_len all_records) as [len|e]; [|reflexivity].
  cbn [rbind]. destruct (as_int num_pages) as [last|e]; [|reflexivity].
  cbn [rbind]. rewrite loop_run. cbn [trace file].
  now rewrite <- app_assoc.
Qed.

(** The requests of a trace, in the order they were sent. *)
Fixpoint posts (t : list (event double)) : list (request double) :=
  match t with
  | [] => []
  | EPost r :: t' => r :: posts t'
  | ESleep _ :: t' => posts t'
  end.

(** The time slept along a trace, in milliseconds. *)
Fixpoint slept (t : list (event double)) : Z :=
  match t with
  | [] => 0
  | EPost _ :: t' => slept t'
  | ESleep ms :: t' => ms + slept t'
  end.

Lemma posts_app t1 t2 : posts (t1 ++ t2) = posts t1 ++ posts t2.
Proof.
  induction t1 as [|[r|ms] t1 IH]; cbn [app posts]; [reflexivity| |exact IH].
  now rewrite IH.
Qed.

Lemma slept_app t1 t2 : slept (t1 ++ t2) = slept t1 + slept t2.
Proof.
  induction t1 as [|[r|ms] t1 IH]; cbn [app slept]; [reflexivity|exact IH|].
  rewrite IH. lia.
Qed.

Lemma posts_loop pages : forall all_records,
  posts (loop_events E pages all_records) = map (@fetch_request double) pages.
Proof.
  induction pages as [|p rest IH]; intros all_records; [reflexivity|].
  cbn [loop_events map]. rewrite posts_app, IH. unfold page_events.
  now destruct (page_step E p all_records).
Qed.

Lemma pages_from_one last :
  1 :: py_range 2 (last + 1) = py_range 1 (Z.max 1 last + 1).
Proof.
  destruct (Z.le_gt_cases 1 last) as [Hn|Hn].
  - rewrite Z.max_r by exact Hn.
    rewrite (@py_range_cons 1 (last + 1)) by lia. reflexivity.
  - rewrite Z.max_l by lia. rewrite py_range_empty by lia. reflexivity.
Qed.

(** X1: whatever the server answers, the requests of a run are the
    requests of [fetch_page] for the pages 1, 2, ..., k, in this order, for
    some k from 1 on: nothing else is ever posted, no page is requested
    twice, a failed page is not tried again. *)
Theorem run_requests fs :
  exists k, 1 <= k
            /\ posts (trace (snd (run E fs)))
               = map (@fetch_request double) (py_range 1 (k + 1)).
Proof.
  rewrite run_trace, accumulate_any.
  destruct (rbind (fetch_outcome E 1) first_page_reads) as [[all_records last]|e];
    cbn [snd trace start app posts].
  - exists (Z.max 1 last). split; [lia|].
    rewrite posts_loop, <- pages_from_one. reflexivity.
  - exists 1. split; [lia|reflexivity].
Qed.

(** Every request is directly preceded by a sleep of 0.4 s or more;
    [ready] says that the first event may be a request. *)
Fixpoint polite_after (ready : bool) (t : list (event double)) : bool :=
  match t with
  | [] => true
  | ESleep ms :: t' => polite_after (400 <=? ms) t'
  | EPost _ :: t' => ready && polite_after false t'
  end.

Definition polite (t : list (event double)) : bool := polite_after true t.

Lemma polite_loop pages : forall all_records ready,
  polite_after ready (loop_events E pages all_records) = true.
Proof.
  induction pages as [|p rest IH]; intros all_records ready; [reflexivity|].
  cbn [loop_events]. unfold page_events.
  destruct (page_step E p all_records); cbn [app polite_after];
    change (400 <=? 400) with true; cbn [andb]; [apply IH|].
  change (400 <=? 2000) with true. apply IH.
Qed.

(** X2: in every run, each request after the first comes directly after a
    sleep of at least 0.4 s: no two requests are sent back to back. *)
Theorem run_polite fs : polite (trace (snd (run E fs))) = true.
Proof.
  rewrite run_trace, accumulate_any. unfold polite.
  destruct (rbind (fetch_outcome E 1) first_page_reads) as [[all_records last]|e];
    cbn [snd trace start app polite_after andb]; [apply polite_loop|reflexivity].
Qed.

(** A page of the loop goes through when it is fetched, holds
    [records.page] and that can be iterated. *)
Definition page_ok (page_num : Z) : bool :=
  match rbind (fetch_outcome E page_num) (fun data =>
        rbind (subscript2 data (py "records") (py "page")) (@py_iter double)) with
  | Ok _ => true
  | Raise _ => false
  end.

Definition failed_pages (pages : list Z) : list Z :=
  filter (fun p => negb (page_ok p)) pages.

Lemma page_step_list l p :
  page_step E p (PList l)
  = match rbind (fetch_outcome E p) (fun data =>
          rbind (subscript2 data (py "records") (py "page")) (@py_iter double)) with
    | Ok items => Ok (PList (l ++ items))
    | Raise e => Raise e
    end.
Proof.
  unfold page_step. destruct (fetch_outcome E p) as [data|e]; [|reflexivity].
  cbn [rbind].
  destruct (subscript2 data (py "records") (py "page")) as [records|e];
    [|reflexivity].
  cbn [rbind list_extend]. now destruct (py_iter records).
Qed.

Lemma slept_loop pages : forall l,
  slept (loop_events E pages (PList l))
  = 400 * Z.of_nat (List.length pages)
    + 2000 * Z.of_nat (List.length (failed_pages pages)).
Proof.
  induction pages as [|p rest IH]; intros l; [reflexivity|].
  cbn [loop_events]. rewrite slept_app, after_page_list, IH.
  unfold failed_pages. cbn [filter List.length].
  unfold page_events, page_ok. rewrite page_step_list.
  destruct (rbind (fetch_outcome E p) (fun data =>
              rbind (subscript2 data (py "records") (py "page"))
                (@py_iter double))) as [items|e];
    cbn [app slept negb List.length]; lia.
Qed.

(** X3: with a first page that reports [n] pages, a run sleeps 0.4 s for
    each page after the first and 2 s more for each of them that fails
    (not fetched, or fetched with nothing to iterate under [records.page]);
    with one page or none it does not sleep at all. *)
Theorem run_sleeps fs first_page total n records :
  fetch_outcome E 1 = Ok first_page ->
  search_response first_page total n records ->
  slept (trace (snd (run E fs)))
  = 400 * Z.max 0 (n - 1)
    + 2000 * Z.of_nat (List.length (failed_pages (py_range 2 (n + 1)))).
Proof.
  intros Hfetch Hvalid. rewrite run_trace.
  rewrite (accumulate_run E (start fs) Hfetch Hvalid).
  cbn [snd trace start app slept]. rewrite slept_loop, py_range_length. lia.
Qed.

(** X4: a first page that was fetched and cannot be read (a key is
    missing, a level is no mapping, the records have no length,
    [num_pages] is no integer) ends the run with that error after the one
    request; the output file is not opened. *)
Theorem first_page_unreadable fs first_page e :
  fetch_outcome E 1 = Ok first_page ->
  first_page_reads first_page = Raise e ->
  run E fs = (Raise e, {| trace := [EPost (fetch_request 1)]; file := fs |}).
Proof.
  intros Hfetch Hreads. rewrite run_eq, accumulate_any, Hfetch.
  cbn [rbind]. now rewrite Hreads.
Qed.

(** X5: once the first page has been read, nothing the later pages answer
    keeps the run from the writer: with an output that can be opened the
    file is created, or emptied, and starts with the header. *)
Theorem first_page_read_file_written fs all_records last :
  rbind (fetch_outcome E 1) first_page_reads = Ok (all_records, last) ->
  can_open E = true ->
  exists more, file (snd (run E fs)) = Some (header_row double :: more).
Proof.
  intros Hreads Hopen. rewrite run_eq, accumulate_any, Hreads.
  match goal with
  | |- context [write_csv E ?a ?w] =>
      destruct (write_csv_file E a w) as [[Hclosed _]|[_ (more & Hmore & _)]]
  end; [congruence|].
  now exists more.
Qed.

(** *** The writer on records it cannot take *)

Lemma flat_row_not_dict (rec : pyval double) :
  is_dict rec = false -> flat_row rec = Raise AttributeError.
Proof. destruct rec; try discriminate; reflexivity. Qed.

Lemma write_rows_stop good : forall bad rest rows t,
  forallb (@writable double FT) good = true ->
  writable bad = false ->
  for_each (good ++ bad :: rest) (@write_record double FT) tt
    {| trace := t; file := Some rows |}
  = (Raise (if is_dict bad then UnicodeEncodeError else AttributeError),
     {| trace := t; file := Some (rows ++ map (@csv_of_record double FT) good) |}).
Proof.
  induction good as [|g good IH]; intros bad rest rows t Hgood Hbad.
  - cbn [app map]. rewrite app_nil_r, for_each_cons, write_record_run.
    unfold writable in Hbad. destruct (is_dict bad) eqn:Hd.
    + destruct bad; try discriminate. cbn [andb] in Hbad.
      unfold csv_of_record in Hbad. rewrite (flat_row_dict d) in Hbad |- *.
      now rewrite Hbad.
    + now rewrite (flat_row_not_dict bad Hd).
  - cbn [forallb] in Hgood. apply andb_true_iff in Hgood as [Hg Hgood].
    unfold writable in Hg. apply andb_true_iff in Hg as [Hdict Henc].
    destruct g; try discriminate.
    unfold csv_of_record in Henc. rewrite (flat_row_dict d) in Henc.
    rewrite <- app_comm_cons, for_each_cons, write_record_run,
      (flat_row_dict d), Henc.
    rewrite IH by assumption.
    cbn [map]. unfold csv_of_record at 2. rewrite (flat_row_dict d).
    now rewrite <- app_assoc.
Qed.

Lemma first_unwritable (recs : list (pyval double)) :
  forallb (@writable double FT) recs = true
  \/ exists good bad rest,
       recs = good ++ bad :: rest
       /\ forallb (@writable double FT) good = true
       /\ writable bad = false.
Proof.
  induction recs as [|rec recs IH]; [now left|].
  destruct (writable rec) eqn:Hrec.
  - destruct IH as [Hall|(good & bad & rest & -> & Hgood & Hbad)].
    + left. cbn [forallb]. now rewrite Hrec.
    + right. exists (rec :: good), bad, rest. split; [reflexivity|].
      split; [|exact Hbad]. cbn [forallb]. now rewrite Hrec.
  - right. exists [], rec, recs. split; [reflexivity|].
    split; [reflexivity|exact Hrec].
Qed.

(** X6: the writer stops at the first record it cannot take, one that is
    no mapping ([AttributeError] at [rec.get]) or one with a surrogate in a
    string cell ([UnicodeEncodeError] in the UTF-8 file), and nothing is
    undone: the run ends with that error and leaves a file with the header
    and the rows of the records before it; the records after it are
    lost. *)
Theorem unwritable_record_truncates fs good bad rest :
  fst (accumulate E (start fs)) = Ok (PList (good ++ bad :: rest)) ->
  can_open E = true ->
  forallb (@writable double FT) good = true ->
  writable bad = false ->
  fst (run E fs)
  = Raise (if is_dict bad then UnicodeEncodeError else AttributeError)
  /\ file (snd (run E fs))
     = Some (header_row double :: map (@csv_of_record double FT) good).
Proof.
  intros Hacc Hopen Hgood Hbad. rewrite run_eq.
  destruct (accumulate E (start fs)) as [[a|e] w]; cbn [fst] in Hacc;
    [|discriminate].
  assert (Ha : a = PList (good ++ bad :: rest)) by congruence. subst a.
  rewrite write_csv_open by exact Hopen. cbn [py_iter].
  rewrite write_rows_stop by assumption. split; reflexivity.
Qed.

(** X7: the output file is opened only after the last page: when it cannot
    be opened, every page has been requested by then, the run ends with
    [OSError] and what the path held is untouched. *)
Theorem output_unwritable fs all_records last :
  rbind (fetch_outcome E 1) first_page_reads = Ok (all_records, last) ->
  can_open E = false ->
  fst (run E fs) = Raise OSError
  /\ file (snd (run E fs)) = fs
  /\ posts (trace (snd (run E fs)))
     = map (@fetch_request double) (py_range 1 (Z.max 1 last + 1)).
Proof.
  intros Hreads Hopen. rewrite run_eq, accumulate_any, Hreads.
  rewrite write_csv_closed by exact Hopen.
  cbn [fst snd file trace start app posts].
  split; [reflexivity|]. split; [reflexivity|].
  now rewrite posts_loop, <- pages_from_one.
Qed.

(** The records the pages after the first add: those of each page that
    went through, in page order, when the first page gave a list to
    extend; none when it gave something else, which has no [extend], so
    that every round of the loop fails. *)
Definition later_records (all_records : pyval double) (last : Z)
  : list (pyval double) :=
  match all_records with
  | PList _ => List.concat (map (page_records E) (py_range 2 (last + 1)))
  | _ => []
  end.

Lemma after_page_no_list (acc : pyval double) p :
  (forall l, acc <> PList l) -> after_page E acc p = acc.
Proof.
  intros Hacc. unfold after_page, page_step.
  destruct (fetch_outcome E p) as [data|e]; [|reflexivity]. cbn [rbind].
  destruct (subscript2 data (py "records") (py "page")) as [records|e];
    [|reflexivity].
  cbn [rbind]. destruct acc; try reflexivity. now destruct (Hacc l).
Qed.

Lemma fold_after_page_no_list pages (acc : pyval double) :
  (forall l, acc <> PList l) -> fold_left (after_page E) pages acc = acc.
Proof.
  intros Hacc. induction pages as [|p rest IH]; [reflexivity|].
  cbn [fold_left]. now rewrite after_page_no_list.
Qed.

(** What the writer iterates over after the loop: what iterating the
    records of the first page gives, then the records of the later
    pages. *)
Lemma collected_iter (all_records : pyval double) last :
  py_iter (fold_left (after_page E) (py_range 2 (last + 1)) all_records)
  = match py_iter all_records with
    | Ok recs => Ok (recs ++ later_records all_records last)
    | Raise e => Raise e
    end.
Proof.
  destruct all_records;
    try (rewrite fold_after_page_no_list by (intros l' H; discriminate H);
         cbn [py_iter later_records]; now rewrite ?app_nil_r).
  now rewrite fold_after_page_list.
Qed.

(** X8: when a run ends well: exactly when the output can be opened, the
    first page is fetched, it is read (the counters, the records and their
    length, the page count as an integer), and every record the writer
    meets is one it can take: what iterating the records of the first page
    gives, then the records of the later pages that went through.  Nothing
    is asked of the later pages: one that fails adds no record and never
    makes the run fail. *)
Theorem run_succeeds_iff fs :
  fst (run E fs) = Ok tt
  <-> can_open E = true
      /\ exists first_page all_records last recs,
           fetch_outcome E 1 = Ok first_page
           /\ first_page_reads first_page = Ok (all_records, last)
           /\ py_iter all_records = Ok recs
           /\ forallb (@writable double FT)
                (recs ++ later_records all_records last) = true.
Proof.
  rewrite run_eq, accumulate_any.
  destruct (fetch_outcome E 1) as [first_page|e] eqn:Hfetch; cbn [rbind];
    [|split; [discriminate
             |intros (_ & fp & a & l & r & H & _); discriminate]].
  destruct (first_page_reads first_page) as [[all_records last]|e] eqn:Hreads;
    [|split; [discriminate|];
      intros (_ & fp & a & l & r & H1 & H2 & _);
      assert (fp = first_page) by congruence; subst fp; congruence].
  destruct (can_open E) eqn:Hopen;
    [|rewrite write_csv_closed by exact Hopen;
      split; [discriminate|intros [H _]; discriminate]].
  rewrite write_csv_open by exact Hopen. rewrite collected_iter.
  destruct (py_iter all_records) as [recs|e] eqn:Hiter.
  - destruct (first_unwritable (recs ++ later_records all_records last))
      as [Hall|(good & bad & rest & Heq & Hgood & Hbad)].
    + rewrite write_rows_run by exact Hall. split; [|reflexivity].
      intros _. split; [reflexivity|]. exists first_page, all_records, last, recs.
      split; [reflexivity|]. split; [exact Hreads|].
      split; [exact Hiter|exact Hall].
    + rewrite Heq, write_rows_stop by assumption. cbn [fst].
      split; [discriminate|].
      intros (_ & fp & a & l & r & H1 & H2 & H3 & Hall).
      assert (fp = first_page) by congruence. subst fp.
      assert (a = all_records /\ l = last) as [-> ->]
        by (split; congruence).
      assert (r = recs) by congruence. subst r.
      rewrite Heq, forallb_app in Hall. cbn [forallb] in Hall.
      rewrite Hbad in Hall. rewrite andb_false_r in Hall. discriminate.
  - split; [discriminate|].
    intros (_ & fp & a & l & r & H1 & H2 & H3 & _).
    assert (fp = first_page) by congruence. subst fp.
    assert (a = all_records) by congruence. subst a. congruence.
Qed.

(** X9: what the output path held before the run has no part in it: two
    runs against the same server end alike and make the same requests, and
    either both leave the path as it was or both leave the same file (the
    file is opened for writing, never for appending). *)
Theorem previous_content_irrelevant fs fs' :
  fst (run E fs) = fst (run E fs')
  /\ trace (snd (run E fs)) = trace (snd (run E fs'))
  /\ ((file (snd (run E fs)) = fs /\ file (snd (run E fs')) = fs')
      \/ file (snd (run E fs)) = file (snd (run E fs'))).
Proof.
  rewrite !run_eq, !accumulate_any.
  destruct (rbind (fetch_outcome E 1) first_page_reads) as [[all_records last]|e];
    cbn [start trace file app].
  - destruct (can_open E) eqn:Hopen.
    + rewrite !write_csv_open by exact Hopen. cbn [trace].
      split; [reflexivity|]. split; [reflexivity|]. now right.
    + rewrite !write_csv_closed by exact Hopen. cbn [fst snd trace file].
      split; [reflexivity|]. split; [reflexivity|]. left. now split.
  - cbn [fst snd trace file].
    split; [reflexivity|]. split; [reflexivity|]. left. now split.
Qed.

(** *** The rows of the file *)

Lemma csv_of_dict (d : pydict (pyval double)) :
  csv_of_record (PDict d) = map (fun f => flattened (dict_get d f)) FIELDS.
Proof.
  unfold csv_of_record. rewrite flat_row_dict. unfold dict_to_list.
  apply map_ext_in. intros k Hk. rewrite dict_find_map_fields.
  apply existsb_pystr_In in Hk. now rewrite Hk.
Qed.

(** X10: the cells of a record's row stand under their columns: for each
    name of [FIELDS], in order, the cell is [flatten_value(rec.get(name))];
    the row built as a dictionary and read back by [DictWriter] loses and
    moves nothing. *)
Theorem cells_under_columns (d : pydict (pyval double)) :
  Forall2 (fun name cell => flatten_value (dict_get d name) = Ok cell)
    FIELDS (csv_of_record (PDict d)).
Proof.
  rewrite csv_of_dict. induction FIELDS as [|f fs IH]; cbn [map].
  - constructor.
  - constructor; [apply flatten_value_flattened|exact IH].
Qed.

(** X11: a key that is no column has no part in the row: setting it in a
    record, to any value, leaves every cell as it was. *)
Theorem other_keys_ignored (d : pydict (pyval double)) k v :
  ~ In k FIELDS ->
  csv_of_record (PDict (dict_set d k v)) = csv_of_record (PDict d).
Proof.
  intros Hk. rewrite !csv_of_dict. apply map_ext_in. intros f Hf.
  unfold dict_get. rewrite dict_find_set_other; [reflexivity|].
  intros ->. contradiction.
Qed.

(** A row as [csv.writer] can take it in this file: as many cells as the
    header, each a scalar other than [None], each one UTF-8 can encode. *)
Definition well_formed_row (row : csv_row double) : Prop :=
  List.length row = 22%nat
  /\ forallb (@is_flat double) row = true
  /\ forallb (@cell_encodable double) row = true.

Lemma header_well_formed : well_formed_row (header_row double).
Proof. split; [reflexivity|]. split; reflexivity. Qed.

Lemma written_row_well_formed (rec : pyval double) row :
  flat_row rec = Ok row ->
  forallb (@cell_encodable double) (dict_to_list row) = true ->
  well_formed_row (dict_to_list row).
Proof.
  intros Hrow Henc. split; [unfold dict_to_list; now rewrite length_map|].
  split; [|exact Henc].
  destruct (is_dict rec) eqn:Hd;
    [|rewrite (flat_row_not_dict rec Hd) in Hrow; discriminate].
  destruct rec; try discriminate.
  pose proof (csv_of_dict d) as Hcells. unfold csv_of_record in Hcells.
  rewrite Hrow in Hcells. rewrite Hcells. apply forallb_forall.
  intros x Hx. apply in_map_iff in Hx as (f & <- & _).
  exact (flatten_value_flat _ (flatten_value_flattened (dict_get d f))).
Qed.

Lemma write_rows_shape recs : forall rows t,
  exists r more,
    for_each recs (@write_record double FT) tt {| trace := t; file := Some rows |}
    = (r, {| trace := t; file := Some (rows ++ more) |})
    /\ Forall well_formed_row more.
Proof.
  induction recs as [|rec recs IH]; intros rows t.
  - exists (Ok tt), []. cbn. rewrite app_nil_r. split; [reflexivity|constructor].
  - rewrite for_each_cons, write_record_run.
    destruct (flat_row rec) as [row|e] eqn:Hrow.
    + destruct (forallb (@cell_encodable double) (dict_to_list row)) eqn:Henc.
      * destruct (IH (rows ++ [dict_to_list row]) t)
          as (r & more & Hrun & Hwf).
        exists r, (dict_to_list row :: more). cbv beta iota. rewrite Hrun.
        split; [now rewrite <- app_assoc|].
        constructor; [exact (written_row_well_formed rec Hrow Henc)|exact Hwf].
      * exists (Raise UnicodeEncodeError), []. rewrite app_nil_r.
        split; [reflexivity|constructor].
    + exists (Raise e), []. rewrite app_nil_r. split; [reflexivity|constructor].
Qed.

(** X12: whatever the server sends and wherever the run stops, a file the
    run has written is a table: the header and every row have 22 cells,
    no cell is a list, a mapping or [None], and every cell can be encoded
    in UTF-8. *)
Theorem rows_well_formed fs :
  file (snd (run E fs)) = fs
  \/ exists rows, file (snd (run E fs)) = Some rows
                  /\ Forall well_formed_row rows.
Proof.
  rewrite run_eq. pose proof (accumulate_file E (start fs)) as Hfile.
  destruct (accumulate E (start fs)) as [[all_records|e] w]; cbn [snd] in *;
    [|now left].
  destruct (can_open E) eqn:Hopen;
    [|left; now rewrite write_csv_closed by exact Hopen].
  right. rewrite write_csv_open by exact Hopen.
  destruct (py_iter all_records) as [recs|e].
  - destruct (write_rows_shape recs [header_row double] (trace w))
      as (r & more & Hrun & Hwf).
    rewrite Hrun. exists ([header_row double] ++ more).
    split; [reflexivity|].
    constructor; [exact header_well_formed|exact Hwf].
  - exists [header_row double]. split; [reflexivity|].
    constructor; [exact header_well_formed|constructor].
Qed.

(** X13: a run whose pages hold records the writer can take ends well and
    leaves the header and one row a record, in page order: the records of
    page 1, then those of each later page that went through; with no
    record at all the file is the header alone. *)
Theorem run_writes_all_records fs first_page total n records :
  fetch_outcome E 1 = Ok first_page ->
  search_response first_page total n records ->
  can_open E = true ->
  forallb (@writable double FT)
    (records ++ List.concat (map (page_records E) (py_range 2 (n + 1)))) = true ->
  fst (run E fs) = Ok tt
  /\ file (snd (run E fs))
     = Some (header_row double
               :: map (@csv_of_record double FT)
                    (records ++ List.concat (map (page_records E)
                                               (py_range 2 (n + 1))))).
Proof.
  intros Hfetch Hvalid Hopen Hrecs. rewrite run_eq.
  rewrite (accumulate_run E (start fs) Hfetch Hvalid).
  rewrite (write_csv_run E _ _ Hopen Hrecs). split; reflexivity.
Qed.

End RunShape.

(** ** The text of a flattened list or mapping *)

Section FlatText.
#[local] Open Scope N_scope.
Variable double : Type.
Context {FT : FloatText double}.

(** The characters from the space to the tilde. *)
Definition printable (c : pychar) : bool := (32 <=? c) && (c <=? 126).

Definition all_printable (s : pystr) : bool := forallb printable s.

Lemma all_printable_app s t :
  all_printable s = true -> all_printable t = true ->
  all_printable (s ++ t) = true.
Proof.
  unfold all_printable. intros Hs Ht. now rewrite forallb_app, Hs, Ht.
Qed.

Lemma hex_digit_printable d : d < 16 -> printable (hex_digit d) = true.
Proof.
  intros Hd.
  assert (H : d = 0 \/ d = 1 \/ d = 2 \/ d = 3 \/ d = 4 \/ d = 5 \/ d = 6
              \/ d = 7 \/ d = 8 \/ d = 9 \/ d = 10 \/ d = 11 \/ d = 12
              \/ d = 13 \/ d = 14 \/ d = 15) by lia.
  repeat (destruct H as [->|H]; [reflexivity|]). now subst.
Qed.

Lemma u_escape_printable n : all_printable (u_escape n) = true.
Proof.
  assert (Hlt : forall x, N.land x 15 < 16).
  { intros x. rewrite land_15. apply N.mod_lt. discriminate. }
  unfold all_printable, u_escape, hex4. cbn [forallb].
  now rewrite !hex_digit_printable by apply Hlt.
Qed.

Lemma escape_char_printable c : all_printable (escape_char c) = true.
Proof.
  unfold escape_char.
  destruct (c =? BACKSLASH); [reflexivity|].
  destruct (c =? QUOTE); [reflexivity|].
  destruct (c =? 8); [reflexivity|].
  destruct (c =? 12); [reflexivity|].
  destruct (c =? 10); [reflexivity|].
  destruct (c =? 13); [reflexivity|].
  destruct (c =? 9); [reflexivity|].
  destruct ((32 <=? c) && (c <=? 126)) eqn:Hc.
  - unfold all_printable, printable. cbn [forallb]. now rewrite Hc.
  - destruct (c <? 65536); [apply u_escape_printable|].
    cbv zeta. apply all_printable_app; apply u_escape_printable.
Qed.

Lemma encode_basestring_ascii_printable s :
  all_printable (encode_basestring_ascii s) = true.
Proof.
  unfold encode_basestring_ascii.
  apply (all_printable_app [QUOTE]); [reflexivity|].
  apply all_printable_app; [|reflexivity].
  induction s as [|c s IH]; [reflexivity|]. cbn [flat_map].
  apply all_printable_app; [apply escape_char_printable|exact IH].
Qed.

Lemma digits_printable s : forallb is_digit s = true -> all_printable s = true.
Proof.
  unfold all_printable. rewrite !forallb_forall. intros H c Hc.
  specialize (H c Hc). unfold is_digit in H. unfold printable.
  apply andb_true_iff in H as [H1 H2].
  apply N.leb_le in H1. apply N.leb_le in H2.
  apply andb_true_iff. split; apply N.leb_le; lia.
Qed.

Lemma int_repr_printable z : all_printable (int_repr z) = true.
Proof.
  unfold int_repr. destruct (Z.to_int z) as [d|d].
  - apply digits_printable, uint_chars_digits.
  - apply (all_printable_app [ord "-"]); [reflexivity|].
    apply digits_printable, uint_chars_digits.
Qed.

Lemma float_literal_printable s : float_literal s -> all_printable s = true.
Proof.
  intros (i & fr & ex & -> & Hi & Hfr & Hex & _).
  apply all_printable_app; [|apply all_printable_app].
  - destruct Hi as (sg & ds & -> & Hsg & [_ Hds] & _).
    apply all_printable_app; [|now apply digits_printable].
    destruct Hsg as [->| ->]; reflexivity.
  - destruct Hfr as [->|(ds & -> & [_ Hds])]; [reflexivity|].
    apply (all_printable_app [ord "."]); [reflexivity|].
    now apply digits_printable.
  - destruct Hex as [->|(e & sg & ds & -> & He & Hsg & [_ Hds])];
      [reflexivity|].
    apply (all_printable_app [e]);
      [destruct He as [->| ->]; reflexivity|].
    apply all_printable_app; [|now apply digits_printable].
    destruct Hsg as [->|[->| ->]]; reflexivity.
Qed.

Lemma floatstr_printable (f : pyfloat double) s :
  floatstr true f = Ok s -> all_printable s = true.
Proof.
  destruct f as [|[|]|d]; cbn [floatstr]; intros [= <-]; try reflexivity.
  apply float_literal_printable, float_repr_literal.
Qed.

Lemma join_printable sep items :
  all_printable sep = true ->
  Forall (fun x => all_printable x = true) items ->
  all_printable (join sep items) = true.
Proof.
  intros Hsep. induction 1 as [|x l Hx Hl IH]; [reflexivity|].
  destruct l as [|y l']; [exact Hx|].
  change (join sep (x :: y :: l')) with (x ++ sep ++ join sep (y :: l')).
  apply all_printable_app; [exact Hx|]. now apply all_printable_app.
Qed.

Lemma mapM_Forall A B (f : A -> result B) (P : B -> Prop) l : forall ys,
  Forall (fun x => forall y, f x = Ok y -> P y) l ->
  mapM f l = Ok ys -> Forall P ys.
Proof.
  induction l as [|x l IH]; intros ys Hl Hm.
  - cbn [mapM] in Hm. assert (ys = []) by congruence. subst ys. constructor.
  - apply mapM_cons_inv in Hm as (y & ys' & Hy & Hys & ->).
    apply Forall_cons_iff in Hl as [Hx Hl].
    constructor; [now apply Hx|now apply IH].
Qed.

(** With [ensure_ascii=True] the encoder writes nothing but printable
    ASCII. *)
Lemma encode_printable (v : pyval double) :
  forall s, encode true v = Ok s -> all_printable s = true.
Proof.
  induction v as [| [] | z | f | s0 | l IH | d IH] using pyval_ind; intros s.
  - cbn [encode]. now intros [= <-].
  - cbn [encode]. now intros [= <-].
  - cbn [encode]. now intros [= <-].
  - cbn [encode]. intros [= <-]. apply int_repr_printable.
  - cbn [encode]. apply floatstr_printable.
  - cbn [encode]. intros [= <-]. apply encode_basestring_ascii_printable.
  - rewrite encode_list.
    destruct (mapM (encode true) l) as [items|e] eqn:Hm; [|discriminate].
    intros [= <-]. apply (all_printable_app [ord "["]); [reflexivity|].
    apply all_printable_app; [|reflexivity].
    apply join_printable; [reflexivity|].
    exact (@mapM_Forall _ _ (encode true) (fun x => all_printable x = true)
             l items IH Hm).
  - rewrite encode_dict.
    destruct (mapM (encode_item true) d) as [items|e] eqn:Hm; [|discriminate].
    intros [= <-]. apply (all_printable_app [ord "{"]); [reflexivity|].
    apply all_printable_app; [|reflexivity].
    apply join_printable; [reflexivity|].
    apply (@mapM_Forall _ _ (encode_item true)
             (fun x => all_printable x = true) d items); [|exact Hm].
    eapply Forall_impl; [|exact IH]. intros kv Hkv y. unfold encode_item.
    destruct (encode true (snd kv)) as [t|e] eqn:Ht; [|discriminate].
    intros [= <-].
    apply all_printable_app; [apply encode_basestring_ascii_printable|].
    apply (all_printable_app (py ": ")); [reflexivity|]. now apply Hkv.
Qed.

(** X14: the cell [flatten_value] makes of a list or a mapping holds
    printable ASCII only, from the space to the tilde, whatever the strings
    inside: no line break, no control character, nothing UTF-8 could
    refuse; such a cell never stops the writer. *)
Theorem flattened_text_printable (v : pyval double) s :
  is_container v = true ->
  flatten_value v = Ok (PStr s) ->
  Forall (fun c => 32 <= c <= 126) s
  /\ cell_encodable (PStr (double := double) s) = true.
Proof.
  intros Hc Hflat.
  assert (Hs : all_printable s = true).
  { apply (encode_printable v).
    destruct v; try discriminate; cbn [flatten_value] in Hflat;
      unfold json_dumps in Hflat;
      match type of Hflat with
      | match ?r with Ok _ => _ | Raise _ => _ end = _ =>
          destruct r; [|discriminate]
      end; congruence. }
  unfold all_printable in Hs. rewrite forallb_forall in Hs.
  assert (Hall : forall c, In c s -> 32 <= c <= 126).
  { intros c Hin. specialize (Hs c Hin). unfold printable in Hs.
    apply andb_true_iff in Hs as [H1 H2].
    apply N.leb_le in H1. apply N.leb_le in H2. lia. }
  split; [now apply Forall_forall|].
  cbn [cell_encodable]. apply forallb_forall. intros c Hin.
  specialize (Hall c Hin). unfold is_surrogate.
  assert (H : (55296 <=? c) = false) by (apply N.leb_gt; lia).
  now rewrite H.
Qed.

(** X15: on the lists and mappings that [resp.json()] builds,
    [flatten_value] is injective: two values that differ never give the
    same cell. *)
Theorem flatten_value_injective (v v' : pyval double) :
  is_container v = true -> is_container v' = true ->
  is_json_value v = true -> is_json_value v' = true ->
  flatten_value v = flatten_value v' -> v = v'.
Proof.
  intros Hc Hc' Hj Hj' Heq.
  destruct (json_dumps_total v) as [s Hs].
  destruct (json_dumps_total v') as [s' Hs'].
  assert (Hf : flatten_value v = Ok (PStr s))
    by (destruct v; try discriminate; cbn [flatten_value]; now rewrite Hs).
  assert (Hf' : flatten_value v' = Ok (PStr s'))
    by (destruct v'; try discriminate; cbn [flatten_value]; now rewrite Hs').
  assert (Hss : s = s') by congruence. subst s'.
  pose proof (json_loads_dumps v Hj Hs) as Hl.
  pose proof (json_loads_dumps v' Hj' Hs') as Hl'. congruence.
Qed.

End FlatText.

(** ** What is collected, and what is written of it *)

Section Collected.
Variable double : Type.
Context {FT : FloatText double}.
Variable E : env double.

Lemma after_page_json (acc : pyval double) p :
  decoded_bodies E -> is_json_value acc = true ->
  is_json_value (after_page E acc p) = true.
Proof.
  intros Hbodies Hacc. unfold after_page, page_step.
  destruct (fetch_outcome E p) as [data|e] eqn:Hfetch; [|exact Hacc].
  cbn [rbind]. unfold subscript2.
  destruct (subscript data (py "records")) as [recs|e] eqn:H1; [|exact Hacc].
  cbn [rbind].
  destruct (subscript recs (py "page")) as [page|e] eqn:H2; [|exact Hacc].
  cbn [rbind]. unfold list_extend.
  destruct acc; try exact Hacc.
  destruct (py_iter page) as [items|e] eqn:H3; [|exact Hacc].
  cbn [is_json_value] in Hacc |- *. rewrite forallb_app, Hacc.
  apply (py_iter_json page); [|exact H3].
  apply (subscript_json recs (py "page")); [|exact H2].
  apply (subscript_json data (py "records")); [|exact H1].
  eapply fetch_outcome_json; eassumption.
Qed.

Lemma fold_after_page_json pages : forall acc,
  decoded_bodies E -> is_json_value acc = true ->
  is_json_value (fold_left (after_page E) pages acc) = true.
Proof.
  induction pages as [|p rest IH]; intros acc Hbodies Hacc; [exact Hacc|].
  cbn [fold_left]. apply IH; [exact Hbodies|now apply after_page_json].
Qed.

Lemma first_page_reads_json (first_page all_records : pyval double) last :
  is_json_value first_page = true ->
  first_page_reads first_page = Ok (all_records, last) ->
  is_json_value all_records = true.
Proof.
  intros Hjson. unfold first_page_reads.
  destruct (subscript3 first_page (py "info") (py "page")
              (py "total_result_count")) as [total|e]; [|discriminate].
  cbn [rbind].
  destruct (subscript3 first_page (py "info") (py "page") (py "num_pages"))
    as [num_pages|e]; [|discriminate].
  cbn [rbind]. unfold subscript2.
  destruct (subscript first_page (py "records")) as [recs|e] eqn:H1;
    [|discriminate].
  cbn [rbind].
  destruct (subscript recs (py "page")) as [page|e] eqn:H2; [|discriminate].
  cbn [rbind]. destruct (py_len page) as [len|e]; [|discriminate].
  cbn [rbind]. destruct (as_int num_pages) as [z|e]; [|discriminate].
  cbn [rbind]. intros H. assert (page = all_records) by congruence. subst page.
  apply (subscript_json recs (py "page")); [|exact H2].
  now apply (subscript_json first_page (py "records")).
Qed.

(** Whatever a run collects is a value as [json.loads] builds them. *)
Lemma accumulate_json w (all_records : pyval double) :
  decoded_bodies E -> fst (accumulate E w) = Ok all_records ->
  is_json_value all_records = true.
Proof.
  intros Hbodies. rewrite accumulate_any.
  destruct (fetch_outcome E 1) as [first_page|e] eqn:Hfetch; [|discriminate].
  cbn [rbind].
  destruct (first_page_reads first_page) as [[records last]|e] eqn:Hreads;
    [|discriminate].
  cbn [fst]. intros H.
  assert (Hall : fold_left (after_page E) (py_range 2 (last + 1)) records
                 = all_records) by congruence.
  rewrite <- Hall. apply fold_after_page_json; [exact Hbodies|].
  eapply first_page_reads_json; [|exact Hreads].
  eapply fetch_outcome_json; eassumption.
Qed.

(** X16: from the response to the cell: for every record a run collects
    and every column that holds a list or a mapping in it, the cell of
    that column is a text that [json.loads] reads back to the value the
    server sent. *)
Theorem collected_fields_read_back fs recs d field :
  decoded_bodies E ->
  fst (accumulate E (start fs)) = Ok (PList recs) ->
  In (PDict d) recs ->
  In field FIELDS ->
  is_container (dict_get d field) = true ->
  exists row s,
    flat_row (PDict d) = Ok row
    /\ dict_find row field = Some (PStr s)
    /\ json_loads s = Ok (dict_get d field).
Proof.
  intros Hbodies Hacc Hin Hfield Hc.
  pose proof (accumulate_json (start fs) Hbodies Hacc) as Hjson.
  cbn [is_json_value] in Hjson. rewrite forallb_forall in Hjson.
  apply Hjson in Hin.
  pose proof (is_json_value_get d field Hin) as Hvalue.
  destruct (json_dumps_total (dict_get d field)) as [s Hs].
  exists (map (fun f => (f, flattened (dict_get d f))) FIELDS), s.
  split; [apply flat_row_dict|].
  split; [|now apply json_loads_dumps].
  rewrite dict_find_map_fields. apply existsb_pystr_In in Hfield.
  rewrite Hfield. unfold flattened.
  destruct (dict_get d field); try discriminate; cbn [flatten_value];
    now rewrite Hs.
Qed.

End Collected.

(** ** These properties on example runs *)

(** A first page whose page count is a float. *)
Definition float_pages_response : pyval Z :=
  PDict
    [ (py "info",
       PDict [(py "page",
               PDict [(py "total_result_count", PInt 1);
                      (py "num_pages", PFloat (FFinite 1))])]);
      (py "records", PDict [(py "page", PList [consultant 1 "Ann"])]) ].

Definition server_float_pages : env Z :=
  {| http := fun _ => Response 200 (body_of float_pages_response);
     can_open := true |}.

(** A record whose name holds a lone surrogate: the body spells it as an
    escape, which [json.loads] accepts. *)
Definition nameless : pyval Z :=
  PDict [(py "id", PInt 2); (py "fullname", PStr [55296%N])].

Definition server_lone_surrogate : env Z :=
  {| http := fun _ =>
       Response 200
         (body_of (response_of 3 1 [consultant 1 "Ann"; nameless;
                                    consultant 3 "Cy"]));
     can_open := true |}.

(** Two pages, both of which go through. *)
Definition server_two_pages : env Z :=
  {| http := fun r =>
       match request_page r with
       | Some 1 =>
           Response 200
             (body_of (response_of 3 2 [consultant 1 "Ann"; consultant 2 "Bob"]))
       | Some 2 => Response 200 (body_of (response_of 3 2 [consultant 3 "Cy"]))
       | _ => NoResponse
       end;
     can_open := true |}.

(** The three-page server, with an output path that cannot be opened. *)
Definition server_read_only : env Z :=
  {| http := http server_three_pages; can_open := false |}.

(** A nested value with text outside ASCII and a line break. *)
Definition nested_value : pyval Z :=
  PList [PStr [233; 128512; 10]%N; consultant 1 "Ann"; PFloat FNaN].

Definition fields_of (v : pyval Z) : pydict (pyval Z) :=
  match v with
  | PDict d => d
  | _ => []
  end.

Lemma three_pages_decoded : decoded_bodies server_three_pages.
Proof.
  intros req status body. unfold server_three_pages. cbn [http].
  destruct (request_page req) as [[|[[]|[]|]|]|]; intros H;
    try discriminate H; vm_compute in H;
    assert (Hb : body = match Response status body with
                        | Response _ b => b
                        | NoResponse => []
                        end) by reflexivity;
    rewrite <- H in Hb; rewrite Hb; vm_compute; reflexivity.
Qed.

(** X3 on the three-page server: two sleeps of 0.4 s and, page 2 failing,
    one of 2 s. *)
Lemma run_sleeps_witness :
  failed_pages server_three_pages (py_range 2 (3 + 1)) = [2]
  /\ slept (trace (snd (run server_three_pages None))) = 2800.
Proof.
  assert (Hf : fetch_outcome server_three_pages 1
               = Ok (response_of 3 3 [consultant 1 "Ann"]))
    by (vm_compute; reflexivity).
  assert (Hv : search_response (response_of 3 3 [consultant 1 "Ann"]) (PInt 3) 3
                 [consultant 1 "Ann"])
    by (split; [reflexivity|]; split; reflexivity).
  split; [vm_compute; reflexivity|].
  rewrite (@run_sleeps Z whole_floats server_three_pages None _ _ _ _ Hf Hv).
  vm_compute. reflexivity.
Defined.

(** X4 on a first page whose [num_pages] is 1.0: [range] refuses it. *)
Lemma first_page_unreadable_witness :
  fetch_outcome server_float_pages 1 = Ok float_pages_response
  /\ first_page_reads float_pages_response = Raise TypeError
  /\ run server_float_pages None
     = (Raise TypeError, {| trace := [EPost (fetch_request 1)]; file := None |}).
Proof.
  assert (Hf : fetch_outcome server_float_pages 1 = Ok float_pages_response)
    by (vm_compute; reflexivity).
  assert (Hr : first_page_reads float_pages_response = Raise TypeError)
    by reflexivity.
  split; [exact Hf|]. split; [exact Hr|].
  exact (@first_page_unreadable Z whole_floats server_float_pages None _ _ Hf Hr).
Defined.

(** X5 on the three-page server, whose second page fails. *)
Lemma first_page_read_file_written_witness :
  exists more,
    file (snd (run server_three_pages None)) = Some (header_row Z :: more).
Proof.
  apply (@first_page_read_file_written Z whole_floats server_three_pages None
           (PList [consultant 1 "Ann"]) 3); vm_compute; reflexivity.
Defined.

(** X6 on the record with a lone surrogate: the file ends after the first
    record. *)
Lemma unwritable_record_truncates_witness :
  fst (run server_lone_surrogate None) = Raise UnicodeEncodeError
  /\ file (snd (run server_lone_surrogate None))
     = Some [header_row Z; csv_of_record (consultant 1 "Ann")].
Proof.
  assert (Hacc : fst (accumulate server_lone_surrogate (start None))
                 = Ok (PList ([consultant 1 "Ann"]
                              ++ nameless :: [consultant 3 "Cy"])))
    by (vm_compute; reflexivity).
  assert (Hopen : can_open server_lone_surrogate = true) by reflexivity.
  assert (Hgood : forallb (@writable Z whole_floats) [consultant 1 "Ann"] = true)
    by (vm_compute; reflexivity).
  assert (Hbad : writable nameless = false) by (vm_compute; reflexivity).
  exact (@unwritable_record_truncates Z whole_floats server_lone_surrogate None
           _ _ _ Hacc Hopen Hgood Hbad).
Defined.

(** X7 on the three-page server with a path that cannot be opened: three
    requests, then the error. *)
Lemma output_unwritable_witness :
  fst (run server_read_only (Some [])) = Raise OSError
  /\ file (snd (run server_read_only (Some []))) = Some []
  /\ posts (trace (snd (run server_read_only (Some []))))
     = [fetch_request 1; fetch_request 2; fetch_request 3].
Proof.
  assert (Hr : rbind (fetch_outcome server_read_only 1)
                 (@first_page_reads Z)
               = Ok (PList [consultant 1 "Ann"], 3))
    by (vm_compute; reflexivity).
  assert (Hopen : can_open server_read_only = false) by reflexivity.
  exact (@output_unwritable Z whole_floats server_read_only (Some []) _ _
           Hr Hopen).
Defined.

(** X11 on a consultant: a note added to the record changes no
    cell. *)
Lemma other_keys_ignored_witness :
  csv_of_record
    (PDict (dict_set (fields_of (consultant 1 "Ann")) (py "note") (PInt 7)))
  = csv_of_record (consultant 1 "Ann").
Proof.
  apply (@other_keys_ignored Z whole_floats (fields_of (consultant 1 "Ann"))
           (py "note") (PInt 7)).
  rewrite <- existsb_pystr_In. vm_compute. discriminate.
Defined.

(** X13 on a server with two pages, both of which go through: three
    records, three rows, in page order; and on an empty result: the header
    alone. *)
Lemma run_writes_all_records_witness :
  (fst (run server_two_pages None) = Ok tt
   /\ file (snd (run server_two_pages None))
      = Some [header_row Z; csv_of_record (consultant 1 "Ann");
              csv_of_record (consultant 2 "Bob");
              csv_of_record (consultant 3 "Cy")])
  /\ (fst (run server_no_results None) = Ok tt
      /\ file (snd (run server_no_results None)) = Some [header_row Z]).
Proof.
  split.
  - assert (Hf : fetch_outcome server_two_pages 1
                 = Ok (response_of 3 2 [consultant 1 "Ann"; consultant 2 "Bob"]))
      by (vm_compute; reflexivity).
    assert (Hv : search_response
                   (response_of 3 2 [consultant 1 "Ann"; consultant 2 "Bob"])
                   (PInt 3) 2 [consultant 1 "Ann"; consultant 2 "Bob"])
      by (split; [reflexivity|]; split; reflexivity).
    assert (Hopen : can_open server_two_pages = true) by reflexivity.
    assert (Hrecs : forallb (@writable Z whole_floats)
                      ([consultant 1 "Ann"; consultant 2 "Bob"]
                       ++ List.concat (map (page_records server_two_pages)
                                         (py_range 2 (2 + 1)))) = true)
      by (vm_compute; reflexivity).
    destruct (@run_writes_all_records Z whole_floats server_two_pages None
                _ _ _ _ Hf Hv Hopen Hrecs) as [Hrun Hfile].
    split; [exact Hrun|]. rewrite Hfile. vm_compute. reflexivity.
  - assert (Hf : fetch_outcome server_no_results 1 = Ok (response_of 0 0 []))
      by (vm_compute; reflexivity).
    assert (Hv : search_response (response_of 0 0 []) (PInt 0) 0 [])
      by (split; [reflexivity|]; split; reflexivity).
    assert (Hopen : can_open server_no_results = true) by reflexivity.
    assert (Hrecs : forallb (@writable Z whole_floats)
                      ([] ++ List.concat (map (page_records server_no_results)
                                            (py_range 2 (0 + 1)))) = true)
      by reflexivity.
    exact (@run_writes_all_records Z whole_floats server_no_results None _ _ _ _
             Hf Hv Hopen Hrecs).
Defined.

(** X14 on the nested value: the accents, the emoji and the line break are
    written as escapes. *)
Lemma flattened_text_printable_witness :
  flatten_value nested_value = Ok (PStr (body_of nested_value))
  /\ Forall (fun c => 32 <= c <= 126)%N (body_of nested_value).
Proof.
  assert (Hc : is_container nested_value = true) by reflexivity.
  assert (Hf : flatten_value nested_value = Ok (PStr (body_of nested_value)))
    by (vm_compute; reflexivity).
  split; [exact Hf|].
  exact (proj1 (@flattened_text_printable Z whole_floats nested_value _ Hc Hf)).
Defined.

(** X15 on the nested value. *)
Lemma flatten_value_injective_witness :
  flatten_value nested_value
  = flatten_value (PList [PStr [233; 128512; 10]%N; consultant 1 "Ann";
                          PFloat FNaN])
  /\ nested_value
     = PList [PStr [233; 128512; 10]%N; consultant 1 "Ann"; PFloat FNaN].
Proof.
  assert (Heq : flatten_value nested_value
                = flatten_value (PList [PStr [233; 128512; 10]%N;
                                        consultant 1 "Ann"; PFloat FNaN]))
    by reflexivity.
  split; [exact Heq|].
  apply (@flatten_value_injective Z whole_floats); try exact Heq;
    vm_compute; reflexivity.
Defined.

(** X16 on the three-page server: the specialties of a record of page 3
    read back from its cell. *)
Lemma collected_fields_read_back_witness :
  exists row s,
    flat_row (consultant 2 "Bob") = Ok row
    /\ dict_find row (py "specialties") = Some (PStr s)
    /\ json_loads s
       = Ok (PList [PStr (py "Cardiology"); PStr (py "Surgery")] : pyval Z).
Proof.
  assert (Hacc : fst (accumulate server_three_pages (start None))
                 = Ok (PList [consultant 1 "Ann"; consultant 2 "Bob";
                              consultant 3 "Cy"]))
    by (vm_compute; reflexivity).
  assert (Hin : In (PDict (fields_of (consultant 2 "Bob")))
                  [consultant 1 "Ann"; consultant 2 "Bob"; consultant 3 "Cy"])
    by (right; left; reflexivity).
  assert (Hfield : In (py "specialties") FIELDS)
    by (apply existsb_pystr_In; vm_compute; reflexivity).
  assert (Hc : is_container
                 (dict_get (fields_of (consultant 2 "Bob")) (py "specialties"))
               = true)
    by reflexivity.
  exact (@collected_fields_read_back Z whole_floats server_three_pages None
           _ _ _ three_pages_decoded Hacc Hin Hfield Hc).
Defined.
